(** * Checkpoint conversion and dataset pre-tokenization

    A shallow embedding of the weight-layout conversion
    ([weights2megatron/weights2megatron.py]), of the pre-tokenization
    pipeline ([oa/pretokenize.py]) and of the verification helper of the
    test-suite ([tests/test_llama_weights.py]).

    Python dictionaries are finite maps with string keys, Python integers
    are [Z] (or [nat] where the code only counts), raised exceptions are the
    [Raise] branch of an error monad. *)

From Stdlib Require Import ZArith List String Ascii Lia.
From Stdlib Require Import DecimalString DecimalNat.
From Stdlib Require Import Floats.PrimFloat.
From stdpp Require Import gmap strings list pretty.

Open Scope Z_scope.

(** ** Exceptions and the error monad *)

Inductive exn : Type :=
| KeyError (key : string)
| IndexError
| AssertionError
| ZeroDivisionError
| RuntimeError
| UnboundLocalError.

Inductive result (A : Type) : Type :=
| Ok (a : A)
| Raise (e : exn).

Arguments Ok {A} a.
Arguments Raise {A} e.

Global Instance result_ret : MRet result := fun A a => Ok a.

Global Instance result_bind : MBind result := fun A B k m =>
  match m with
  | Ok a => k a
  | Raise e => Raise e
  end.

(** [assert c] *)
Definition assert (c : bool) : result unit :=
  if c then Ok tt else Raise AssertionError.

(** [d[k]] on a dictionary. *)
Definition getitem {V : Type} (d : gmap string V) (k : string) : result V :=
  match d !! k with
  | Some v => Ok v
  | None => Raise (KeyError k)
  end.

(** [l[i]] on a list, for a non-negative index. *)
Definition list_getitem {A : Type} (l : list A) (i : nat) : result A :=
  match l !! i with
  | Some v => Ok v
  | None => Raise IndexError
  end.

(** [len(l)] *)
Definition len {A : Type} (l : list A) : Z := Z.of_nat (length l).

(** [str(n)] of a non-negative integer, as an f-string prints it. *)
Definition str (n : nat) : string := NilEmpty.string_of_uint (Nat.to_uint n).

Lemma bind_Ok {A B : Type} (m : result A) (k : A -> result B) (b : B) :
  m ≫= k = Ok b -> exists a, m = Ok a /\ k a = Ok b.
Proof. destruct m as [a|e]; simpl; intros H; [eauto | discriminate]. Qed.

Lemma assert_Ok (c : bool) (u : unit) : assert c = Ok u -> c = true.
Proof. destruct c; simpl; [reflexivity | discriminate]. Qed.

Lemma getitem_Ok {V : Type} (d : gmap string V) (k : string) (v : V) :
  getitem d k = Ok v <-> d !! k = Some v.
Proof. unfold getitem. destruct (d !! k); split; congruence. Qed.

(** ** [oa/pretokenize.py] *)

Module Pretokenize.

(** *** [class TokenStats] *)

Record TokenStats : Type := mkTokenStats {
  name : string;
  skipped_samples : Z;
  skipped_tokens : Z;
  total_samples : Z;
  min_tokens : option Z;
  max_tokens : Z;
  accepted_samples : Z;
  accepted_tokens : Z
}.

(** [TokenStats.__init__] *)
Definition init (name : string) (total_samples : Z) : TokenStats :=
  {| name := name;
     skipped_samples := 0;
     skipped_tokens := 0;
     total_samples := total_samples;
     min_tokens := None;
     max_tokens := 0;
     accepted_samples := 0;
     accepted_tokens := 0 |}.

(** The property [processed_samples]. *)
Definition processed_samples (self : TokenStats) : Z :=
  accepted_samples self + skipped_samples self.

(** [TokenStats.skip] *)
Definition skip (self : TokenStats) (tokens : list Z) : TokenStats :=
  {| name := name self;
     skipped_samples := skipped_samples self + 1;
     skipped_tokens := len tokens;
     total_samples := total_samples self;
     min_tokens := min_tokens self;
     max_tokens := max_tokens self;
     accepted_samples := accepted_samples self;
     accepted_tokens := accepted_tokens self |}.

(** [TokenStats.add] *)
Definition add (self : TokenStats) (tokens : list Z) : TokenStats :=
  let l := len tokens in
  {| name := name self;
     skipped_samples := skipped_samples self;
     skipped_tokens := skipped_tokens self;
     total_samples := total_samples self;
     min_tokens :=
       match min_tokens self with
       | None => Some l
       | Some m => if m >? l then Some l else Some m
       end;
     max_tokens := if max_tokens self <? l then l else max_tokens self;
     accepted_samples := accepted_samples self + 1;
     accepted_tokens := accepted_tokens self + l |}.

(** A method call on a [TokenStats] object, and a sequence of them run in
    order on the object that [__init__] built. *)
Inductive call : Type :=
| Add (tokens : list Z)
| Skip (tokens : list Z).

Definition apply_call (self : TokenStats) (c : call) : TokenStats :=
  match c with
  | Add tokens => add self tokens
  | Skip tokens => skip self tokens
  end.

Definition run_calls (self : TokenStats) (cs : list call) : TokenStats :=
  fold_left apply_call cs self.

(** The lengths of the token lists given to [add], in call order. *)
Fixpoint added_lengths (cs : list call) : list Z :=
  match cs with
  | [] => []
  | Add tokens :: cs' => len tokens :: added_lengths cs'
  | Skip _ :: cs' => added_lengths cs'
  end.

(** The token lists given to [skip], in call order. *)
Fixpoint skipped_lists (cs : list call) : list (list Z) :=
  match cs with
  | [] => []
  | Add _ :: cs' => skipped_lists cs'
  | Skip tokens :: cs' => tokens :: skipped_lists cs'
  end.

Definition sum_Z (l : list Z) : Z := fold_right Z.add 0 l.

(** *** Dataset entries

    [Role], [Utterance], [DatasetEntrySft] and [DatasetEntryLm] come from
    [model_training.custom_datasets.formatting]; only the fields that
    [pretokenize.py] reads are kept.  A dataset element that is none of the
    two entry classes is handed to [format_pairs], which accepts a list or a
    tuple of strings and nothing else. *)

Inductive Role : Type := prompter | assistant.

Record Utterance : Type := mkUtterance {
  text : string;
  role : Role
}.

Record DatasetEntrySft : Type := mkSft {
  conversation : list Utterance;
  system_message : option string
}.

Record DatasetEntryLm : Type := mkLm {
  lm_text : string
}.

Inductive messages : Type :=
| Sft (entry : DatasetEntrySft)
| Lm (entry : DatasetEntryLm)
| Pairs (pairs : list string)
| OtherObject.

(** [class IntRole(IntEnum)] *)
Inductive IntRole : Type := System | Prompter | Assistant.

Definition IntRole_value (r : IntRole) : Z :=
  match r with
  | System => 0
  | Prompter => 1
  | Assistant => 2
  end.

(** The first component that [format_conversation] returns is a list of
    strings on two of its paths and a bare string on the third. *)
Inductive turns_t : Type :=
| TurnList (l : list string)
| TurnStr (s : string).

(** Iterating over a string yields its characters, one-character strings. *)
Fixpoint chars (s : string) : list string :=
  match s with
  | EmptyString => []
  | String c s' => String c EmptyString :: chars s'
  end.

(** What [for t in turns] (and so [zip(turns, _)]) iterates over. *)
Definition iter_turns (turns : turns_t) : list string :=
  match turns with
  | TurnList l => l
  | TurnStr s => chars s
  end.

Definition join (l : list string) : string :=
  fold_right String.append EmptyString l.

(** ["".join(turns)] *)
Definition join_turns (turns : turns_t) : string := join (iter_turns turns).

Definition nl : string := String (ascii_of_nat 10) EmptyString.

Definition im_turn (role_name body : string) : string :=
  "<|im_start|>" +:+ role_name +:+ nl +:+ body +:+ "<|im_end|>" +:+ nl.

(** [format_pairs] on a list (or tuple) of strings: the roles alternate,
    starting with the user. *)
Definition format_pairs (pairs : list string) : list string * list Z :=
  (imap (fun i p => im_turn (if Nat.even i then "user" else "assistant") p) pairs,
   imap (fun i _ => if Nat.even i then 1 else 2) pairs).

(** The loop of [format_sft_entry] over [entry.conversation]. *)
Fixpoint format_sft_loop (conv : list Utterance) (turns : list string)
    (roles : list Z) : list string * list Z :=
  match conv with
  | [] => (turns, roles)
  | m :: conv' =>
      match role m with
      | prompter =>
          format_sft_loop conv' (turns ++ [im_turn "user" (text m)])
            (roles ++ [IntRole_value Prompter])
      | assistant =>
          format_sft_loop conv' (turns ++ [im_turn "assistant" (text m)])
            (roles ++ [IntRole_value Assistant])
      end
  end.

(** [format_sft_entry] *)
Definition format_sft_entry (entry : DatasetEntrySft) : list string * list Z :=
  let '(turns, roles) :=
    match system_message entry with
    | Some sm =>
        if negb (String.eqb sm "") && (0 <? Z.of_nat (String.length sm))
        then ([im_turn "system" sm], [IntRole_value System])
        else ([], [])
    | None => ([], [])
    end in
  format_sft_loop (conversation entry) turns roles.

(** [format_conversation] *)
Definition format_conversation (msgs : messages) : result (turns_t * list Z) :=
  match msgs with
  | Sft entry =>
      let '(turns, roles) := format_sft_entry entry in Ok (TurnList turns, roles)
  | Lm entry => Ok (TurnStr (lm_text entry), [3])
  | Pairs pairs =>
      let '(turns, roles) := format_pairs pairs in Ok (TurnList turns, roles)
  | OtherObject => Raise AssertionError
  end.

(** *** Writers and datasets *)

(** [class DatasetWriter]: the builder of [indexed_dataset] is kept as the
    sequence of items handed to it and a flag set by [finalize]. *)
Record DatasetWriter : Type := mkWriter {
  bin_filename : string;
  idx_filename : string;
  writer_vocab_size : Z;
  items : list (list Z);
  finalized : bool
}.

Definition new_writer (filename_prefix : string) (vocab_size : Z)
    (feature : string) : DatasetWriter :=
  {| bin_filename := filename_prefix +:+ "-" +:+ feature +:+ ".bin";
     idx_filename := filename_prefix +:+ "-" +:+ feature +:+ ".idx";
     writer_vocab_size := vocab_size;
     items := [];
     finalized := false |}.

Definition add_item (self : DatasetWriter) (tokenized_item : list Z) : DatasetWriter :=
  {| bin_filename := bin_filename self;
     idx_filename := idx_filename self;
     writer_vocab_size := writer_vocab_size self;
     items := items self ++ [tokenized_item];
     finalized := finalized self |}.

Definition finalize (self : DatasetWriter) : DatasetWriter :=
  {| bin_filename := bin_filename self;
     idx_filename := idx_filename self;
     writer_vocab_size := writer_vocab_size self;
     items := items self;
     finalized := true |}.

(** A member of [ConcatDataset.datasets]: whether it is a [Subset], the
    [name] attribute and the class name of the dataset that the naming code
    inspects ([d.dataset] for a [Subset], [d] otherwise), and its elements. *)
Record SubDataset : Type := mkSub {
  is_Subset : bool;
  name_attr : option string;
  type_name : string;
  elements : list messages
}.

Inductive Dataset : Type :=
| ConcatDataset (datasets : list SubDataset)
| PlainDataset (samples : list messages).

(** The elements in iteration order. *)
Definition iterate (dataset : Dataset) : list messages :=
  match dataset with
  | ConcatDataset datasets => concat (map elements datasets)
  | PlainDataset samples => samples
  end.

(** The first loop of [tokenize_dataset], over [dataset.datasets]; the local
    variable [name] is unbound ([None]) until its first assignment. *)
Fixpoint concat_setup (datasets : list SubDataset) (name : option string) (s : Z)
    (per_dataset_stats : list TokenStats) (cumulative_sizes : list Z)
    : result (list TokenStats * list Z) :=
  match datasets with
  | [] => Ok (per_dataset_stats, cumulative_sizes)
  | d :: datasets' =>
      name' ←
        (if is_Subset d then
           match name_attr d with
           | Some n => Ok n
           | None => Ok ("Subset of " +:+ type_name d)
           end
         else
           match name_attr d with
           | Some n =>
               match name with
               | Some old => Ok (old +:+ n)
               | None => Raise UnboundLocalError
               end
           | None => Ok (type_name d)
           end);
      let s' := s + len (elements d) in
      concat_setup datasets' (Some name') s'
        (per_dataset_stats ++ [init name' (len (elements d))])
        (cumulative_sizes ++ [s'])
  end.

(** *** The main loop of [tokenize_dataset]

    The objects the loop mutates are threaded as a state; an exception
    leaves the state as it was when it was raised. *)

Record loop_state : Type := mkLoop {
  token_writer : DatasetWriter;
  role_writer : DatasetWriter;
  jsonl_file : option (list string);
  total_stats : TokenStats;
  per_dataset_stats : list TokenStats;
  subset_index : nat
}.

Definition M (A : Type) : Type := loop_state -> loop_state * result A.

Global Instance M_ret : MRet M := fun A a st => (st, Ok a).

Global Instance M_bind : MBind M := fun A B k m st =>
  match m st with
  | (st', Ok a) => k a st'
  | (st', Raise e) => (st', Raise e)
  end.

Definition get : M loop_state := fun st => (st, Ok st).
Definition modify (f : loop_state -> loop_state) : M unit := fun st => (f st, Ok tt).
Definition lift {A : Type} (r : result A) : M A := fun st => (st, r).

Definition set_subset_index (n : nat) (st : loop_state) : loop_state :=
  mkLoop (token_writer st) (role_writer st) (jsonl_file st) (total_stats st)
    (per_dataset_stats st) n.

Definition set_total_stats (t : TokenStats) (st : loop_state) : loop_state :=
  mkLoop (token_writer st) (role_writer st) (jsonl_file st) t
    (per_dataset_stats st) (subset_index st).

Definition set_per_dataset_stats (l : list TokenStats) (st : loop_state) : loop_state :=
  mkLoop (token_writer st) (role_writer st) (jsonl_file st) (total_stats st)
    l (subset_index st).

Definition set_token_writer (w : DatasetWriter) (st : loop_state) : loop_state :=
  mkLoop w (role_writer st) (jsonl_file st) (total_stats st)
    (per_dataset_stats st) (subset_index st).

Definition set_role_writer (w : DatasetWriter) (st : loop_state) : loop_state :=
  mkLoop (token_writer st) w (jsonl_file st) (total_stats st)
    (per_dataset_stats st) (subset_index st).

Definition set_jsonl_file (f : option (list string)) (st : loop_state) : loop_state :=
  mkLoop (token_writer st) (role_writer st) f (total_stats st)
    (per_dataset_stats st) (subset_index st).

(** [per_dataset_stats[subset_index].f(tokens)] for [f] one of [skip], [add]. *)
Definition update_subset_stats (f : TokenStats -> list Z -> TokenStats)
    (tokens : list Z) : M unit :=
  st ← get;
  stats ← lift (list_getitem (per_dataset_stats st) (subset_index st));
  modify (set_per_dataset_stats
            (<[subset_index st := f stats tokens]> (per_dataset_stats st))).

(** Each [x/y] of the progress and statistics lines, for what it can raise. *)
Definition truediv_check (y : Z) : result unit :=
  if y =? 0 then Raise ZeroDivisionError else Ok tt.

Inductive control : Type := Continue | Break.

Definition list_Z_eqb (x y : list Z) : bool := bool_decide (x = y).

Section Tokenize.

(** The tokenizer is an external collaborator: [encoder.encode_text] and
    [encoder.tokenizer.vocab_size]. *)
Variable encode_text : string -> list Z.
Variable vocab_size : Z.

(** The inner loop over [zip(turns, turn_roles)]: the tokens, the role
    labels and the number of assistant tokens of one sample. *)
Definition tokenize_turns (turns : turns_t) (turn_roles : list Z)
    : list Z * list Z * Z :=
  fold_left
    (fun acc tr =>
       let '(tokens, role_lables, num_assistant_tokens) := acc in
       let '(t, r) := tr in
       let turn_tokens := encode_text t in
       let turn_role := replicate (length turn_tokens) r in
       (tokens ++ turn_tokens,
        role_lables ++ turn_role,
        if r =? IntRole_value Assistant
        then num_assistant_tokens + len turn_tokens
        else num_assistant_tokens))
    (zip (iter_turns turns) turn_roles)
    ([], [], 0).

Section Loop.

Variable cumulative_sizes : list Z.
Variable max_count : option Z.
Variable min_assistant_tokens : option Z.
Variable check_tokenization : bool.

(** [min_assistant_tokens is not None and num_assistant_tokens < min_assistant_tokens] *)
Definition below_min (num_assistant_tokens : Z) : bool :=
  match min_assistant_tokens with
  | Some m => num_assistant_tokens <? m
  | None => false
  end.

(** [max_count and total_stats.accepted_samples >= max_count] *)
Definition reached_max_count (accepted : Z) : bool :=
  match max_count with
  | Some c => negb (c =? 0) && (accepted >=? c)
  | None => false
  end.

(** The body of [for i, messages in enumerate(tqdm(dataset))]. *)
Definition loop_body (i : nat) (msgs : messages) : M control :=
  st ← get;
  size ← lift (list_getitem cumulative_sizes (subset_index st));
  (if Z.of_nat i >=? size
   then modify (set_subset_index (S (subset_index st)))
   else mret tt);;
  lift (if (0 <? Z.of_nat i) && (Z.of_nat i mod 10000 =? 0)
        then truediv_check (processed_samples (total_stats st))
        else Ok tt);;
  '(turns, turn_roles) ← lift (format_conversation msgs);
  let '(tokens, role_lables, num_assistant_tokens) :=
    tokenize_turns turns turn_roles in
  if below_min num_assistant_tokens then
    modify (fun st => set_total_stats (skip (total_stats st) tokens) st);;
    update_subset_stats skip tokens;;
    mret Continue
  else
    lift (if check_tokenization
          then
            let x := encode_text (join_turns turns) in
            assert (list_Z_eqb x tokens && (len tokens =? len role_lables))
          else Ok tt);;
    modify (fun st => set_token_writer (add_item (token_writer st) tokens) st);;
    modify (fun st => set_role_writer (add_item (role_writer st) role_lables) st);;
    modify (fun st => set_total_stats (add (total_stats st) tokens) st);;
    update_subset_stats add tokens;;
    modify (fun st =>
              set_jsonl_file
                (option_map (fun lines => lines ++ [join_turns turns]) (jsonl_file st))
                st);;
    st ← get;
    if reached_max_count (accepted_samples (total_stats st))
    then mret Break
    else mret Continue.

(** The [for] loop, from index [i] on. *)
Fixpoint for_loop (i : nat) (samples : list messages) : M unit :=
  match samples with
  | [] => mret tt
  | msgs :: samples' =>
      c ← loop_body i msgs;
      match c with
      | Break => mret tt
      | Continue => for_loop (S i) samples'
      end
  end.

End Loop.

(** What is left when [tokenize_dataset] returns or raises: the two
    writers and the JSON-lines file (absent when they were never opened),
    and the statistics objects. *)
Record final_state : Type := mkFinal {
  final_token_writer : option DatasetWriter;
  final_role_writer : option DatasetWriter;
  final_jsonl : option (list string);
  final_total_stats : TokenStats;
  final_per_dataset_stats : list TokenStats
}.

(** The closing report divides by [processed_samples] and by
    [accepted_samples] of every per-dataset statistics object. *)
Fixpoint print_stats (per_dataset_stats : list TokenStats) : result unit :=
  match per_dataset_stats with
  | [] => Ok tt
  | stats :: rest =>
      truediv_check (processed_samples stats);;
      truediv_check (processed_samples stats);;
      truediv_check (accepted_samples stats);;
      print_stats rest
  end.

(** [tokenize_dataset]; [full_prefix] is [str(output_dir / filename_prefix)]. *)
Definition tokenize_dataset (full_prefix : string) (dataset : Dataset)
    (max_count min_assistant_tokens : option Z)
    (check_tokenization write_json : bool) : final_state * result unit :=
  let total := init "total" (len (iterate dataset)) in
  let setup :=
    match dataset with
    | ConcatDataset datasets => concat_setup datasets None 0 [] []
    | PlainDataset _ => Ok ([], [])
    end in
  match setup with
  | Raise e => (mkFinal None None None total [], Raise e)
  | Ok (stats, cumulative_sizes) =>
      let st0 :=
        mkLoop (new_writer full_prefix vocab_size "text")
               (new_writer full_prefix 16 "role")
               (if write_json then Some [] else None)
               total stats 0%nat in
      let '(st, r) :=
        for_loop cumulative_sizes max_count min_assistant_tokens
          check_tokenization 0 (iterate dataset) st0 in
      (mkFinal (Some (finalize (token_writer st)))
               (Some (finalize (role_writer st)))
               (jsonl_file st) (total_stats st) (per_dataset_stats st),
       r;; print_stats (per_dataset_stats st))
  end.

End Tokenize.

(** The invariant of the main loop at the start of iteration [i]: one
    statistics object per cumulative size, [subset_index] in range, [i]
    below the total size (the last cumulative size), and [i] samples
    processed so far. *)
Definition loop_inv (cumulative_sizes : list Z) (i : nat) (st : loop_state) : Prop :=
  length (per_dataset_stats st) = length cumulative_sizes /\
  (subset_index st < length cumulative_sizes)%nat /\
  (exists total, last cumulative_sizes = Some total /\ Z.of_nat i < total) /\
  processed_samples (total_stats st) = Z.of_nat i.

(** A byte-level tokenizer, one token per character, to run the pipeline on
    concrete inputs. *)
Definition byte_tokenizer (s : string) : list Z :=
  map (fun c => Z.of_nat (nat_of_ascii c)) (list_ascii_of_string s).

Example format_pairs_example :
  format_pairs ["hi"; "yo"; "ok"]
  = ([im_turn "user" "hi"; im_turn "assistant" "yo"; im_turn "user" "ok"],
     [1; 2; 1]).
Proof. reflexivity. Qed.

Example format_sft_entry_example :
  format_sft_entry
    (mkSft [mkUtterance "q" prompter; mkUtterance "a" assistant] (Some "be brief"))
  = ([im_turn "system" "be brief"; im_turn "user" "q"; im_turn "assistant" "a"],
     [0; 1; 2]).
Proof. reflexivity. Qed.

Example format_sft_entry_empty_system :
  format_sft_entry (mkSft [mkUtterance "q" prompter] (Some ""))
  = ([im_turn "user" "q"], [1]).
Proof. reflexivity. Qed.

Example tokenize_turns_example :
  tokenize_turns byte_tokenizer (TurnList ["ab"; "c"]) [1; 2]
  = ([97; 98; 99], [1; 1; 2], 1).
Proof. reflexivity. Qed.

(** *** Properties of [TokenStats] *)

Lemma run_calls_snoc (self : TokenStats) (cs : list call) (c : call) :
  run_calls self (cs ++ [c]) = apply_call (run_calls self cs) c.
Proof. unfold run_calls. rewrite fold_left_app. reflexivity. Qed.

Lemma added_lengths_app (cs1 cs2 : list call) :
  added_lengths (cs1 ++ cs2) = added_lengths cs1 ++ added_lengths cs2.
Proof.
  induction cs1 as [|[t|t] cs1 IH]; simpl; [reflexivity | rewrite IH | exact IH].
  reflexivity.
Qed.

Lemma skipped_lists_app (cs1 cs2 : list call) :
  skipped_lists (cs1 ++ cs2) = skipped_lists cs1 ++ skipped_lists cs2.
Proof.
  induction cs1 as [|[t|t] cs1 IH]; simpl; [reflexivity | exact IH | rewrite IH].
  reflexivity.
Qed.

Lemma sum_Z_app (l1 l2 : list Z) : sum_Z (l1 ++ l2) = sum_Z l1 + sum_Z l2.
Proof. induction l1 as [|x l1 IH]; simpl; [reflexivity | rewrite IH; lia]. Qed.

Lemma len_app {A : Type} (l1 l2 : list A) : len (l1 ++ l2) = len l1 + len l2.
Proof. unfold len. rewrite length_app. lia. Qed.

Lemma len_nonneg {A : Type} (l : list A) : 0 <= len l.
Proof. unfold len. lia. Qed.

Lemma added_lengths_nonneg (cs : list call) (l : Z) :
  In l (added_lengths cs) -> 0 <= l.
Proof.
  induction cs as [|[t|t] cs IH]; simpl; [tauto | | exact IH].
  intros [<-|H]; [apply len_nonneg | exact (IH H)].
Qed.

(** [m] is what [min_tokens] must hold for the lengths [ls]. *)
Definition is_min_of (m : option Z) (ls : list Z) : Prop :=
  match m with
  | None => ls = []
  | Some x => In x ls /\ forall l, In l ls -> x <= l
  end.

(** [m] is what [max_tokens] must hold for the lengths [ls]. *)
Definition is_max_of (m : Z) (ls : list Z) : Prop :=
  (ls = [] /\ m = 0) \/ (In m ls /\ forall l, In l ls -> l <= m).

Lemma is_min_of_snoc (m : option Z) (ls : list Z) (l : Z) :
  is_min_of m ls ->
  is_min_of (match m with
             | None => Some l
             | Some x => if x >? l then Some l else Some x
             end) (ls ++ [l]).
Proof.
  destruct m as [x|]; simpl.
  - intros [Hin Hle]. destruct (Z.gtb_spec x l) as [Hgt|Hng]; simpl; split.
    + apply in_or_app. right. left. reflexivity.
    + intros y Hy. apply in_app_or in Hy as [Hy|[<-|[]]]; [|lia].
      specialize (Hle y Hy). lia.
    + apply in_or_app. left. exact Hin.
    + intros y Hy. apply in_app_or in Hy as [Hy|[<-|[]]]; [|lia].
      exact (Hle y Hy).
  - intros ->. simpl. split; [left; reflexivity|].
    intros y [<-|[]]. lia.
Qed.

Lemma is_max_of_snoc (m : Z) (ls : list Z) (l : Z) :
  0 <= l ->
  is_max_of m ls ->
  is_max_of (if m <? l then l else m) (ls ++ [l]).
Proof.
  intros Hl [[-> ->]|[Hin Hle]]; right; simpl.
  - destruct (Z.ltb_spec 0 l); split; try (left; lia);
      intros y [<-|[]]; lia.
  - destruct (Z.ltb_spec m l) as [Hlt|Hge]; split.
    + apply in_or_app. right. left. reflexivity.
    + intros y Hy. apply in_app_or in Hy as [Hy|[<-|[]]]; [|lia].
      specialize (Hle y Hy). lia.
    + apply in_or_app. left. exact Hin.
    + intros y Hy. apply in_app_or in Hy as [Hy|[<-|[]]]; [|lia].
      exact (Hle y Hy).
Qed.

(** Every counter after a run of calls, in terms of the calls. *)
Lemma run_calls_counters (name0 : string) (total : Z) (cs : list call) :
  let st := run_calls (init name0 total) cs in
  accepted_samples st = len (added_lengths cs) /\
  accepted_tokens st = sum_Z (added_lengths cs) /\
  is_min_of (min_tokens st) (added_lengths cs) /\
  is_max_of (max_tokens st) (added_lengths cs) /\
  skipped_samples st = len (skipped_lists cs) /\
  skipped_tokens st = match last (skipped_lists cs) with
                      | Some tokens => len tokens
                      | None => 0
                      end.
Proof.
  induction cs as [|c cs IH] using rev_ind.
  - simpl. repeat split; try reflexivity. left. split; reflexivity.
  - rewrite run_calls_snoc, added_lengths_app, skipped_lists_app.
    simpl in IH. destruct IH as (Has & Hat & Hmin & Hmax & Hss & Hst).
    destruct c as [t|t]; simpl.
    + rewrite app_nil_r, len_app, sum_Z_app, Has, Hat.
      repeat split; try (unfold len; simpl; lia); try assumption.
      * apply is_min_of_snoc. exact Hmin.
      * apply is_max_of_snoc; [apply len_nonneg | exact Hmax].
    + rewrite app_nil_r, len_app, last_snoc, Hss.
      repeat split; try (unfold len; simpl; lia); assumption.
Qed.

Lemma skipped_lists_map_Skip (ts : list (list Z)) :
  skipped_lists (map Skip ts) = ts.
Proof. induction ts as [|t ts IH]; simpl; [reflexivity | rewrite IH; reflexivity]. Qed.

Lemma added_lengths_map_Skip (ts : list (list Z)) :
  added_lengths (map Skip ts) = [].
Proof. induction ts as [|t ts IH]; simpl; [reflexivity | exact IH]. Qed.

(** Every call is either an [add] or a [skip]. *)
Lemma processed_samples_counts_calls (name0 : string) (total : Z) (cs : list call) :
  processed_samples (run_calls (init name0 total) cs) = len cs.
Proof.
  unfold processed_samples.
  destruct (run_calls_counters name0 total cs) as (-> & _ & _ & _ & -> & _).
  induction cs as [|[t|t] cs IH]; simpl; unfold len in *; simpl length; lia.
Qed.

(** C4: whatever the interleaving of [add] and [skip] calls on a fresh
    [TokenStats], [processed_samples] is [accepted_samples] plus
    [skipped_samples] after every prefix of the calls, and at the end
    [accepted_samples] is the number of [add] calls, [accepted_tokens] the
    sum of the lengths given to [add], [min_tokens] their minimum ([None]
    without any [add]) and [max_tokens] their maximum (0 without any). *)
Theorem token_stats_accounting (name0 : string) (total : Z) (cs : list call) :
  let st := run_calls (init name0 total) cs in
  (forall k : nat,
      let s := run_calls (init name0 total) (take k cs) in
      processed_samples s = accepted_samples s + skipped_samples s) /\
  accepted_samples st = len (added_lengths cs) /\
  accepted_tokens st = sum_Z (added_lengths cs) /\
  is_min_of (min_tokens st) (added_lengths cs) /\
  is_max_of (max_tokens st) (added_lengths cs).
Proof.
  destruct (run_calls_counters name0 total cs) as (Has & Hat & Hmin & Hmax & _).
  simpl. split; [intros k; reflexivity|]. auto.
Qed.

(** C9: after a non-empty sequence of [skip] calls, [skipped_tokens] is the
    length of the list given to the last call alone, so it is the cumulative
    number of skipped tokens only when every earlier list was empty, whereas
    [skipped_samples] counts every call. *)
Theorem skipped_tokens_keeps_last_only (name0 : string) (total : Z)
    (ts : list (list Z)) (tokens : list Z) :
  last ts = Some tokens ->
  let st := run_calls (init name0 total) (map Skip ts) in
  skipped_tokens st = len tokens /\
  skipped_samples st = len ts /\
  (skipped_tokens st = sum_Z (map len ts) <->
   sum_Z (map len (removelast ts)) = 0).
Proof.
  intros Hlast.
  destruct (run_calls_counters name0 total (map Skip ts))
    as (_ & _ & _ & _ & Hss & Hst).
  rewrite skipped_lists_map_Skip in Hss, Hst. rewrite Hlast in Hst.
  simpl. split; [exact Hst|]. split; [exact Hss|].
  rewrite Hst.
  assert (Hts : ts = removelast ts ++ [tokens]).
  { destruct (last_Some ts tokens) as [[l' ->] _]; [exact Hlast|].
    rewrite removelast_last. reflexivity. }
  rewrite Hts at 1. rewrite map_app, sum_Z_app. simpl. lia.
Qed.

Lemma skipped_tokens_keeps_last_only_witness :
  let st := run_calls (init "total" 2) (map Skip [[1; 2]; [3]]) in
  skipped_tokens st = 1 /\ skipped_samples st = 2 /\
  (skipped_tokens st = sum_Z (map len [[1; 2]; [3]]) <->
   sum_Z (map len (removelast [[1; 2]; [3]])) = 0).
Proof.
  apply (skipped_tokens_keeps_last_only "total" 2 [[1; 2]; [3]] [3]).
  reflexivity.
Defined.

(** *** Properties of [tokenize_dataset] *)

Ltac run_M :=
  unfold mbind, M_bind, mret, M_ret, get, lift, modify, update_subset_stats;
  simpl.

Lemma last_lookup_length {A : Type} (l : list A) (x : A) :
  last l = Some x -> l !! pred (length l) = Some x.
Proof. rewrite last_lookup. auto. Qed.

(** Under the invariant the index that the body settles on is in range. *)
Lemma loop_inv_index (cumulative_sizes : list Z) (i : nat) (st : loop_state) :
  loop_inv cumulative_sizes i st ->
  exists size,
    cumulative_sizes !! subset_index st = Some size /\
    ((Z.of_nat i >=? size) = true ->
     (S (subset_index st) < length cumulative_sizes)%nat).
Proof.
  intros (Hlen & Hidx & (total & Hlast & Hi) & Hproc).
  destruct (lookup_lt_is_Some_2 cumulative_sizes (subset_index st) Hidx)
    as [size Hsize].
  exists size. split; [exact Hsize|].
  intros Hge. apply Z.geb_le in Hge.
  destruct (decide (S (subset_index st) < length cumulative_sizes)%nat)
    as [Hlt|Hnlt]; [exact Hlt|].
  apply last_lookup_length in Hlast.
  replace (pred (length cumulative_sizes)) with (subset_index st) in Hlast by lia.
  rewrite Hsize in Hlast. injection Hlast as ->. lia.
Qed.

(** The index that iteration [i] uses for the per-dataset statistics. *)
Definition settled_index (cumulative_sizes : list Z) (i : nat) (st : loop_state) : nat :=
  match cumulative_sizes !! subset_index st with
  | Some size => if Z.of_nat i >=? size then S (subset_index st) else subset_index st
  | None => subset_index st
  end.

Lemma settled_index_in_range (cumulative_sizes : list Z) (i : nat) (st : loop_state) :
  loop_inv cumulative_sizes i st ->
  (settled_index cumulative_sizes i st < length (per_dataset_stats st))%nat.
Proof.
  intros Hinv. destruct (loop_inv_index _ _ _ Hinv) as (size & Hsize & Hnext).
  destruct Hinv as (Hlen & Hidx & _).
  unfold settled_index. rewrite Hsize, Hlen.
  destruct (Z.of_nat i >=? size); [apply Hnext; reflexivity | exact Hidx].
Qed.

(** The progress line never divides by zero under the invariant. *)
Lemma progress_check_ok (cumulative_sizes : list Z) (i : nat) (st : loop_state) :
  loop_inv cumulative_sizes i st ->
  (if (0 <? Z.of_nat i) && (Z.of_nat i mod 10000 =? 0)
   then truediv_check (processed_samples (total_stats st))
   else Ok tt) = Ok tt.
Proof.
  intros (_ & _ & _ & Hproc).
  destruct (Z.ltb_spec 0 (Z.of_nat i)) as [Hpos|Hz]; simpl; [|reflexivity].
  destruct (Z.of_nat i mod 10000 =? 0); [|reflexivity].
  unfold truediv_check. rewrite Hproc.
  destruct (Z.eqb_spec (Z.of_nat i) 0); [lia | reflexivity].
Qed.

Section BodyProperties.

Variable encode_text : string -> list Z.
Variable cumulative_sizes : list Z.
Variable max_count : option Z.
Variable check_tokenization : bool.

(** The state a skipped sample leaves behind. *)
Definition skipped_state (i : nat) (tokens : list Z) (old : TokenStats)
    (st : loop_state) : loop_state :=
  let idx := settled_index cumulative_sizes i st in
  mkLoop (token_writer st) (role_writer st) (jsonl_file st)
    (skip (total_stats st) tokens)
    (<[idx := skip old tokens]> (per_dataset_stats st))
    idx.

Lemma loop_body_below_min (m : Z) (i : nat) (msgs : messages) (st : loop_state)
    (turns : turns_t) (turn_roles tokens role_lables : list Z)
    (num_assistant_tokens : Z) :
  loop_inv cumulative_sizes i st ->
  format_conversation msgs = Ok (turns, turn_roles) ->
  tokenize_turns encode_text turns turn_roles
    = (tokens, role_lables, num_assistant_tokens) ->
  num_assistant_tokens < m ->
  exists old,
    per_dataset_stats st !! settled_index cumulative_sizes i st = Some old /\
    loop_body encode_text cumulative_sizes max_count (Some m) check_tokenization
      i msgs st
    = (skipped_state i tokens old st, Ok Continue).
Proof.
  intros Hinv Hfmt Htok Hlt.
  pose proof (settled_index_in_range _ _ _ Hinv) as Hrange.
  pose proof (progress_check_ok _ _ _ Hinv) as Hprog.
  destruct (lookup_lt_is_Some_2 _ _ Hrange) as [old Hold].
  exists old. split; [exact Hold|].
  destruct (loop_inv_index _ _ _ Hinv) as (size & Hsize & _).
  unfold skipped_state, settled_index in *. rewrite Hsize in *.
  unfold loop_body. run_M. unfold list_getitem at 1. rewrite Hsize. simpl.
  apply Z.ltb_lt in Hlt.
  destruct (Z.of_nat i >=? size); simpl;
    rewrite Hprog; simpl; rewrite Hfmt; simpl; rewrite Htok; unfold below_min;
    rewrite Hlt; simpl; run_M; unfold list_getitem; rewrite Hold; reflexivity.
Qed.

(** The state an accepted sample leaves behind. *)
Definition accepted_state (i : nat) (turns : turns_t) (tokens role_lables : list Z)
    (old : TokenStats) (st : loop_state) : loop_state :=
  let idx := settled_index cumulative_sizes i st in
  mkLoop (add_item (token_writer st) tokens)
    (add_item (role_writer st) role_lables)
    (option_map (fun lines => lines ++ [join_turns turns]) (jsonl_file st))
    (add (total_stats st) tokens)
    (<[idx := add old tokens]> (per_dataset_stats st))
    idx.

(** The condition that [check_tokenization] asserts. *)
Definition tokenization_checks (turns : turns_t) (tokens role_lables : list Z) : bool :=
  if check_tokenization
  then list_Z_eqb (encode_text (join_turns turns)) tokens
       && (len tokens =? len role_lables)
  else true.

Lemma loop_body_not_below_min (min_assistant_tokens : option Z) (i : nat)
    (msgs : messages) (st : loop_state)
    (turns : turns_t) (turn_roles tokens role_lables : list Z)
    (num_assistant_tokens : Z) :
  loop_inv cumulative_sizes i st ->
  format_conversation msgs = Ok (turns, turn_roles) ->
  tokenize_turns encode_text turns turn_roles
    = (tokens, role_lables, num_assistant_tokens) ->
  below_min min_assistant_tokens num_assistant_tokens = false ->
  exists old,
    per_dataset_stats st !! settled_index cumulative_sizes i st = Some old /\
    loop_body encode_text cumulative_sizes max_count min_assistant_tokens
      check_tokenization i msgs st
    = if tokenization_checks turns tokens role_lables
      then (accepted_state i turns tokens role_lables old st,
            Ok (if reached_max_count max_count
                     (accepted_samples (total_stats st) + 1)
                then Break else Continue))
      else (set_subset_index (settled_index cumulative_sizes i st) st,
            Raise AssertionError).
Proof.
  intros Hinv Hfmt Htok Hnb.
  pose proof (settled_index_in_range _ _ _ Hinv) as Hrange.
  pose proof (progress_check_ok _ _ _ Hinv) as Hprog.
  destruct (lookup_lt_is_Some_2 _ _ Hrange) as [old Hold].
  exists old. split; [exact Hold|].
  destruct (loop_inv_index _ _ _ Hinv) as (size & Hsize & _).
  unfold accepted_state, tokenization_checks, settled_index in *.
  rewrite Hsize in *.
  unfold loop_body. run_M. unfold list_getitem at 1. rewrite Hsize. simpl.
  destruct (Z.of_nat i >=? size); simpl;
    rewrite Hprog; simpl; rewrite Hfmt; simpl; rewrite Htok, Hnb; simpl;
    (destruct check_tokenization; simpl;
     [destruct (list_Z_eqb _ _ && _); simpl|]);
    run_M; unfold list_getitem; try rewrite Hold; simpl;
    try (destruct (reached_max_count _ _)); try reflexivity;
    destruct st; reflexivity.
Qed.

End BodyProperties.

Lemma skipped_samples_insert_add (l : list TokenStats) (idx : nat)
    (old : TokenStats) (tokens : list Z) :
  l !! idx = Some old ->
  map skipped_samples (<[idx := add old tokens]> l) = map skipped_samples l.
Proof.
  intros Hold. change (@map TokenStats Z) with (@fmap list _ TokenStats Z).
  rewrite list_fmap_insert. simpl. apply list_insert_id.
  rewrite list_lookup_fmap, Hold. reflexivity.
Qed.

(** One iteration of the main loop, at any state that satisfies the loop
    invariant and for any sample that [format_conversation] accepts:
    when [min_assistant_tokens] is [Some m] and the sample has fewer than
    [m] assistant tokens, the body ends in [continue], leaves both writers
    (and the JSON-lines file) as they were, and calls [skip] on the total
    and on the per-dataset statistics; when [min_assistant_tokens] is
    [None], no [skipped_samples] counter moves and the sample is appended
    to both writers, unless the tokenization check fails. *)
Theorem below_min_assistant_tokens_skips
    (encode_text : string -> list Z) (cumulative_sizes : list Z)
    (max_count min_assistant_tokens : option Z) (check_tokenization : bool)
    (i : nat) (msgs : messages) (st : loop_state)
    (turns : turns_t) (turn_roles tokens role_lables : list Z)
    (num_assistant_tokens : Z) :
  loop_inv cumulative_sizes i st ->
  format_conversation msgs = Ok (turns, turn_roles) ->
  tokenize_turns encode_text turns turn_roles
    = (tokens, role_lables, num_assistant_tokens) ->
  let out := loop_body encode_text cumulative_sizes max_count
               min_assistant_tokens check_tokenization i msgs st in
  let idx := settled_index cumulative_sizes i st in
  (forall m : Z,
      min_assistant_tokens = Some m ->
      num_assistant_tokens < m ->
      out.2 = Ok Continue /\
      token_writer out.1 = token_writer st /\
      role_writer out.1 = role_writer st /\
      jsonl_file out.1 = jsonl_file st /\
      total_stats out.1 = skip (total_stats st) tokens /\
      skipped_samples (total_stats out.1) = skipped_samples (total_stats st) + 1 /\
      exists old,
        per_dataset_stats st !! idx = Some old /\
        per_dataset_stats out.1
        = <[idx := skip old tokens]> (per_dataset_stats st)) /\
  (min_assistant_tokens = None ->
      skipped_samples (total_stats out.1) = skipped_samples (total_stats st) /\
      map skipped_samples (per_dataset_stats out.1)
      = map skipped_samples (per_dataset_stats st) /\
      if tokenization_checks encode_text check_tokenization turns tokens role_lables
      then (exists c, out.2 = Ok c) /\
           items (token_writer out.1) = items (token_writer st) ++ [tokens] /\
           items (role_writer out.1) = items (role_writer st) ++ [role_lables]
      else out.2 = Raise AssertionError).
Proof.
  intros Hinv Hfmt Htok out idx. split.
  - intros m -> Hlt.
    destruct (loop_body_below_min encode_text cumulative_sizes max_count
                check_tokenization m i msgs st _ _ _ _ _ Hinv Hfmt Htok Hlt)
      as (old & Hold & Hbody).
    subst out. rewrite Hbody. simpl. repeat split. exists old. auto.
  - intros ->.
    destruct (loop_body_not_below_min encode_text cumulative_sizes max_count
                check_tokenization None i msgs st _ _ _ _ _ Hinv Hfmt Htok eq_refl)
      as (old & Hold & Hbody).
    subst out. rewrite Hbody.
    destruct (tokenization_checks _ _ _ _ _); simpl.
    + split; [reflexivity|]. split.
      * apply skipped_samples_insert_add. exact Hold.
      * split; [eauto | split; reflexivity].
    + repeat split.
Qed.

(** A loop state at the first iteration over a two-element dataset. *)
Definition example_state : loop_state :=
  mkLoop (new_writer "out/oa-train" 32000 "text")
         (new_writer "out/oa-train" 16 "role")
         None (init "total" 2) [init "Subset of OasstDataset" 2] 0%nat.

Lemma below_min_assistant_tokens_skips_witness :
  let msgs := Pairs ["hi"; "yo"] in
  let out := loop_body byte_tokenizer [2] None (Some 100) true 0 msgs example_state in
  out.2 = Ok Continue /\
  token_writer out.1 = token_writer example_state /\
  role_writer out.1 = role_writer example_state /\
  skipped_samples (total_stats out.1) = 1 /\
  map skipped_samples (per_dataset_stats out.1) = [1].
Proof.
  set (fmt := format_pairs ["hi"; "yo"]).
  set (tok := tokenize_turns byte_tokenizer (TurnList fmt.1) fmt.2).
  assert (Hinv : loop_inv [2] 0 example_state).
  { repeat split; simpl; try lia. exists 2. split; [reflexivity | lia]. }
  destruct (below_min_assistant_tokens_skips byte_tokenizer [2] None (Some 100)
              true 0%nat (Pairs ["hi"; "yo"]) example_state
              (TurnList fmt.1) fmt.2 tok.1.1 tok.1.2 tok.2
              Hinv eq_refl eq_refl) as [Hskip _].
  destruct (Hskip 100 eq_refl) as (Hc & Htw & Hrw & _ & _ & Hss & old & Hold & Hper).
  { vm_compute. reflexivity. }
  split; [exact Hc|]. split; [exact Htw|]. split; [exact Hrw|].
  split; [exact Hss|].
  etransitivity; [exact (f_equal (map skipped_samples) Hper)|].
  injection Hold as <-. reflexivity.
Defined.

(** C10: on a dataset that is not a [ConcatDataset] and has at least one
    element, [tokenize_dataset] raises [IndexError] at the first element:
    [cumulative_sizes] is empty when [cumulative_sizes[subset_index]] is
    read.  Nothing has been written or counted by then, and the writers are
    finalized on the way out. *)
Theorem plain_dataset_raises_IndexError
    (encode_text : string -> list Z) (vocab_size : Z) (full_prefix : string)
    (samples : list messages) (max_count min_assistant_tokens : option Z)
    (check_tokenization write_json : bool) :
  samples <> [] ->
  let out := tokenize_dataset encode_text vocab_size full_prefix
               (PlainDataset samples) max_count min_assistant_tokens
               check_tokenization write_json in
  out.2 = Raise IndexError /\
  final_token_writer out.1
    = Some (finalize (new_writer full_prefix vocab_size "text")) /\
  final_role_writer out.1
    = Some (finalize (new_writer full_prefix 16 "role")) /\
  processed_samples (final_total_stats out.1) = 0.
Proof.
  intros Hne. destruct samples as [|msgs samples]; [contradiction|].
  unfold tokenize_dataset. simpl. repeat split.
Qed.

Lemma plain_dataset_raises_IndexError_witness :
  (tokenize_dataset byte_tokenizer 256 "out/oa-val"
     (PlainDataset [Pairs ["hi"; "yo"]]) None None true false).2
  = Raise IndexError.
Proof.
  apply (plain_dataset_raises_IndexError byte_tokenizer 256 "out/oa-val"
           [Pairs ["hi"; "yo"]] None None true false).
  discriminate.
Defined.

(** An empty dataset of any kind is processed without error when the
    set-up loop over its members succeeds. *)
Lemma plain_dataset_empty_ok
    (encode_text : string -> list Z) (vocab_size : Z) (full_prefix : string)
    (max_count min_assistant_tokens : option Z)
    (check_tokenization write_json : bool) :
  (tokenize_dataset encode_text vocab_size full_prefix (PlainDataset [])
     max_count min_assistant_tokens check_tokenization write_json).2 = Ok tt.
Proof. reflexivity. Qed.

(** For a [DatasetEntryLm] the turns are the bare string [messages.text],
    so [zip(turns, [3])] pairs the role 3 with the first character only:
    whatever the tokenizer, the tokens of the sample are the tokens of that
    one character. *)
Lemma lm_entry_tokens_of_first_character
    (encode_text : string -> list Z) (c : ascii) (rest : string) :
  format_conversation (Lm (mkLm (String c rest)))
  = Ok (TurnStr (String c rest), [3]) /\
  tokenize_turns encode_text (TurnStr (String c rest)) [3]
  = (encode_text (String c EmptyString),
     replicate (length (encode_text (String c EmptyString))) 3,
     0).
Proof.
  split; [reflexivity|].
  unfold tokenize_turns. simpl. destruct (chars rest); reflexivity.
Qed.

(** A [ConcatDataset] of one plain-text dataset with the one entry ["ab"]. *)
Definition lm_dataset : Dataset :=
  ConcatDataset [mkSub false None "TextDataset" [Lm (mkLm "ab")]].

(** C3 fails on the code: on the plain-text entry ["ab"], with a byte-level
    tokenizer, [tokenize_dataset] with [check_tokenization] (the default)
    raises the [AssertionError] of its own check and writes nothing, and
    without it writes the token of ["a"] alone, not the tokens of the text. *)
Lemma lm_entry_loses_text :
  let checked := tokenize_dataset byte_tokenizer 256 "out/lm-train" lm_dataset
                   None None true false in
  let unchecked := tokenize_dataset byte_tokenizer 256 "out/lm-train" lm_dataset
                     None None false false in
  byte_tokenizer "ab" = [97; 98] /\
  checked.2 = Raise AssertionError /\
  items <$> final_token_writer checked.1 = Some [] /\
  items <$> final_role_writer checked.1 = Some [] /\
  unchecked.2 = Ok tt /\
  items <$> final_token_writer unchecked.1 = Some [[97]] /\
  items <$> final_role_writer unchecked.1 = Some [[3]].
Proof. vm_compute. repeat split. Qed.

(** *** The invariant along a run over a [ConcatDataset] *)

(** The set-up loop appends one statistics object and one cumulative size
    per member; the last cumulative size is the number of elements. *)
Lemma concat_setup_shape (datasets : list SubDataset) :
  forall (name0 : option string) (s : Z) (stats : list TokenStats)
         (cum : list Z) (stats' : list TokenStats) (cum' : list Z),
    concat_setup datasets name0 s stats cum = Ok (stats', cum') ->
    length stats = length cum ->
    length stats' = length cum' /\
    (datasets <> [] ->
     last cum' = Some (s + len (concat (map elements datasets)))).
Proof.
  induction datasets as [|d ds IH]; intros name0 s stats cum stats' cum' H Hlen.
  - injection H as <- <-. split; [exact Hlen | congruence].
  - simpl in H. apply bind_Ok in H as (name' & _ & H).
    pose proof H as H'.
    apply IH in H as [Hlen' Hlast]; [|rewrite !length_app; simpl; lia].
    split; [exact Hlen'|]. intros _.
    destruct ds as [|d' ds].
    + injection H' as _ <-. rewrite last_snoc. simpl. rewrite app_nil_r.
      reflexivity.
    + rewrite Hlast by discriminate.
      f_equal. change (concat (map elements (d :: d' :: ds)))
        with (elements d ++ concat (map elements (d' :: ds))).
      rewrite len_app. lia.
Qed.

Lemma concat_setup_Raise (datasets : list SubDataset) :
  forall (name0 : option string) (s : Z) (stats : list TokenStats)
         (cum : list Z) (e : exn),
    concat_setup datasets name0 s stats cum = Raise e -> e = UnboundLocalError.
Proof.
  induction datasets as [|d ds IH]; intros name0 s stats cum e; simpl.
  - discriminate.
  - destruct (is_Subset d), (name_attr d), name0; simpl;
      solve [apply IH | congruence].
Qed.

Lemma print_stats_Raise (stats : list TokenStats) (e : exn) :
  print_stats stats = Raise e -> e = ZeroDivisionError.
Proof.
  induction stats as [|x l IH]; simpl; [discriminate|].
  unfold truediv_check.
  destruct (processed_samples x =? 0); simpl; [congruence|].
  destruct (accepted_samples x =? 0); simpl; [congruence | exact IH].
Qed.

Lemma format_conversation_Raise (msgs : messages) (e : exn) :
  format_conversation msgs = Raise e -> e = AssertionError.
Proof.
  destruct msgs as [entry|entry|pairs|]; unfold format_conversation.
  - destruct (format_sft_entry entry). discriminate.
  - discriminate.
  - destruct (format_pairs pairs). discriminate.
  - congruence.
Qed.

Section RunProperties.

Variable encode_text : string -> list Z.
Variable cumulative_sizes : list Z.
Variable max_count min_assistant_tokens : option Z.
Variable check_tokenization : bool.

Lemma loop_body_format_error (i : nat) (msgs : messages) (st : loop_state) (e : exn) :
  loop_inv cumulative_sizes i st ->
  format_conversation msgs = Raise e ->
  (loop_body encode_text cumulative_sizes max_count min_assistant_tokens
     check_tokenization i msgs st).2 = Raise e.
Proof.
  intros Hinv Hfmt.
  pose proof (progress_check_ok _ _ _ Hinv) as Hprog.
  destruct (loop_inv_index _ _ _ Hinv) as (size & Hsize & _).
  unfold loop_body. run_M. unfold list_getitem. rewrite Hsize. simpl.
  destruct (Z.of_nat i >=? size); simpl; rewrite Hprog; simpl; rewrite Hfmt;
    reflexivity.
Qed.

Lemma for_loop_cons (i : nat) (msgs : messages) (samples : list messages)
    (st : loop_state) :
  for_loop encode_text cumulative_sizes max_count min_assistant_tokens
    check_tokenization i (msgs :: samples) st
  = match loop_body encode_text cumulative_sizes max_count min_assistant_tokens
            check_tokenization i msgs st with
    | (st', Ok Continue) =>
        for_loop encode_text cumulative_sizes max_count min_assistant_tokens
          check_tokenization (S i) samples st'
    | (st', Ok Break) => (st', Ok tt)
    | (st', Raise e) => (st', Raise e)
    end.
Proof.
  simpl. unfold mbind at 1, M_bind at 1.
  destruct (loop_body _ _ _ _ _ i msgs st) as [st' [[]|e]]; reflexivity.
Qed.

(** From an iteration that satisfies the invariant, the loop ends normally
    or with the [AssertionError] of [format_pairs] or of the tokenization
    check: no index is out of range and no progress line divides by zero. *)
Lemma for_loop_outcome (total : Z) (samples : list messages) :
  forall (i : nat) (st : loop_state),
    last cumulative_sizes = Some total ->
    Z.of_nat i + len samples <= total ->
    length (per_dataset_stats st) = length cumulative_sizes ->
    (subset_index st < length cumulative_sizes)%nat ->
    processed_samples (total_stats st) = Z.of_nat i ->
    let out := for_loop encode_text cumulative_sizes max_count
                 min_assistant_tokens check_tokenization i samples st in
    out.2 = Ok tt \/ out.2 = Raise AssertionError.
Proof.
  induction samples as [|msgs samples IH]; intros i st Hlast Hle Hlen Hidx Hproc.
  - left. reflexivity.
  - assert (Hinv : loop_inv cumulative_sizes i st).
    { repeat split; try assumption. exists total. split; [exact Hlast|].
      unfold len in Hle. simpl in Hle. lia. }
    pose proof (settled_index_in_range _ _ _ Hinv) as Hrange.
    assert (Hle' : Z.of_nat (S i) + len samples <= total)
      by (unfold len in *; simpl in Hle; lia).
    cbv zeta. rewrite for_loop_cons.
    destruct (format_conversation msgs) as [[turns roles]|e] eqn:Hfmt.
    2:{ pose proof (loop_body_format_error i msgs st e Hinv Hfmt) as Hr.
        destruct (loop_body _ _ _ _ _ i msgs st) as [st' r]. simpl in Hr.
        subst r. right. rewrite (format_conversation_Raise _ _ Hfmt).
        reflexivity. }
    destruct (tokenize_turns encode_text turns roles)
      as [[tokens labels] num] eqn:Htok.
    destruct (below_min min_assistant_tokens num) eqn:Hbelow.
    + destruct min_assistant_tokens as [m|]; [|discriminate Hbelow].
      simpl in Hbelow. apply Z.ltb_lt in Hbelow.
      destruct (loop_body_below_min encode_text cumulative_sizes max_count
                  check_tokenization m i msgs st _ _ _ _ _ Hinv Hfmt Htok Hbelow)
        as (old & Hold & ->).
      apply IH; try assumption; unfold skipped_state; simpl.
      * rewrite length_insert. exact Hlen.
      * rewrite <- Hlen. exact Hrange.
      * unfold processed_samples in *. simpl. lia.
    + destruct (loop_body_not_below_min encode_text cumulative_sizes max_count
                  check_tokenization min_assistant_tokens i msgs st
                  _ _ _ _ _ Hinv Hfmt Htok Hbelow)
        as (old & Hold & ->).
      destruct (tokenization_checks _ _ _ _ _); [|right; reflexivity].
      destruct (reached_max_count _ _); [left; reflexivity|].
      apply IH; try assumption; unfold accepted_state; simpl.
      * rewrite length_insert. exact Hlen.
      * rewrite <- Hlen. exact Hrange.
      * unfold processed_samples in *. simpl. lia.
Qed.

End RunProperties.

(** The counterpart of the failure on plain datasets: on a
    [ConcatDataset] the function never raises [IndexError]. *)
Lemma concat_dataset_no_IndexError
    (encode_text : string -> list Z) (vocab_size : Z) (full_prefix : string)
    (datasets : list SubDataset) (max_count min_assistant_tokens : option Z)
    (check_tokenization write_json : bool) :
  (tokenize_dataset encode_text vocab_size full_prefix (ConcatDataset datasets)
     max_count min_assistant_tokens check_tokenization write_json).2
  <> Raise IndexError.
Proof.
  unfold tokenize_dataset.
  destruct (concat_setup datasets None 0 [] []) as [[stats cum]|e] eqn:Hsetup.
  2:{ simpl. rewrite (concat_setup_Raise _ _ _ _ _ _ Hsetup). discriminate. }
  destruct (for_loop encode_text cum max_count min_assistant_tokens
              check_tokenization 0 (iterate (ConcatDataset datasets)) _)
    as [st r] eqn:Hloop.
  assert (Hr : r = Ok tt \/ r = Raise AssertionError).
  { destruct datasets as [|d ds].
    - simpl in Hloop. injection Hloop as _ <-. left. reflexivity.
    - apply concat_setup_shape in Hsetup as [Hlen Hlast]; [|reflexivity].
      specialize (Hlast ltac:(discriminate)).
      match type of Hloop with
      | for_loop _ _ _ _ _ _ ?samples ?st0 = _ =>
          pose proof (for_loop_outcome encode_text cum max_count
                        min_assistant_tokens check_tokenization _ samples
                        0%nat st0 Hlast) as Hout
      end.
      rewrite Hloop in Hout. apply Hout.
      + simpl. lia.
      + exact Hlen.
      + destruct cum; [discriminate Hlast | simpl; lia].
      + reflexivity. }
  simpl. destruct Hr as [-> | ->]; simpl; [|discriminate].
  intros H. apply print_stats_Raise in H. discriminate H.
Qed.

(** *** Shapes of what the formatting functions return *)

Lemma format_sft_loop_shape (conv : list Utterance) :
  forall (turns : list string) (roles : list Z),
    length turns = length roles ->
    Forall (fun r => 0 <= r <= 2) roles ->
    let out := format_sft_loop conv turns roles in
    length out.1 = length out.2 /\
    length out.1 = (length turns + length conv)%nat /\
    Forall (fun r => 0 <= r <= 2) out.2.
Proof.
  induction conv as [|m conv IH]; intros turns roles Hlen Hroles; simpl.
  - repeat split; [exact Hlen | lia | exact Hroles].
  - destruct (role m).
    + destruct (IH (turns ++ [im_turn "user" (text m)])
                  (roles ++ [IntRole_value Prompter])) as (H1 & H2 & H3).
      * rewrite !length_app. simpl. lia.
      * apply Forall_app. split; [exact Hroles|].
        constructor; [simpl; lia | constructor].
      * rewrite length_app in H2. simpl in H2.
        repeat split; [exact H1 | lia | exact H3].
    + destruct (IH (turns ++ [im_turn "assistant" (text m)])
                  (roles ++ [IntRole_value Assistant])) as (H1 & H2 & H3).
      * rewrite !length_app. simpl. lia.
      * apply Forall_app. split; [exact Hroles|].
        constructor; [simpl; lia | constructor].
      * rewrite length_app in H2. simpl in H2.
        repeat split; [exact H1 | lia | exact H3].
Qed.

Lemma format_conversation_roles (msgs : messages) (turns : turns_t)
    (turn_roles : list Z) :
  format_conversation msgs = Ok (turns, turn_roles) ->
  match msgs with
  | Sft entry =>
      length (iter_turns turns) = length turn_roles /\
      Forall (fun r => 0 <= r <= 2) turn_roles /\
      length turn_roles
      = ((match system_message entry with
          | Some sm => if String.eqb sm "" then 0 else 1
          | None => 0
          end) + length (conversation entry))%nat
  | Lm entry =>
      turn_roles = [3] /\
      length (iter_turns turns) = String.length (lm_text entry)
  | Pairs pairs =>
      length (iter_turns turns) = length pairs /\
      length turn_roles = length pairs /\
      forall i, (i < length pairs)%nat ->
                turn_roles !! i = Some (if Nat.even i then 1 else 2)
  | OtherObject => False
  end.
Proof.
  destruct msgs as [entry|entry|pairs|]; unfold format_conversation.
  - destruct (format_sft_entry entry) as [ts rs] eqn:E. intros [= <- <-].
    unfold format_sft_entry in E.
    destruct (system_message entry) as [[|c sm]|].
    + simpl in E.
      pose proof (format_sft_loop_shape (conversation entry) [] []
                    eq_refl (List.Forall_nil _)) as (H1 & H2 & H3).
      rewrite E in *. simpl in *. repeat split; try assumption; lia.
    + change (format_sft_loop (conversation entry)
                [im_turn "system" (String c sm)] [IntRole_value System]
              = (ts, rs)) in E.
      pose proof (format_sft_loop_shape (conversation entry)
                    [im_turn "system" (String c sm)] [IntRole_value System]
                    eq_refl) as Hs.
      destruct Hs as (H1 & H2 & H3).
      { constructor; [simpl; lia | constructor]. }
      rewrite E in *. simpl in *. repeat split; try assumption; lia.
    + pose proof (format_sft_loop_shape (conversation entry) [] []
                    eq_refl (List.Forall_nil _)) as (H1 & H2 & H3).
      rewrite E in *. simpl in *. repeat split; try assumption; lia.
  - intros [= <- <-]. split; [reflexivity|]. simpl.
    induction (lm_text entry) as [|c s IH]; simpl; [reflexivity | rewrite IH].
    reflexivity.
  - unfold format_pairs. intros [= <- <-]. simpl.
    rewrite !length_imap. repeat split.
    intros i Hi. rewrite list_lookup_imap.
    destruct (lookup_lt_is_Some_2 pairs i Hi) as [p ->]. reflexivity.
  - discriminate.
Qed.

(** [format_sft_entry] and [format_pairs] return one role per turn, each
    role 0, 1 or 2: every message of the conversation and every element of
    the pairs gives one turn, plus one for a non-empty system message.
    [format_conversation] on a [DatasetEntryLm] returns the one role 3,
    whatever the length of the text. *)
Theorem format_conversation_shape (msgs : messages) (turns : turns_t)
    (turn_roles : list Z) :
  format_conversation msgs = Ok (turns, turn_roles) ->
  match msgs with
  | Sft entry =>
      length (iter_turns turns) = length turn_roles /\
      Forall (fun r => 0 <= r <= 2) turn_roles /\
      length turn_roles
      = ((match system_message entry with
          | Some sm => if String.eqb sm "" then 0 else 1
          | None => 0
          end) + length (conversation entry))%nat
  | Lm entry =>
      turn_roles = [3] /\
      length (iter_turns turns) = String.length (lm_text entry)
  | Pairs pairs =>
      length (iter_turns turns) = length pairs /\
      length turn_roles = length pairs /\
      forall i, (i < length pairs)%nat ->
                turn_roles !! i = Some (if Nat.even i then 1 else 2)
  | OtherObject => False
  end.
Proof. apply format_conversation_roles. Qed.

Lemma format_conversation_shape_witness :
  length (iter_turns (TurnList (format_pairs ["hi"; "yo"; "ok"]).1)) = 3%nat /\
  length (format_pairs ["hi"; "yo"; "ok"]).2 = 3%nat /\
  forall i, (i < 3)%nat ->
            (format_pairs ["hi"; "yo"; "ok"]).2 !! i
            = Some (if Nat.even i then 1 else 2).
Proof.
  exact (format_conversation_shape (Pairs ["hi"; "yo"; "ok"])
           (TurnList (format_pairs ["hi"; "yo"; "ok"]).1)
           (format_pairs ["hi"; "yo"; "ok"]).2 eq_refl).
Defined.

(** *** The inner loop over the turns *)

Section TurnProperties.

Variable encode_text : string -> list Z.

Definition turn_step (acc : list Z * list Z * Z) (tr : string * Z)
    : list Z * list Z * Z :=
  let '(tokens, role_lables, num_assistant_tokens) := acc in
  let '(t, r) := tr in
  let turn_tokens := encode_text t in
  let turn_role := replicate (length turn_tokens) r in
  (tokens ++ turn_tokens,
   role_lables ++ turn_role,
   if r =? IntRole_value Assistant
   then num_assistant_tokens + len turn_tokens
   else num_assistant_tokens).

Lemma tokenize_turns_fold (turns : turns_t) (turn_roles : list Z) :
  tokenize_turns encode_text turns turn_roles
  = fold_left turn_step (zip (iter_turns turns) turn_roles) ([], [], 0).
Proof. reflexivity. Qed.

(** The number of labels equal to [IntRole.Assistant]. *)
Definition count_assistant (role_lables : list Z) : Z :=
  len (List.filter (fun r => r =? IntRole_value Assistant) role_lables).

Lemma count_assistant_app (l1 l2 : list Z) :
  count_assistant (l1 ++ l2) = count_assistant l1 + count_assistant l2.
Proof. unfold count_assistant. rewrite List.filter_app, len_app. reflexivity. Qed.

Lemma filter_replicate {A : Type} (f : A -> bool) (n : nat) (x : A) :
  List.filter f (replicate n x) = if f x then replicate n x else [].
Proof.
  induction n as [|n IH]; simpl; [destruct (f x); reflexivity|].
  rewrite IH. destruct (f x); reflexivity.
Qed.

Lemma count_assistant_replicate (n : nat) (r : Z) :
  count_assistant (replicate n r)
  = if r =? IntRole_value Assistant then Z.of_nat n else 0.
Proof.
  unfold count_assistant, len. rewrite filter_replicate.
  destruct (r =? IntRole_value Assistant); [rewrite length_replicate|];
    reflexivity.
Qed.

Lemma turn_fold_invariant (trs : list (string * Z)) :
  forall (tokens role_lables : list Z) (num : Z),
    length tokens = length role_lables ->
    num = count_assistant role_lables ->
    let '(tokens', role_lables', num') :=
      fold_left turn_step trs (tokens, role_lables, num) in
    length tokens' = length role_lables' /\
    num' = count_assistant role_lables' /\
    tokens' = tokens ++ concat (map (fun tr => encode_text tr.1) trs).
Proof.
  induction trs as [|[t r] trs IH]; intros tokens role_lables num Hlen Hnum.
  - simpl. rewrite app_nil_r. auto.
  - simpl fold_left.
    specialize (IH (tokens ++ encode_text t)
                   (role_lables ++ replicate (length (encode_text t)) r)
                   (if r =? IntRole_value Assistant
                    then num + len (encode_text t) else num)).
    destruct (fold_left turn_step trs _) as [[tokens' labels'] num'].
    destruct IH as (H1 & H2 & H3).
    + rewrite !length_app, length_replicate. lia.
    + rewrite count_assistant_app, count_assistant_replicate.
      unfold len. destruct (r =? IntRole_value Assistant); lia.
    + repeat split; [exact H1 | exact H2|].
      rewrite H3. simpl. rewrite <- app_assoc. reflexivity.
Qed.

Lemma tokenize_turns_lengths (turns : turns_t) (turn_roles : list Z) :
  let '(tokens, role_lables, num_assistant_tokens) :=
    tokenize_turns encode_text turns turn_roles in
  length tokens = length role_lables /\
  num_assistant_tokens = count_assistant role_lables /\
  0 <= num_assistant_tokens <= len tokens.
Proof.
  rewrite tokenize_turns_fold.
  pose proof (turn_fold_invariant (zip (iter_turns turns) turn_roles)
                [] [] 0 eq_refl eq_refl) as H.
  destruct (fold_left turn_step _ _) as [[tokens labels] num].
  destruct H as (H1 & H2 & _). repeat split; try assumption.
  - rewrite H2. apply len_nonneg.
  - rewrite H2. unfold count_assistant, len. rewrite H1.
    pose proof (List.filter_length_le
                  (fun r => r =? IntRole_value Assistant) labels). lia.
Qed.

(** Whatever the tokenizer and the turns, the tokens and the role labels
    of a sample have the same length (the length half of the tokenization
    check cannot fail), and [num_assistant_tokens] is the number of labels
    equal to 2, so it lies between 0 and the number of tokens. *)
Theorem tokenize_turns_labels (turns : turns_t) (turn_roles : list Z) :
  let '(tokens, role_lables, num_assistant_tokens) :=
    tokenize_turns encode_text turns turn_roles in
  length tokens = length role_lables /\
  num_assistant_tokens = count_assistant role_lables /\
  0 <= num_assistant_tokens <= len tokens.
Proof. apply tokenize_turns_lengths. Qed.

End TurnProperties.

Lemma encode_join (encode_text : string -> list Z) (turns : list string) :
  (forall a b, encode_text (a +:+ b) = encode_text a ++ encode_text b) ->
  encode_text "" = [] ->
  encode_text (join turns) = concat (map encode_text turns).
Proof.
  intros Happ Hnil. induction turns as [|t turns IH]; simpl; [exact Hnil|].
  rewrite Happ, IH. reflexivity.
Qed.

(** With a tokenizer that encodes a concatenation as the concatenation of
    the encodings, the check of [check_tokenization] passes on every
    conversation entry and every list of pairs: encoding turn by turn gives
    the tokens of the joined text. *)
Theorem tokenization_check_passes (encode_text : string -> list Z)
    (msgs : messages) (turns : list string) (turn_roles : list Z) :
  (forall a b, encode_text (a +:+ b) = encode_text a ++ encode_text b) ->
  encode_text "" = [] ->
  format_conversation msgs = Ok (TurnList turns, turn_roles) ->
  let '(tokens, role_lables, _) :=
    tokenize_turns encode_text (TurnList turns) turn_roles in
  tokens = encode_text (join turns) /\
  tokenization_checks encode_text true (TurnList turns) tokens role_lables = true.
Proof.
  intros Happ Hnil Hfmt.
  assert (Hlen : length turns = length turn_roles).
  { pose proof (format_conversation_roles _ _ _ Hfmt) as Hs.
    destruct msgs as [entry|entry|pairs|]; simpl in Hs.
    - tauto.
    - unfold format_conversation in Hfmt. discriminate Hfmt.
    - destruct Hs as (-> & -> & _). reflexivity.
    - contradiction. }
  pose proof (tokenize_turns_lengths encode_text (TurnList turns) turn_roles) as Hl.
  rewrite tokenize_turns_fold in *.
  pose proof (turn_fold_invariant encode_text
                (zip (iter_turns (TurnList turns)) turn_roles)
                [] [] 0 eq_refl eq_refl) as Hf.
  destruct (fold_left _ _ _) as [[tokens labels] num].
  destruct Hl as (Hl & _). destruct Hf as (_ & _ & Htok).
  assert (Hjoin : tokens = encode_text (join turns)).
  { rewrite Htok, encode_join by assumption. simpl.
    rewrite <- (fst_zip turns turn_roles) at 2 by lia.
    change (@map (string * Z)) with (@fmap list _ (string * Z)).
    rewrite <- list_fmap_compose. reflexivity. }
  split; [exact Hjoin|].
  unfold tokenization_checks, join_turns, list_Z_eqb. simpl.
  rewrite <- Hjoin. rewrite bool_decide_eq_true_2 by reflexivity.
  unfold len. rewrite Hl. apply Z.eqb_refl.
Qed.

Lemma byte_tokenizer_app (a b : string) :
  byte_tokenizer (a +:+ b) = byte_tokenizer a ++ byte_tokenizer b.
Proof.
  unfold byte_tokenizer. induction a as [|c a IH]; simpl; [reflexivity|].
  rewrite IH. reflexivity.
Qed.

Lemma tokenization_check_passes_witness :
  let '(tokens, role_lables, _) :=
    tokenize_turns byte_tokenizer
      (TurnList (format_pairs ["hi"; "yo"]).1) (format_pairs ["hi"; "yo"]).2 in
  tokens = byte_tokenizer (join (format_pairs ["hi"; "yo"]).1) /\
  tokenization_checks byte_tokenizer true
    (TurnList (format_pairs ["hi"; "yo"]).1) tokens role_lables = true.
Proof.
  exact (tokenization_check_passes byte_tokenizer (Pairs ["hi"; "yo"])
           (format_pairs ["hi"; "yo"]).1 (format_pairs ["hi"; "yo"]).2
           byte_tokenizer_app eq_refl eq_refl).
Defined.

(** *** A proof rule for the main loop *)

Section LoopRule.

Variable encode_text : string -> list Z.
Variable cumulative_sizes : list Z.
Variable max_count min_assistant_tokens : option Z.
Variable check_tokenization : bool.

Lemma loop_body_format_error_state (i : nat) (msgs : messages) (st : loop_state)
    (e : exn) :
  loop_inv cumulative_sizes i st ->
  format_conversation msgs = Raise e ->
  loop_body encode_text cumulative_sizes max_count min_assistant_tokens
    check_tokenization i msgs st
  = (set_subset_index (settled_index cumulative_sizes i st) st, Raise e).
Proof.
  intros Hinv Hfmt.
  pose proof (progress_check_ok _ _ _ Hinv) as Hprog.
  destruct (loop_inv_index _ _ _ Hinv) as (size & Hsize & _).
  unfold loop_body, settled_index. run_M. unfold list_getitem.
  rewrite Hsize. simpl.
  destruct (Z.of_nat i >=? size); simpl; rewrite Hprog; simpl; rewrite Hfmt;
    [reflexivity | destruct st; reflexivity].
Qed.

(** [P i] holds of the state at the start of iteration [i]; [Q] holds of
    the state in which the loop is left, by exhaustion, [break] or an
    exception. *)
Variable P : nat -> loop_state -> Prop.
Variable Q : loop_state -> Prop.

Hypothesis P_end : forall i st, P i st -> Q st.
Hypothesis P_raise : forall i st n, P i st -> Q (set_subset_index n st).
Hypothesis P_skip :
  forall i st tokens old,
    loop_inv cumulative_sizes i st -> P i st ->
    per_dataset_stats st !! settled_index cumulative_sizes i st = Some old ->
    P (S i) (skipped_state cumulative_sizes i tokens old st).
Hypothesis P_accept :
  forall i st msgs turns turn_roles tokens role_lables num old,
    loop_inv cumulative_sizes i st -> P i st ->
    format_conversation msgs = Ok (turns, turn_roles) ->
    tokenize_turns encode_text turns turn_roles = (tokens, role_lables, num) ->
    per_dataset_stats st !! settled_index cumulative_sizes i st = Some old ->
    let st' := accepted_state cumulative_sizes i turns tokens role_lables old st in
    if reached_max_count max_count (accepted_samples (total_stats st) + 1)
    then Q st' else P (S i) st'.

Lemma for_loop_rule (total : Z) (samples : list messages) :
  forall (i : nat) (st : loop_state),
    last cumulative_sizes = Some total ->
    Z.of_nat i + len samples <= total ->
    length (per_dataset_stats st) = length cumulative_sizes ->
    (subset_index st < length cumulative_sizes)%nat ->
    processed_samples (total_stats st) = Z.of_nat i ->
    P i st ->
    Q (for_loop encode_text cumulative_sizes max_count min_assistant_tokens
         check_tokenization i samples st).1.
Proof.
  induction samples as [|msgs samples IH];
    intros i st Hlast Hle Hlen Hidx Hproc HP.
  - simpl. eapply P_end. exact HP.
  - assert (Hinv : loop_inv cumulative_sizes i st).
    { repeat split; try assumption. exists total. split; [exact Hlast|].
      unfold len in Hle. simpl in Hle. lia. }
    pose proof (settled_index_in_range _ _ _ Hinv) as Hrange.
    assert (Hle' : Z.of_nat (S i) + len samples <= total)
      by (unfold len in *; simpl in Hle; lia).
    rewrite for_loop_cons.
    destruct (format_conversation msgs) as [[turns roles]|e] eqn:Hfmt.
    2:{ rewrite (loop_body_format_error_state i msgs st e Hinv Hfmt).
        simpl. eapply P_raise. exact HP. }
    destruct (tokenize_turns encode_text turns roles)
      as [[tokens labels] num] eqn:Htok.
    destruct (below_min min_assistant_tokens num) eqn:Hbelow.
    + destruct min_assistant_tokens as [m|]; [|discriminate Hbelow].
      simpl in Hbelow. apply Z.ltb_lt in Hbelow.
      destruct (loop_body_below_min encode_text cumulative_sizes max_count
                  check_tokenization m i msgs st _ _ _ _ _ Hinv Hfmt Htok Hbelow)
        as (old & Hold & ->).
      apply IH; try assumption.
      * unfold skipped_state. simpl. rewrite length_insert. exact Hlen.
      * unfold skipped_state. simpl. rewrite <- Hlen. exact Hrange.
      * unfold skipped_state, processed_samples in *. simpl. lia.
      * apply P_skip; assumption.
    + destruct (loop_body_not_below_min encode_text cumulative_sizes max_count
                  check_tokenization min_assistant_tokens i msgs st
                  _ _ _ _ _ Hinv Hfmt Htok Hbelow)
        as (old & Hold & ->).
      destruct (tokenization_checks _ _ _ _ _);
        [|simpl; eapply P_raise; exact HP].
      pose proof (P_accept i st msgs turns roles tokens labels num old
                    Hinv HP Hfmt Htok Hold) as Hacc.
      simpl in Hacc.
      destruct (reached_max_count _ _); [exact Hacc|].
      apply IH; try assumption.
      * unfold accepted_state. simpl. rewrite length_insert. exact Hlen.
      * unfold accepted_state. simpl. rewrite <- Hlen. exact Hrange.
      * unfold accepted_state, processed_samples in *. simpl. lia.
Qed.

End LoopRule.

(** The state in which the main loop of [tokenize_dataset] is left, for
    any dataset on which the set-up succeeds. *)
Definition final_loop_state (encode_text : string -> list Z) (vocab_size : Z)
    (full_prefix : string) (dataset : Dataset)
    (max_count min_assistant_tokens : option Z)
    (check_tokenization write_json : bool)
    (stats : list TokenStats) (cumulative_sizes : list Z) : loop_state :=
  (for_loop encode_text cumulative_sizes max_count min_assistant_tokens
     check_tokenization 0 (iterate dataset)
     (mkLoop (new_writer full_prefix vocab_size "text")
             (new_writer full_prefix 16 "role")
             (if write_json then Some [] else None)
             (init "total" (len (iterate dataset))) stats 0%nat)).1.

(** A property kept by every step of the loop holds of the state in which
    [tokenize_dataset] leaves it, for a [ConcatDataset] as for any other
    dataset. *)
Lemma tokenize_dataset_rule
    (encode_text : string -> list Z) (vocab_size : Z) (full_prefix : string)
    (dataset : Dataset) (max_count min_assistant_tokens : option Z)
    (check_tokenization write_json : bool)
    (P : nat -> loop_state -> Prop) (Q : loop_state -> Prop)
    (stats : list TokenStats) (cumulative_sizes : list Z) :
  (forall i st, P i st -> Q st) ->
  (forall i st n, P i st -> Q (set_subset_index n st)) ->
  (forall i st tokens old,
      loop_inv cumulative_sizes i st -> P i st ->
      per_dataset_stats st !! settled_index cumulative_sizes i st = Some old ->
      P (S i) (skipped_state cumulative_sizes i tokens old st)) ->
  (forall i st msgs turns turn_roles tokens role_lables num old,
      loop_inv cumulative_sizes i st -> P i st ->
      format_conversation msgs = Ok (turns, turn_roles) ->
      tokenize_turns encode_text turns turn_roles = (tokens, role_lables, num) ->
      per_dataset_stats st !! settled_index cumulative_sizes i st = Some old ->
      let st' := accepted_state cumulative_sizes i turns tokens role_lables old st in
      if reached_max_count max_count (accepted_samples (total_stats st) + 1)
      then Q st' else P (S i) st') ->
  match dataset with
  | ConcatDataset datasets => concat_setup datasets None 0 [] []
  | PlainDataset _ => Ok ([], [])
  end = Ok (stats, cumulative_sizes) ->
  P 0%nat (mkLoop (new_writer full_prefix vocab_size "text")
             (new_writer full_prefix 16 "role")
             (if write_json then Some [] else None)
             (init "total" (len (iterate dataset))) stats 0%nat) ->
  Q (final_loop_state encode_text vocab_size full_prefix dataset max_count
       min_assistant_tokens check_tokenization write_json stats cumulative_sizes).
Proof.
  intros Hend Hraise Hskip Haccept Hsetup. unfold final_loop_state.
  destruct (iterate dataset) as [|msgs samples] eqn:Hit; intros HP0.
  { simpl. eapply Hend. exact HP0. }
  destruct dataset as [datasets|plain].
  - apply concat_setup_shape in Hsetup as [Hlen Hlast]; [|reflexivity].
    assert (Hne : datasets <> []) by (intros ->; discriminate Hit).
    specialize (Hlast Hne). simpl in Hit. rewrite Hit in Hlast.
    apply (for_loop_rule encode_text cumulative_sizes max_count
             min_assistant_tokens check_tokenization P Q Hend Hraise Hskip
             Haccept _ (msgs :: samples) 0%nat _ Hlast); simpl;
      first [ lia | exact Hlen | exact HP0 | reflexivity
            | destruct cumulative_sizes; [discriminate Hlast | simpl; lia] ].
  - injection Hsetup as <- <-. rewrite for_loop_cons.
    unfold loop_body. run_M. eapply Hend. exact HP0.
Qed.

Lemma tokenize_dataset_final
    (encode_text : string -> list Z) (vocab_size : Z) (full_prefix : string)
    (dataset : Dataset) (max_count min_assistant_tokens : option Z)
    (check_tokenization write_json : bool)
    (stats : list TokenStats) (cumulative_sizes : list Z) :
  match dataset with
  | ConcatDataset datasets => concat_setup datasets None 0 [] []
  | PlainDataset _ => Ok ([], [])
  end = Ok (stats, cumulative_sizes) ->
  let st := final_loop_state encode_text vocab_size full_prefix dataset max_count
              min_assistant_tokens check_tokenization write_json stats
              cumulative_sizes in
  (tokenize_dataset encode_text vocab_size full_prefix dataset max_count
     min_assistant_tokens check_tokenization write_json).1
  = mkFinal (Some (finalize (token_writer st))) (Some (finalize (role_writer st)))
      (jsonl_file st) (total_stats st) (per_dataset_stats st).
Proof.
  intros Hsetup. unfold tokenize_dataset, final_loop_state. rewrite Hsetup.
  destruct (for_loop _ _ _ _ _ _ _ _) as [st r]. reflexivity.
Qed.

Lemma tokenize_dataset_setup_Raise
    (encode_text : string -> list Z) (vocab_size : Z) (full_prefix : string)
    (dataset : Dataset) (max_count min_assistant_tokens : option Z)
    (check_tokenization write_json : bool) (e : exn) :
  match dataset with
  | ConcatDataset datasets => concat_setup datasets None 0 [] []
  | PlainDataset _ => Ok ([], [])
  end = Raise e ->
  tokenize_dataset encode_text vocab_size full_prefix dataset max_count
    min_assistant_tokens check_tokenization write_json
  = (mkFinal None None None (init "total" (len (iterate dataset))) [],
     Raise UnboundLocalError).
Proof.
  intros Hsetup. unfold tokenize_dataset. rewrite Hsetup.
  destruct dataset as [datasets|plain]; [|discriminate Hsetup].
  rewrite (concat_setup_Raise _ _ _ _ _ _ Hsetup). reflexivity.
Qed.

(** The two writers hold one item per accepted sample, item [k] of the
    role stream as long as item [k] of the token stream, and the JSON-lines
    file (when there is one) one line per accepted sample. *)
Definition writers_aligned (st : loop_state) : Prop :=
  Forall2 (fun tokens role_lables => length tokens = length role_lables)
    (items (token_writer st)) (items (role_writer st)) /\
  len (items (token_writer st)) = accepted_samples (total_stats st) /\
  match jsonl_file st with
  | Some lines => len lines = accepted_samples (total_stats st)
  | None => True
  end.

Lemma writers_aligned_accept (encode_text : string -> list Z)
    (cumulative_sizes : list Z) (i : nat) (st : loop_state)
    (turns : turns_t) (turn_roles tokens role_lables : list Z) (num : Z)
    (old : TokenStats) :
  tokenize_turns encode_text turns turn_roles = (tokens, role_lables, num) ->
  writers_aligned st ->
  writers_aligned
    (accepted_state cumulative_sizes i turns tokens role_lables old st).
Proof.
  intros Htok (Hpairs & Hcount & Hjson).
  pose proof (tokenize_turns_lengths encode_text turns turn_roles) as Hl.
  rewrite Htok in Hl. destruct Hl as (Hl & _).
  unfold writers_aligned, accepted_state. simpl. repeat split.
  - apply Forall2_app; [exact Hpairs | constructor; [exact Hl | constructor]].
  - rewrite len_app, Hcount. reflexivity.
  - destruct (jsonl_file st); simpl; [|exact I].
    rewrite len_app, Hjson. reflexivity.
Qed.

(** However [tokenize_dataset] ends, what it leaves is consistent: either
    the set-up loop raised and no file was opened, or both writers are
    finalized, hold one item per accepted sample with tokens and role
    labels of equal length item by item, and the JSON-lines file exists
    exactly when [write_json] is set and has one line per accepted sample. *)
Theorem token_and_role_streams_aligned
    (encode_text : string -> list Z) (vocab_size : Z) (full_prefix : string)
    (dataset : Dataset) (max_count min_assistant_tokens : option Z)
    (check_tokenization write_json : bool) :
  let out := tokenize_dataset encode_text vocab_size full_prefix dataset
               max_count min_assistant_tokens check_tokenization write_json in
  match final_token_writer out.1, final_role_writer out.1 with
  | Some tw, Some rw =>
      finalized tw = true /\ finalized rw = true /\
      Forall2 (fun tokens role_lables => length tokens = length role_lables)
        (items tw) (items rw) /\
      len (items tw) = accepted_samples (final_total_stats out.1) /\
      match final_jsonl out.1 with
      | Some lines =>
          write_json = true /\
          len lines = accepted_samples (final_total_stats out.1)
      | None => write_json = false
      end
  | None, None => out.2 = Raise UnboundLocalError
  | _, _ => False
  end.
Proof.
  intros out. subst out.
  destruct (match dataset with
            | ConcatDataset datasets => concat_setup datasets None 0 [] []
            | PlainDataset _ => Ok ([], [])
            end) as [[stats cum]|e] eqn:Hsetup.
  2:{ rewrite (tokenize_dataset_setup_Raise _ _ _ _ _ _ _ _ _ Hsetup).
      reflexivity. }
  rewrite (tokenize_dataset_final _ _ _ _ _ _ _ _ _ _ Hsetup). simpl.
  pose proof (tokenize_dataset_rule encode_text vocab_size full_prefix dataset
                max_count min_assistant_tokens check_tokenization write_json
                (fun _ st => writers_aligned st
                             /\ (write_json = true <-> is_Some (jsonl_file st)))
                (fun st => writers_aligned st
                           /\ (write_json = true <-> is_Some (jsonl_file st)))
                stats cum) as Hrule.
  destruct Hrule as ((Hpairs & Hcount & Hjson) & Hwj); try exact Hsetup.
  - auto.
  - intros i st n H. exact H.
  - intros i st tokens old _ H _. exact H.
  - intros i st msgs turns roles tokens labels num old _ [Hal Hwj] _ Htok _.
    assert (Hnew : writers_aligned
                     (accepted_state cum i turns tokens labels old st)
                   /\ (write_json = true
                       <-> is_Some (jsonl_file
                                      (accepted_state cum i turns tokens labels
                                         old st)))).
    { split; [eapply writers_aligned_accept; eassumption|].
      unfold accepted_state. simpl. rewrite Hwj.
      destruct (jsonl_file st); simpl; split; intros [x Hx];
        try discriminate Hx; eauto. }
    simpl. destruct (reached_max_count _ _); exact Hnew.
  - split.
    + unfold writers_aligned. simpl. repeat split; [constructor|].
      destruct write_json; [reflexivity | exact I].
    + simpl. destruct write_json; split; intros H; try discriminate H; eauto.
      destruct H as [x Hx]. discriminate Hx.
  - repeat split; try assumption.
    destruct (jsonl_file _) as [lines|] eqn:Hfile.
    + split; [apply Hwj; eauto | exact Hjson].
    + destruct write_json; [|reflexivity].
      destruct (proj1 Hwj eq_refl) as [x Hx]. discriminate Hx.
Qed.

(** With [max_count] set to a positive number, at most that many samples
    are accepted and written. *)
Theorem max_count_bounds_accepted
    (encode_text : string -> list Z) (vocab_size : Z) (full_prefix : string)
    (dataset : Dataset) (c : Z) (min_assistant_tokens : option Z)
    (check_tokenization write_json : bool) :
  0 < c ->
  let out := tokenize_dataset encode_text vocab_size full_prefix dataset
               (Some c) min_assistant_tokens check_tokenization write_json in
  accepted_samples (final_total_stats out.1) <= c /\
  forall tw, final_token_writer out.1 = Some tw -> len (items tw) <= c.
Proof.
  intros Hc out. subst out.
  destruct (match dataset with
            | ConcatDataset datasets => concat_setup datasets None 0 [] []
            | PlainDataset _ => Ok ([], [])
            end) as [[stats cum]|e] eqn:Hsetup.
  2:{ rewrite (tokenize_dataset_setup_Raise _ _ _ _ _ _ _ _ _ Hsetup).
      simpl. split; [lia | discriminate]. }
  rewrite (tokenize_dataset_final _ _ _ _ _ _ _ _ _ _ Hsetup). simpl.
  pose proof (tokenize_dataset_rule encode_text vocab_size full_prefix dataset
                (Some c) min_assistant_tokens check_tokenization write_json
                (fun _ st => len (items (token_writer st))
                             = accepted_samples (total_stats st)
                             /\ accepted_samples (total_stats st) < c)
                (fun st => len (items (token_writer st))
                           = accepted_samples (total_stats st)
                           /\ accepted_samples (total_stats st) <= c)
                stats cum) as Hrule.
  destruct Hrule as (Hcount & Hle); try exact Hsetup.
  - intros i st [H1 H2]. split; [exact H1 | lia].
  - intros i st n [H1 H2]. simpl. split; [exact H1 | lia].
  - intros i st tokens old _ H _. exact H.
  - intros i st msgs turns roles tokens labels num old _ [H1 H2] _ _ _.
    simpl. destruct (Z.eqb_spec c 0) as [->|Hnz]; [lia|]. simpl.
    destruct (Z.geb_spec (accepted_samples (total_stats st) + 1) c);
      (split; [rewrite len_app, H1; reflexivity | lia]).
  - simpl. split; [reflexivity | lia].
  - split; [exact Hle|]. intros tw [= <-]. simpl. lia.
Qed.

Lemma max_count_bounds_accepted_witness :
  let out := tokenize_dataset byte_tokenizer 256 "out/oa-train"
               (ConcatDataset
                  [mkSub true None "OasstDataset"
                     [Pairs ["a"; "b"]; Pairs ["c"; "d"]; Pairs ["e"; "f"]]])
               (Some 2) None true false in
  accepted_samples (final_total_stats out.1) <= 2 /\
  forall tw, final_token_writer out.1 = Some tw -> len (items tw) <= 2.
Proof.
  apply (max_count_bounds_accepted byte_tokenizer 256 "out/oa-train"
           (ConcatDataset
              [mkSub true None "OasstDataset"
                 [Pairs ["a"; "b"]; Pairs ["c"; "d"]; Pairs ["e"; "f"]]])
           2 None true false).
  lia.
Defined.

Example max_count_stops_early :
  let out := tokenize_dataset byte_tokenizer 256 "out/oa-train"
               (ConcatDataset
                  [mkSub true None "OasstDataset"
                     [Pairs ["a"; "b"]; Pairs ["c"; "d"]; Pairs ["e"; "f"]]])
               (Some 2) None true false in
  out.2 = Ok tt /\ accepted_samples (final_total_stats out.1) = 2 /\
  processed_samples (final_total_stats out.1) = 2.
Proof. vm_compute. repeat split. Qed.

Lemma print_stats_Ok (stats : list TokenStats) :
  print_stats stats = Ok tt <->
  Forall (fun s => processed_samples s <> 0 /\ accepted_samples s <> 0) stats.
Proof.
  induction stats as [|x l IH]; simpl.
  - split; [constructor | reflexivity].
  - unfold truediv_check.
    destruct (Z.eqb_spec (processed_samples x) 0) as [Hp|Hp]; simpl.
    + split; [discriminate|]. intros H. inversion H; subst. tauto.
    + destruct (Z.eqb_spec (accepted_samples x) 0) as [Ha|Ha]; simpl.
      * split; [discriminate|]. intros H. inversion H; subst. tauto.
      * rewrite IH. split; [intros H; constructor; auto|].
        intros H. inversion H; subst. assumption.
Qed.

(** [tokenize_dataset] returns normally only when every member dataset of
    the [ConcatDataset] ends with an accepted sample counted in its
    statistics: the closing report divides by [accepted_samples], so a
    member whose samples were all skipped ends the call with
    [ZeroDivisionError], after the files were finalized. *)
Theorem returns_only_with_accepted_samples
    (encode_text : string -> list Z) (vocab_size : Z) (full_prefix : string)
    (dataset : Dataset) (max_count min_assistant_tokens : option Z)
    (check_tokenization write_json : bool) :
  let out := tokenize_dataset encode_text vocab_size full_prefix dataset
               max_count min_assistant_tokens check_tokenization write_json in
  (out.2 = Ok tt ->
   Forall (fun s => accepted_samples s <> 0) (final_per_dataset_stats out.1)) /\
  (Exists (fun s => accepted_samples s = 0) (final_per_dataset_stats out.1) ->
   out.2 = Raise ZeroDivisionError \/ out.2 = Raise AssertionError).
Proof.
  intros out. subst out. unfold tokenize_dataset.
  destruct (match dataset with
            | ConcatDataset datasets => concat_setup datasets None 0 [] []
            | PlainDataset _ => Ok ([], [])
            end) as [[stats cum]|e] eqn:Hsetup.
  2:{ simpl. split; [discriminate|]. intros H. inversion H. }
  destruct (for_loop _ _ _ _ _ _ _ _) as [st r] eqn:Hloop. simpl.
  assert (Hr : r = Ok tt \/ r = Raise AssertionError
               \/ (r = Raise IndexError /\ per_dataset_stats st = [])).
  { destruct dataset as [datasets|plain].
    - destruct datasets as [|d ds].
      + injection Hsetup as <- <-. simpl in Hloop. injection Hloop as _ <-. auto.
      + apply concat_setup_shape in Hsetup as [Hlen Hlast]; [|reflexivity].
        specialize (Hlast ltac:(discriminate)).
        match type of Hloop with
        | for_loop _ _ _ _ _ _ ?samples ?st0 = _ =>
            pose proof (for_loop_outcome encode_text cum max_count
                          min_assistant_tokens check_tokenization _ samples
                          0%nat st0 Hlast) as Hout
        end.
        rewrite Hloop in Hout. simpl in Hout.
        destruct Hout as [-> | ->]; auto.
        * lia.
        * destruct cum; [discriminate Hlast | simpl; lia].
    - injection Hsetup as <- <-. destruct plain as [|msgs samples].
      + simpl in Hloop. injection Hloop as _ <-. auto.
      + cbn [iterate] in Hloop. rewrite for_loop_cons in Hloop.
        unfold loop_body in Hloop.
        revert Hloop. run_M. intros [= <- <-]. auto. }
  split.
  - destruct Hr as [-> | [-> | [-> _]]]; simpl; try discriminate.
    intros H. apply print_stats_Ok in H.
    eapply Forall_impl; [exact H|]. simpl. tauto.
  - intros Hex. destruct Hr as [-> | [-> | [-> Hnil]]]; simpl; auto;
      [|rewrite Hnil in Hex; inversion Hex].
    left. destruct (print_stats (per_dataset_stats st)) as [[]|e] eqn:Hp.
    + apply print_stats_Ok in Hp. exfalso.
      apply Exists_exists in Hex as (s & Hs & Hz).
      rewrite Forall_forall in Hp. destruct (Hp s Hs) as [_ Hnz]. contradiction.
    + rewrite (print_stats_Raise _ _ Hp). reflexivity.
Qed.

Lemma returns_only_with_accepted_samples_witness :
  let out := tokenize_dataset byte_tokenizer 256 "out/oa-train"
               (ConcatDataset
                  [mkSub true None "OasstDataset" [Pairs ["a"; "b"]];
                   mkSub true None "LmDataset" [Lm (mkLm "x")]])
               None (Some 1) false false in
  out.2 = Raise ZeroDivisionError \/ out.2 = Raise AssertionError.
Proof.
  apply (returns_only_with_accepted_samples byte_tokenizer 256 "out/oa-train"
           (ConcatDataset
              [mkSub true None "OasstDataset" [Pairs ["a"; "b"]];
               mkSub true None "LmDataset" [Lm (mkLm "x")]])
           None (Some 1) false false).
  vm_compute. right. left. reflexivity.
Defined.

(** *** Bounds on the counters of [TokenStats] *)

Lemma sum_Z_bounds (lo hi : Z) (ls : list Z) :
  (forall l, In l ls -> lo <= l <= hi) ->
  lo * len ls <= sum_Z ls <= hi * len ls.
Proof.
  unfold len. induction ls as [|x ls IH]; intros H; simpl; [lia|].
  assert (lo <= x <= hi) by (apply H; left; reflexivity).
  assert (lo * Z.of_nat (length ls) <= sum_Z ls <= hi * Z.of_nat (length ls))
    by (apply IH; intros l Hl; apply H; right; exact Hl).
  lia.
Qed.

(** Once a sample was added, [min_tokens <= max_tokens] and the accepted
    tokens lie between [min_tokens] and [max_tokens] per accepted sample, so
    the average that the closing report prints lies between the two. *)
Theorem token_stats_min_max_bound (name0 : string) (total : Z) (cs : list call)
    (m : Z) :
  let st := run_calls (init name0 total) cs in
  min_tokens st = Some m ->
  0 < accepted_samples st /\
  0 <= m <= max_tokens st /\
  m * accepted_samples st <= accepted_tokens st
  <= max_tokens st * accepted_samples st.
Proof.
  intros st Hm.
  destruct (run_calls_counters name0 total cs)
    as (Has & Hat & Hmin & Hmax & _).
  fold st in Has, Hat, Hmin, Hmax. rewrite Hm in Hmin. simpl in Hmin.
  destruct Hmin as [Hin Hle].
  destruct Hmax as [[Hnil _]|[HinM HleM]]; [rewrite Hnil in Hin; contradiction|].
  rewrite Has, Hat.
  assert (Hpos : 0 < len (added_lengths cs)).
  { unfold len. destruct (added_lengths cs); [contradiction | simpl; lia]. }
  split; [exact Hpos|]. split.
  - split; [exact (added_lengths_nonneg cs m Hin) | exact (HleM m Hin)].
  - apply sum_Z_bounds. intros l Hl. split; [exact (Hle l Hl) | exact (HleM l Hl)].
Qed.

Lemma token_stats_min_max_bound_witness :
  let st := run_calls (init "total" 3) [Add [1; 2; 3]; Skip [4]; Add [5]] in
  0 < accepted_samples st /\
  0 <= 1 <= max_tokens st /\
  1 * accepted_samples st <= accepted_tokens st
  <= max_tokens st * accepted_samples st.
Proof.
  apply (token_stats_min_max_bound "total" 3
           [Add [1; 2; 3]; Skip [4]; Add [5]] 1).
  reflexivity.
Defined.

(** Before any [add], [min_tokens] is [None] and nothing was accepted;
    [skip] never touches the accepted counters, [min_tokens] or
    [max_tokens], and [add] never touches the skipped ones. *)
Theorem skip_and_add_are_independent (self : TokenStats) (tokens : list Z) :
  (accepted_samples (skip self tokens) = accepted_samples self /\
   accepted_tokens (skip self tokens) = accepted_tokens self /\
   min_tokens (skip self tokens) = min_tokens self /\
   max_tokens (skip self tokens) = max_tokens self) /\
  (skipped_samples (add self tokens) = skipped_samples self /\
   skipped_tokens (add self tokens) = skipped_tokens self) /\
  processed_samples (skip self tokens) = processed_samples self + 1 /\
  processed_samples (add self tokens) = processed_samples self + 1.
Proof. unfold processed_samples. simpl. repeat split; lia. Qed.

(** *** Which statistics object counts a sample *)

(** The cumulative sizes that the set-up loop computes, starting from [s]. *)
Fixpoint sums (s : Z) (datasets : list SubDataset) : list Z :=
  match datasets with
  | [] => []
  | d :: datasets' =>
      (s + len (elements d)) :: sums (s + len (elements d)) datasets'
  end.

(** The number of elements before member [j]. *)
Definition before (cum : list Z) (j : nat) : Z :=
  match j with
  | O => 0
  | S j' => default 0 (cum !! j')
  end.

(** How many of the first [n] elements have an index from [lo] up to
    [hi], [hi] excluded. *)
Definition counted (n lo hi : Z) : Z := Z.max 0 (Z.min (hi - lo) (n - lo)).

(** Every statistics object has counted the elements of its own member
    among those processed so far. *)
Definition attributed (cum : list Z) (st : loop_state) : Prop :=
  forall j hi,
    cum !! j = Some hi ->
    exists s,
      per_dataset_stats st !! j = Some s /\
      processed_samples s
      = counted (processed_samples (total_stats st)) (before cum j) hi.

Definition increasing (cum : list Z) : Prop :=
  forall j hi, cum !! j = Some hi -> before cum j < hi.

Lemma processed_samples_skip (s : TokenStats) (tokens : list Z) :
  processed_samples (skip s tokens) = processed_samples s + 1.
Proof. unfold processed_samples, skip. simpl. lia. Qed.

Lemma processed_samples_add (s : TokenStats) (tokens : list Z) :
  processed_samples (add s tokens) = processed_samples s + 1.
Proof. unfold processed_samples, add. simpl. lia. Qed.

Lemma concat_setup_sums (datasets : list SubDataset) :
  forall (name0 : option string) (s : Z) (stats : list TokenStats)
         (cum : list Z) (stats' : list TokenStats) (cum' : list Z),
    concat_setup datasets name0 s stats cum = Ok (stats', cum') ->
    cum' = cum ++ sums s datasets /\
    exists new,
      stats' = stats ++ new /\ length new = length datasets /\
      Forall (fun t => processed_samples t = 0) new.
Proof.
  induction datasets as [|d ds IH]; intros name0 s stats cum stats' cum' H.
  - injection H as <- <-. rewrite app_nil_r. split; [reflexivity|].
    exists []. rewrite app_nil_r. repeat split. constructor.
  - cbn [concat_setup] in H. apply bind_Ok in H as (name' & _ & H).
    apply IH in H as (-> & new & -> & Hlen & Hall).
    split; [rewrite <- app_assoc; reflexivity|].
    exists (init name' (len (elements d)) :: new).
    rewrite <- app_assoc. simpl. repeat split; [congruence|].
    constructor; [reflexivity | exact Hall].
Qed.

Lemma before_nonneg (cum : list Z) (j : nat) :
  increasing cum -> (j <= length cum)%nat -> 0 <= before cum j.
Proof.
  intros Hinc. induction j as [|j IH]; intros Hj; [simpl; lia|].
  destruct (lookup_lt_is_Some_2 cum j ltac:(lia)) as [c Hc].
  pose proof (Hinc j c Hc). simpl. rewrite Hc. simpl.
  specialize (IH ltac:(lia)). lia.
Qed.

(** Member [j] ends before member [k] starts, for [j < k]. *)
Lemma increasing_before (cum : list Z) (j k : nat) (hj : Z) :
  increasing cum ->
  (j < k)%nat -> (k <= length cum)%nat ->
  cum !! j = Some hj ->
  hj <= before cum k.
Proof.
  intros Hinc Hjk Hk Hj. induction k as [|k IH]; [lia|].
  destruct (lookup_lt_is_Some_2 cum k ltac:(lia)) as [c Hc].
  simpl. rewrite Hc. simpl.
  destruct (decide (j = k)) as [->|Hne]; [rewrite Hj in Hc; injection Hc; lia|].
  specialize (IH ltac:(lia) ltac:(lia)).
  pose proof (Hinc k c Hc). lia.
Qed.

(** The member that the body settles on holds the element [i]. *)
Lemma settled_member (cum : list Z) (i : nat) (st : loop_state) :
  increasing cum ->
  loop_inv cum i st ->
  (forall c, cum !! subset_index st = Some c ->
             before cum (subset_index st) <= Z.of_nat i <= c) ->
  exists c,
    cum !! settled_index cum i st = Some c /\
    before cum (settled_index cum i st) <= Z.of_nat i < c.
Proof.
  intros Hinc Hinv Hpos.
  destruct (loop_inv_index _ _ _ Hinv) as (size & Hsize & Hnext).
  specialize (Hpos size Hsize).
  unfold settled_index. rewrite Hsize.
  destruct (Z.of_nat i >=? size) eqn:Hge.
  - destruct (lookup_lt_is_Some_2 cum (S (subset_index st))
                (Hnext eq_refl)) as [c Hc].
    exists c. split; [exact Hc|].
    pose proof (Hinc _ _ Hc) as Hlt. simpl in Hlt |- *.
    rewrite Hsize in Hlt |- *. simpl in Hlt |- *. lia.
  - exists size. split; [exact Hsize | lia].
Qed.

(** One step of the loop keeps the attribution: the element [i] is counted
    by the statistics object of the member that holds it. *)
Lemma attribution_step (cum : list Z) (i : nat) (st : loop_state)
    (old new : TokenStats) (total' : TokenStats)
    (tw rw : DatasetWriter) (js : option (list string)) :
  increasing cum ->
  loop_inv cum i st ->
  attributed cum st ->
  (forall c, cum !! subset_index st = Some c ->
             before cum (subset_index st) <= Z.of_nat i <= c) ->
  per_dataset_stats st !! settled_index cum i st = Some old ->
  processed_samples new = processed_samples old + 1 ->
  processed_samples total' = processed_samples (total_stats st) + 1 ->
  let idx := settled_index cum i st in
  let st' := mkLoop tw rw js total' (<[idx := new]> (per_dataset_stats st)) idx in
  attributed cum st' /\
  (forall c, cum !! idx = Some c ->
             before cum idx <= Z.of_nat (S i) <= c).
Proof.
  intros Hinc Hinv Hattr Hpos Hold Hnew Htotal idx st'.
  destruct (loop_inv_index _ _ _ Hinv) as (size & Hsize & Hnext).
  pose proof (settled_index_in_range _ _ _ Hinv) as Hrange.
  pose proof Hinv as Hinv0.
  destruct Hinv as (Hlen & Hidx & _ & Hproc).
  fold idx in Hrange, Hold.
  pose proof (settled_member cum i st Hinc Hinv0 Hpos) as Hin. fold idx in Hin.
  destruct Hin as (c & Hc & Hlo & Hhi).
  split.
  - intros j hi Hj. simpl.
    destruct (Hattr j hi Hj) as (s & Hs & Hcount).
    rewrite Htotal, Hproc. rewrite Hproc in Hcount.
    destruct (decide (j = idx)) as [->|Hne].
    + exists new. split; [apply list_lookup_insert_eq; exact Hrange|].
      assert (s = old) by congruence. subst s.
      assert (hi = c) by congruence. subst hi.
      rewrite Hnew, Hcount. unfold counted. lia.
    + exists s. split; [rewrite list_lookup_insert_ne by congruence; exact Hs|].
      rewrite Hcount. unfold counted.
      assert (Hjlen : (j < length cum)%nat) by (eapply lookup_lt_Some; exact Hj).
      pose proof (Hinc _ _ Hj) as Hjlt.
      destruct (Nat.lt_total j idx) as [Hlt|[Heq|Hgt]]; [|contradiction|].
      * pose proof (increasing_before cum j idx hi Hinc Hlt
                      ltac:(rewrite <- Hlen; lia) Hj). lia.
      * pose proof (increasing_before cum idx j c Hinc Hgt ltac:(lia) Hc). lia.
  - intros c' Hc'. assert (c' = c) by congruence. subst c'. lia.
Qed.

Lemma sums_lookup (datasets : list SubDataset) :
  forall (s : Z) (j : nat) (d : SubDataset),
    datasets !! j = Some d ->
    sums s datasets !! j
    = Some (s + len (concat (map elements (take j datasets)))
            + len (elements d)).
Proof.
  unfold len.
  induction datasets as [|d0 ds IH]; intros s j d Hj; [discriminate|].
  destruct j as [|j]; simpl in *.
  - injection Hj as ->. apply f_equal. unfold len. lia.
  - rewrite (IH _ _ _ Hj). apply f_equal. unfold len. rewrite length_app. lia.
Qed.

Lemma sums_length (datasets : list SubDataset) (s : Z) :
  length (sums s datasets) = length datasets.
Proof.
  revert s. induction datasets as [|d ds IH]; intros s; simpl; [reflexivity|].
  rewrite IH. reflexivity.
Qed.

Lemma before_sums (datasets : list SubDataset) (j : nat) :
  (j <= length datasets)%nat ->
  before (sums 0 datasets) j = len (concat (map elements (take j datasets))).
Proof.
  destruct j as [|j]; intros Hj; [reflexivity|].
  destruct (lookup_lt_is_Some_2 datasets j ltac:(lia)) as [d Hd].
  simpl. rewrite (sums_lookup _ _ _ _ Hd). simpl.
  rewrite (take_S_r _ _ _ Hd), map_app, concat_app. simpl.
  unfold len. rewrite length_app, app_nil_r. lia.
Qed.

Lemma sums_increasing (datasets : list SubDataset) :
  Forall (fun d => elements d <> []) datasets ->
  increasing (sums 0 datasets).
Proof.
  intros Hne j hi Hj.
  assert (Hlt : (j < length datasets)%nat).
  { rewrite <- (sums_length datasets 0). eapply lookup_lt_Some. exact Hj. }
  destruct (lookup_lt_is_Some_2 datasets j Hlt) as [d Hd].
  rewrite (sums_lookup _ _ _ _ Hd) in Hj. injection Hj as <-.
  rewrite before_sums by lia.
  rewrite Forall_forall in Hne.
  pose proof (Hne d (list_elem_of_lookup_2 _ _ _ Hd)) as Hd0.
  unfold len. destruct (elements d); [contradiction|]. simpl. lia.
Qed.

(** When no member of the [ConcatDataset] is empty, every processed sample
    is counted by the statistics object of the member it comes from:
    however the call ends, after [n] processed samples the object of member
    [j] has processed those of the first [n] elements that lie in member
    [j].  (When the set-up loop raised no statistics object exists.) *)
Theorem samples_counted_in_their_dataset
    (encode_text : string -> list Z) (vocab_size : Z) (full_prefix : string)
    (datasets : list SubDataset) (max_count min_assistant_tokens : option Z)
    (check_tokenization write_json : bool) :
  Forall (fun d => elements d <> []) datasets ->
  let out := tokenize_dataset encode_text vocab_size full_prefix
               (ConcatDataset datasets) max_count min_assistant_tokens
               check_tokenization write_json in
  let n := processed_samples (final_total_stats out.1) in
  (out.2 = Raise UnboundLocalError /\ final_per_dataset_stats out.1 = []) \/
  forall j d,
    datasets !! j = Some d ->
    exists s,
      final_per_dataset_stats out.1 !! j = Some s /\
      processed_samples s
      = Z.max 0
          (Z.min (len (elements d))
             (n - len (concat (map elements (take j datasets))))).
Proof.
  intros Hne out n.
  destruct (concat_setup datasets None 0 [] []) as [[stats cum]|e] eqn:Hsetup.
  2:{ left. subst n out.
      rewrite (tokenize_dataset_setup_Raise encode_text vocab_size full_prefix
                 (ConcatDataset datasets) max_count min_assistant_tokens
                 check_tokenization write_json e Hsetup).
      split; reflexivity. }
  right.
  pose proof (concat_setup_sums _ _ _ _ _ _ _ Hsetup)
    as (Hcum & new & Hstats & Hnewlen & Hnew).
  simpl in Hcum, Hstats. subst cum stats.
  pose proof (sums_increasing datasets Hne) as Hinc.
  pose proof (tokenize_dataset_final encode_text vocab_size full_prefix
                (ConcatDataset datasets) max_count min_assistant_tokens
                check_tokenization write_json new (sums 0 datasets) Hsetup)
    as Hfinal.
  cbv zeta in Hfinal.
  assert (HQ : attributed (sums 0 datasets)
                 (final_loop_state encode_text vocab_size full_prefix
                    (ConcatDataset datasets) max_count min_assistant_tokens
                    check_tokenization write_json new (sums 0 datasets))).
  { apply (tokenize_dataset_rule encode_text vocab_size full_prefix
             (ConcatDataset datasets) max_count min_assistant_tokens
             check_tokenization write_json
             (fun i st =>
                attributed (sums 0 datasets) st /\
                forall c, sums 0 datasets !! subset_index st = Some c ->
                          before (sums 0 datasets) (subset_index st)
                          <= Z.of_nat i <= c)
             (attributed (sums 0 datasets)) new (sums 0 datasets)).
    - intros i st [H _]. exact H.
    - intros i st k [H _]. exact H.
    - intros i st tokens old Hinv [Hattr Hpos] Hold.
      apply (attribution_step _ _ _ old); try assumption.
      + apply processed_samples_skip.
      + apply processed_samples_skip.
    - intros i st msgs turns turn_roles tokens role_lables num old
             Hinv [Hattr Hpos] _ _ Hold st'.
      assert (HP : attributed (sums 0 datasets) st' /\
                   forall c, sums 0 datasets !! subset_index st' = Some c ->
                             before (sums 0 datasets) (subset_index st')
                             <= Z.of_nat (S i) <= c).
      { apply (attribution_step _ _ _ old); try assumption.
        - apply processed_samples_add.
        - apply processed_samples_add. }
      destruct (reached_max_count _ _); [apply HP | exact HP].
    - exact Hsetup.
    - split.
      + intros j hi Hj. simpl.
        assert (Hlt : (j < length new)%nat).
        { rewrite Hnewlen, <- (sums_length datasets 0).
          eapply lookup_lt_Some. exact Hj. }
        destruct (lookup_lt_is_Some_2 new j Hlt) as [s Hs].
        exists s. split; [exact Hs|].
        rewrite Forall_forall in Hnew.
        rewrite (Hnew s (list_elem_of_lookup_2 _ _ _ Hs)).
        pose proof (before_nonneg _ j Hinc
                      ltac:(rewrite sums_length; lia)) as H0.
        pose proof (Hinc _ _ Hj). unfold counted, processed_samples. simpl. lia.
      + simpl. intros c Hc. pose proof (Hinc _ _ Hc) as H. simpl in H. lia. }
  intros j d Hd. subst n out. rewrite Hfinal. simpl.
  destruct (HQ j _ (sums_lookup _ 0 _ _ Hd)) as (s & Hs & Hcount).
  exists s. split; [exact Hs|]. rewrite Hcount.
  rewrite before_sums
    by (apply Nat.lt_le_incl; eapply lookup_lt_Some; exact Hd).
  unfold counted. f_equal. f_equal. lia.
Qed.

Lemma samples_counted_in_their_dataset_witness :
  let out := tokenize_dataset byte_tokenizer 256 "out/oa-train"
               (ConcatDataset
                  [mkSub true None "OasstDataset"
                     [Pairs ["a"; "b"]; Pairs ["c"; "d"]];
                   mkSub true None "OtherDataset" [Pairs ["e"; "f"]]])
               None None true false in
  out.2 = Ok tt /\
  map processed_samples (final_per_dataset_stats out.1) = [2; 1].
Proof.
  intros out.
  destruct (samples_counted_in_their_dataset byte_tokenizer 256 "out/oa-train"
              [mkSub true None "OasstDataset"
                 [Pairs ["a"; "b"]; Pairs ["c"; "d"]];
               mkSub true None "OtherDataset" [Pairs ["e"; "f"]]]
              None None true false) as [[H _]|H].
  - repeat constructor; discriminate.
  - vm_compute in H. discriminate H.
  - split; vm_compute; reflexivity.
Defined.

(** An empty member breaks the attribution: with member sizes 1, 0 and 2
    the first element of the third member is counted by the statistics
    object of the empty second member. *)
Example empty_member_shifts_attribution :
  let out := tokenize_dataset byte_tokenizer 256 "out/oa-train"
               (ConcatDataset
                  [mkSub true None "A" [Pairs ["a"; "b"]];
                   mkSub true None "B" [];
                   mkSub true None "C" [Pairs ["c"; "d"]; Pairs ["e"; "f"]]])
               None None true false in
  out.2 = Ok tt /\
  map processed_samples (final_per_dataset_stats out.1) = [1; 1; 1].
Proof. vm_compute. split; reflexivity. Qed.

(** *** Skipped samples along a run *)

(** What the loop computes for one sample before it decides: the tokens,
    the role labels and the number of assistant tokens; nothing when
    [format_conversation] raises. *)
Definition sample_info (encode_text : string -> list Z) (msgs : messages)
    : option (list Z * list Z * Z) :=
  match format_conversation msgs with
  | Ok (turns, turn_roles) => Some (tokenize_turns encode_text turns turn_roles)
  | Raise _ => None
  end.

(** The test of the loop on the number of assistant tokens of a sample. *)
Definition is_skipped (min_assistant_tokens : option Z)
    (info : list Z * list Z * Z) : bool :=
  below_min min_assistant_tokens info.2.

Definition kept (min_assistant_tokens : option Z)
    (infos : list (list Z * list Z * Z)) : list (list Z * list Z * Z) :=
  List.filter (fun info => negb (is_skipped min_assistant_tokens info)) infos.

Definition skipped (min_assistant_tokens : option Z)
    (infos : list (list Z * list Z * Z)) : list (list Z * list Z * Z) :=
  List.filter (is_skipped min_assistant_tokens) infos.











Section RunTrace.

Variable encode_text : string -> list Z.
Variable cumulative_sizes : list Z.
Variable max_count : option Z.
Variable min_assistant_tokens : option Z.
Variable check_tokenization : bool.

(** What the writers and the counters hold once the samples of [infos]
    were processed: the writers hold the samples that were not skipped, in
    order, and the skipped ones are counted. *)
Definition run_inv (infos : list (list Z * list Z * Z)) (st : loop_state) : Prop :=
  items (token_writer st)
  = map (fun info => info.1.1) (kept min_assistant_tokens infos) /\
  items (role_writer st)
  = map (fun info => info.1.2) (kept min_assistant_tokens infos) /\
  accepted_samples (total_stats st) = len (kept min_assistant_tokens infos) /\
  skipped_samples (total_stats st) = len (skipped min_assistant_tokens infos) /\
  sum_Z (map skipped_samples (per_dataset_stats st))
  = len (skipped min_assistant_tokens infos).

Lemma run_inv_index (infos : list (list Z * list Z * Z)) (st : loop_state)
    (n : nat) :
  run_inv infos st -> run_inv infos (set_subset_index n st).
Proof. intros H. exact H. Qed.




End RunTrace.





Example uncounted_sample_runs :
  (tokenize_dataset byte_tokenizer 256 "out/oa-train"
     (PlainDataset [Pairs ["hi"; "yo"]]) None (Some 100) true false).2
  = Raise IndexError /\
  (tokenize_dataset byte_tokenizer 256 "out/oa-train"
     (ConcatDataset
        [mkSub true None "OasstDataset"
           [Pairs ["hi"; "yes"]; Pairs ["hi"; "yo"]]])
     (Some 1) (Some 36) true false).2
  = Ok tt /\
  option_map snd (sample_info byte_tokenizer (Pairs ["hi"; "yo"])) = Some 35 /\
  option_map snd (sample_info byte_tokenizer (Pairs ["hi"; "yes"])) = Some 36.
Proof. vm_compute. repeat split. Qed.

End Pretokenize.

(** ** [weights2megatron/weights2megatron.py] *)

Module Weights2Megatron.

(** [llama_s2layer], [llama_s2heads], [llama_s2dense], [llama_s2hidden] *)
Definition llama_s2layer : gmap Z Z :=
  list_to_map [(7, 32); (13, 40); (30, 60); (65, 80); (70, 80)].
Definition llama_s2heads : gmap Z Z :=
  list_to_map [(7, 32); (13, 40); (30, 52); (65, 64); (70, 64)].
Definition llama_s2dense : gmap Z Z :=
  list_to_map [(7, 11008); (13, 13824); (30, 17920); (65, 22016); (70, 28672)].
Definition llama_s2hidden : gmap Z Z :=
  list_to_map [(7, 4096); (13, 5120); (30, 6656); (65, 8192); (70, 8192)].

(** [range(n)] *)
Definition range (n : Z) : list nat := seq 0 (Z.to_nat n).

(** [table[size]] *)
Definition table_getitem (table : gmap Z Z) (size : Z) : result Z :=
  match table !! size with
  | Some v => Ok v
  | None => Raise (KeyError (pretty size))
  end.

(** [del d[k]] *)
Definition delitem {V : Type} (d : gmap string V) (k : string) : result (gmap string V) :=
  match d !! k with
  | Some _ => Ok (delete k d)
  | None => Raise (KeyError k)
  end.

(** [f"layers.{layer}"] and [f"transformer.h.{layer}"], followed by the
    rest of the key. *)
Definition layer_key (layer : nat) (suffix : string) : string :=
  "layers." +:+ str layer +:+ suffix.

Definition falcon_key (layer : nat) (suffix : string) : string :=
  "transformer.h." +:+ str layer +:+ suffix.

(** What the conversions return: the dictionaries under ["embedding"] and
    ["transformer"] and, for llama only, the tensor under ["lm_head"]. *)
Record megatron_weights (tensor : Type) : Type := mkMegatron {
  embedding : gmap string tensor;
  transformer : gmap string tensor;
  lm_head : option tensor
}.

Arguments mkMegatron {tensor} _ _ _.
Arguments embedding {tensor} _.
Arguments transformer {tensor} _.
Arguments lm_head {tensor} _.

Section Tensors.

(** A tensor is the list of its rows (its slices along dimension 0); the
    entries of a row are kept abstract. *)
Variable elt : Type.

Abbreviation tensor := (list (list elt)).

(** [torch.split(t, split_size, dim=0)]: consecutive blocks of [split_size]
    rows, the last one shorter when the row count is not a multiple; a
    tensor without rows gives one empty block. *)
Fixpoint split_rows (fuel : nat) (t : tensor) (split_size : nat) : list tensor :=
  match fuel with
  | O => []
  | S fuel' =>
      match t with
      | [] => []
      | _ => take split_size t :: split_rows fuel' (drop split_size t) split_size
      end
  end.

Definition torch_split (t : tensor) (split_size : Z) : result (list tensor) :=
  match t with
  | [] => Ok [[]]
  | _ =>
      if split_size <=? 0 then Raise RuntimeError
      else Ok (split_rows (length t) t (Z.to_nat split_size))
  end.

(** Whether all rows of all tensors have the same width. *)
Definition same_width (ts : list tensor) : bool :=
  match concat ts with
  | [] => true
  | r :: rs => forallb (fun r' => Nat.eqb (length r') (length r)) rs
  end.

(** [torch.concat(ts)] along dimension 0. *)
Definition torch_concat (ts : list tensor) : result tensor :=
  match ts with
  | [] => Raise RuntimeError
  | _ => if same_width ts then Ok (concat ts) else Raise RuntimeError
  end.

(** [permute_qkv] lives in [permute_qkv.py], and [torch.allclose] compares
    floating-point tensors; both are parameters here. *)
Variable permute_qkv : tensor -> Z -> Z -> Z -> result tensor.
Variable allclose : tensor -> tensor -> bool.

(** [[f(x) for x in xs]] for an [f] that can raise. *)
Fixpoint map_result {A B : Type} (f : A -> result B) (xs : list A) : result (list B) :=
  match xs with
  | [] => Ok []
  | x :: xs' => y ← f x; ys ← map_result f xs'; mret (y :: ys)
  end.

(** [for x in xs: acc = body(x, acc)] for a body that can raise. *)
Fixpoint for_each {A S : Type} (body : A -> S -> result S) (xs : list A) (acc : S)
    : result S :=
  match xs with
  | [] => Ok acc
  | x :: xs' => acc' ← body x acc; for_each body xs' acc'
  end.

Section Llama.

(** The configuration that [llama_to_megatron] computes before its inner
    functions are called. *)
Variable source : string.
Variables hidden n_heads n_kv_heads n_hidden_per_head : Z.

(** The inner function [permute] of [llama_to_megatron]. *)
Definition permute (qkv_w : tensor) : result tensor :=
  if String.eqb source "hf"
  then permute_qkv qkv_w hidden n_heads n_kv_heads
  else Ok qkv_w.

(** The list [w_qkv] that the loop of [rearrange_qkv] builds. *)
Definition qkv_blocks (wq wk wv : list tensor) : result (list tensor) :=
  let n_qs_per_kv := n_heads / n_kv_heads in
  for_each
    (fun i w_qkv =>
       qs ← map_result
              (fun j => list_getitem wq (i * Z.to_nat n_qs_per_kv + j))
              (range n_qs_per_kv);
       k ← list_getitem wk i;
       v ← list_getitem wv i;
       mret ((w_qkv ++ qs) ++ [k; v]))
    (range n_kv_heads) [].

(** The inner function [rearrange_qkv]. *)
Definition rearrange_qkv (wq wk wv : tensor) : result tensor :=
  wq ← torch_split wq n_hidden_per_head;
  wk ← torch_split wk n_hidden_per_head;
  wv ← torch_split wv n_hidden_per_head;
  assert (len wq =? n_heads);;
  assert (len wk =? n_kv_heads);;
  assert (len wv =? n_kv_heads);;
  w_qkv ← qkv_blocks wq wk wv;
  t ← torch_concat w_qkv;
  permute t.

(** One iteration of [for layer in trange(n_layer)], on the dictionary
    [transformer] being filled and the dictionary [weights] being emptied. *)
Definition llama_layer (layer : nat)
    (st : gmap string tensor * gmap string tensor)
    : result (gmap string tensor * gmap string tensor) :=
  let '(transformer, weights) := st in
  wo ← getitem weights (layer_key layer ".attention.wo.weight");
  let transformer := <[layer_key layer ".attention.dense.weight" := wo]> transformer in
  ffn_norm ← getitem weights (layer_key layer ".ffn_norm.weight");
  let transformer :=
    <[layer_key layer ".post_attention_layernorm.weight" := ffn_norm]> transformer in
  attention_norm ← getitem weights (layer_key layer ".attention_norm.weight");
  let transformer :=
    <[layer_key layer ".input_layernorm.weight" := attention_norm]> transformer in
  w2 ← getitem weights (layer_key layer ".feed_forward.w2.weight");
  let transformer := <[layer_key layer ".mlp.dense_4h_to_h.weight" := w2]> transformer in
  w3 ← getitem weights (layer_key layer ".feed_forward.w3.weight");
  w1 ← getitem weights (layer_key layer ".feed_forward.w1.weight");
  h_to_4h ← torch_concat [w3; w1];
  let transformer := <[layer_key layer ".mlp.dense_h_to_4h.weight" := h_to_4h]> transformer in
  wq ← getitem weights (layer_key layer ".attention.wq.weight");
  wk ← getitem weights (layer_key layer ".attention.wk.weight");
  wv ← getitem weights (layer_key layer ".attention.wv.weight");
  qkv ← rearrange_qkv wq wk wv;
  let transformer :=
    <[layer_key layer ".attention.query_key_value.weight" := qkv]> transformer in
  weights ← delitem weights (layer_key layer ".feed_forward.w3.weight");
  weights ← delitem weights (layer_key layer ".feed_forward.w1.weight");
  weights ← delitem weights (layer_key layer ".attention.wq.weight");
  weights ← delitem weights (layer_key layer ".attention.wk.weight");
  weights ← delitem weights (layer_key layer ".attention.wv.weight");
  mret (transformer, weights).

End Llama.

(** [n_kv_heads = n_heads if version == 1 or size <= 13 else 8] *)
Definition llama_n_kv_heads (size version : Z) (n_heads : Z) : Z :=
  if (version =? 1) || (size <=? 13) then n_heads else 8.

(** [llama_to_megatron]: the converted checkpoint, and the input dictionary
    as the [del] statements leave it. *)
Definition llama_to_megatron (weights : gmap string tensor) (size : Z)
    (source : string) (version : Z)
    : result (megatron_weights tensor * gmap string tensor) :=
  n_layer ← table_getitem llama_s2layer size;
  hidden ← table_getitem llama_s2hidden size;
  n_heads ← table_getitem llama_s2heads size;
  let n_hidden_per_head := hidden / n_heads in
  let n_kv_heads := llama_n_kv_heads size version n_heads in
  tok_embeddings ← getitem weights "tok_embeddings.weight";
  let embedding : gmap string tensor := {[ "word_embeddings.weight" := tok_embeddings ]} in
  norm ← getitem weights "norm.weight";
  let transformer : gmap string tensor := {[ "final_layernorm.weight" := norm ]} in
  lm_head ← getitem weights "output.weight";
  '(transformer, weights) ←
    for_each (llama_layer source hidden n_heads n_kv_heads n_hidden_per_head)
      (range n_layer) (transformer, weights);
  mret (mkMegatron embedding transformer (Some lm_head), weights).

(** One iteration of the loop of [falcon_to_megatron]; the inner function
    [permute] is [permute_qkv] at the configuration of the model size. *)
Definition falcon_layer (size dim n_heads n_heads_kv : Z)
    (weights : gmap string tensor) (layer : nat)
    (transformer : gmap string tensor) : result (gmap string tensor) :=
  h_to_4h ← getitem weights (falcon_key layer ".mlp.dense_h_to_4h.weight");
  let transformer := <[layer_key layer ".mlp.dense_h_to_4h.weight" := h_to_4h]> transformer in
  to_h ← getitem weights (falcon_key layer ".mlp.dense_4h_to_h.weight");
  let transformer := <[layer_key layer ".mlp.dense_4h_to_h.weight" := to_h]> transformer in
  qkv_w ← getitem weights (falcon_key layer ".self_attention.query_key_value.weight");
  qkv ← permute_qkv qkv_w dim n_heads n_heads_kv;
  let transformer :=
    <[layer_key layer ".attention.query_key_value.weight" := qkv]> transformer in
  dense ← getitem weights (falcon_key layer ".self_attention.dense.weight");
  let transformer := <[layer_key layer ".attention.dense.weight" := dense]> transformer in
  if size =? 7 then
    ln_w ← getitem weights (falcon_key layer ".input_layernorm.weight");
    let transformer := <[layer_key layer ".input_layernorm.weight" := ln_w]> transformer in
    ln_b ← getitem weights (falcon_key layer ".input_layernorm.bias");
    let transformer := <[layer_key layer ".input_layernorm.bias" := ln_b]> transformer in
    mret transformer
  else
    attn_w ← getitem weights (falcon_key layer ".ln_attn.weight");
    let transformer := <[layer_key layer ".input_layernorm.weight" := attn_w]> transformer in
    mlp_w ← getitem weights (falcon_key layer ".ln_mlp.weight");
    let transformer := <[layer_key layer ".mlp_layernorm.weight" := mlp_w]> transformer in
    attn_b ← getitem weights (falcon_key layer ".ln_attn.bias");
    let transformer := <[layer_key layer ".input_layernorm.bias" := attn_b]> transformer in
    mlp_b ← getitem weights (falcon_key layer ".ln_mlp.bias");
    let transformer := <[layer_key layer ".mlp_layernorm.bias" := mlp_b]> transformer in
    mret transformer.

(** [falcon_to_megatron] *)
Definition falcon_to_megatron (weights : gmap string tensor) (size : Z)
    : result (megatron_weights tensor) :=
  let '(n_layer, dim, n_heads, n_heads_kv) :=
    if size =? 7 then (32, 4544, 71, 1) else (60, 8192, 128, 8) in
  head ← getitem weights "lm_head.weight";
  word_embeddings ← getitem weights "transformer.word_embeddings.weight";
  assert (allclose head word_embeddings);;
  word_embeddings ← getitem weights "transformer.word_embeddings.weight";
  let embedding : gmap string tensor := {[ "word_embeddings.weight" := word_embeddings ]} in
  ln_f_w ← getitem weights "transformer.ln_f.weight";
  let transformer : gmap string tensor := {[ "final_layernorm.weight" := ln_f_w ]} in
  ln_f_b ← getitem weights "transformer.ln_f.bias";
  let transformer := <[ "final_layernorm.bias" := ln_f_b ]> transformer in
  transformer ←
    for_each (falcon_layer size dim n_heads n_heads_kv weights)
      (range n_layer) transformer;
  mret (mkMegatron embedding transformer None).

End Tensors.

(** *** Dictionary keys *)

(** A string without the character ['.']. *)
Fixpoint no_dot (s : string) : Prop :=
  match s with
  | EmptyString => True
  | String c s' => c <> "."%char /\ no_dot s'
  end.

Lemma string_of_uint_no_dot (d : Decimal.uint) :
  no_dot (NilEmpty.string_of_uint d).
Proof. induction d; simpl; (exact I || (split; [discriminate | assumption])). Qed.

Lemma str_no_dot (n : nat) : no_dot (str n).
Proof. apply string_of_uint_no_dot. Qed.

Lemma str_inj (n m : nat) : str n = str m -> n = m.
Proof.
  unfold str. intros H.
  assert (Hu : Nat.to_uint n = Nat.to_uint m).
  { pose proof (NilEmpty.usu (Nat.to_uint n)) as Hn.
    pose proof (NilEmpty.usu (Nat.to_uint m)) as Hm.
    rewrite H in Hn. rewrite Hn in Hm. injection Hm as Hm. exact Hm. }
  rewrite <- (Unsigned.of_to n), <- (Unsigned.of_to m), Hu. reflexivity.
Qed.

(** Two dot-free prefixes followed by a dot: the first dot ends both. *)
Lemma no_dot_prefix_inj (d d' r r' : string) :
  no_dot d -> no_dot d' ->
  d +:+ String "." r = d' +:+ String "." r' ->
  d = d' /\ r = r'.
Proof.
  revert d'. induction d as [|c d IH]; intros [|c' d']; simpl.
  - intros _ _ H. injection H as H. auto.
  - intros _ [Hc _] H. injection H as Hc' _. congruence.
  - intros [Hc _] _ H. injection H as Hc' _. congruence.
  - intros [_ Hd] [_ Hd'] H. injection H as -> H.
    destruct (IH d' Hd Hd' H) as [-> ->]. auto.
Qed.

Lemma layer_key_inj (l l' : nat) (r r' : string) :
  layer_key l (String "." r) = layer_key l' (String "." r') ->
  l = l' /\ r = r'.
Proof.
  unfold layer_key. simpl. intros H. injection H as H.
  destruct (no_dot_prefix_inj _ _ _ _ (str_no_dot l) (str_no_dot l') H) as [Hl Hr].
  split; [apply str_inj; exact Hl | exact Hr].
Qed.

Lemma falcon_key_inj (l l' : nat) (r r' : string) :
  falcon_key l (String "." r) = falcon_key l' (String "." r') ->
  l = l' /\ r = r'.
Proof.
  unfold falcon_key. simpl. intros H. injection H as H.
  destruct (no_dot_prefix_inj _ _ _ _ (str_no_dot l) (str_no_dot l') H) as [Hl Hr].
  split; [apply str_inj; exact Hl | exact Hr].
Qed.

(** Key disequalities, from a different layer or a different suffix. *)
Ltac key_neq :=
  let H := fresh in
  intros H;
  first
    [ apply layer_key_inj in H as [? ?]; (congruence || lia)
    | unfold layer_key in H; simpl in H; discriminate H ].

(** Reading back a key from a stack of insertions. *)
Ltac lookup_inserted :=
  repeat first
    [ rewrite lookup_insert_eq
    | rewrite lookup_insert_ne by key_neq ];
  try reflexivity.

Lemma layer_key_neq_layer (l l' : nat) (s r : string) :
  l <> l' -> layer_key l (String "." r) <> layer_key l' (String "." s).
Proof. intros Hne. key_neq. Qed.

Example layer_key_5 :
  layer_key 5 ".attention.wo.weight" = "layers.5.attention.wo.weight".
Proof. reflexivity. Qed.

Example layer_key_31 :
  layer_key 31 ".mlp.dense_h_to_4h.weight" = "layers.31.mlp.dense_h_to_4h.weight".
Proof. reflexivity. Qed.

(** *** Splitting and concatenating rows *)

Section TensorProperties.

Variable elt : Type.

Abbreviation tensor := (list (list elt)).

(** Row-block [j] of [t] for blocks of [n] rows: rows [j*n] to
    [(j+1)*n - 1]. *)
Definition block (t : tensor) (n j : nat) : tensor := take n (drop (j * n) t).

(** The layout that [rearrange_qkv] is to produce, in the words of its
    description: for each key-value head [i] in order, the [nq] query
    blocks [i*nq .. (i+1)*nq - 1], then key block [i], then value block [i],
    all concatenated. *)
Definition qkv_groups (n nq nkv : nat) (wq wk wv : tensor) : list tensor :=
  flat_map
    (fun i =>
       map (fun j => block wq n (i * nq + j)) (seq 0 nq)
       ++ [block wk n i; block wv n i])
    (seq 0 nkv).

Definition qkv_layout (n nq nkv : nat) (wq wk wv : tensor) : tensor :=
  concat (qkv_groups n nq nkv wq wk wv).

Lemma split_rows_lookup (fuel : nat) (t : tensor) (n j : nat) :
  (0 < n)%nat ->
  (length t <= fuel)%nat ->
  (j < length (split_rows elt fuel t n))%nat ->
  split_rows elt fuel t n !! j = Some (block t n j).
Proof.
  intros Hn. revert t j. induction fuel as [|fuel IH]; intros t j Hlen Hj.
  - simpl in Hj. lia.
  - destruct t as [|r t]; [simpl in Hj; lia|].
    change (split_rows elt (S fuel) (r :: t) n)
      with (take n (r :: t) :: split_rows elt fuel (drop n (r :: t)) n) in *.
    destruct j as [|j].
    + reflexivity.
    + simpl in Hj. simpl lookup. rewrite IH.
      * unfold block. rewrite drop_drop.
        replace (S j * n)%nat with (n + j * n)%nat by lia. reflexivity.
      * rewrite length_drop. simpl in *. lia.
      * lia.
Qed.

Lemma split_rows_concat (fuel : nat) (t : tensor) (n : nat) :
  (0 < n)%nat ->
  (length t <= fuel)%nat ->
  concat (split_rows elt fuel t n) = t.
Proof.
  intros Hn. revert t. induction fuel as [|fuel IH]; intros t Hlen.
  - destruct t; [reflexivity | simpl in Hlen; lia].
  - destruct t as [|r t]; [reflexivity|].
    change (split_rows elt (S fuel) (r :: t) n)
      with (take n (r :: t) :: split_rows elt fuel (drop n (r :: t)) n).
    simpl concat. rewrite IH.
    + apply take_drop.
    + rewrite length_drop. simpl in *. lia.
Qed.

(** Every block that [torch.split] returns is the block of its index, and
    the blocks together are the tensor. *)
Lemma torch_split_lookup (t : tensor) (split_size : Z) (blocks : list tensor) (j : nat) :
  torch_split elt t split_size = Ok blocks ->
  (j < length blocks)%nat ->
  blocks !! j = Some (block t (Z.to_nat split_size) j).
Proof.
  unfold torch_split. destruct t as [|r t].
  - intros [= <-] Hj. simpl in Hj. destruct j; [|lia].
    unfold block. rewrite drop_nil, take_nil. reflexivity.
  - destruct (Z.leb_spec split_size 0); [discriminate|].
    intros Heq Hj.
    assert (Hb : blocks
                 = split_rows elt (length (r :: t)) (r :: t) (Z.to_nat split_size))
      by congruence.
    rewrite Hb in *. apply split_rows_lookup; [lia | lia | exact Hj].
Qed.

Lemma torch_split_concat (t : tensor) (split_size : Z) (blocks : list tensor) :
  torch_split elt t split_size = Ok blocks -> concat blocks = t.
Proof.
  unfold torch_split. destruct t as [|r t].
  - intros [= <-]. reflexivity.
  - destruct (Z.leb_spec split_size 0); [discriminate|].
    intros Heq.
    assert (Hb : blocks
                 = split_rows elt (length (r :: t)) (r :: t) (Z.to_nat split_size))
      by congruence.
    rewrite Hb. apply split_rows_concat; lia.
Qed.

Lemma torch_concat_Ok (ts : list tensor) (t : tensor) :
  torch_concat elt ts = Ok t -> t = concat ts.
Proof.
  unfold torch_concat. destruct ts; [discriminate|].
  destruct (same_width _ _); [|discriminate]. intros [= <-]. reflexivity.
Qed.

Lemma map_result_Ok {A B : Type} (f : A -> result B) (g : A -> B)
    (xs : list A) (ys : list B) :
  (forall x y, In x xs -> f x = Ok y -> y = g x) ->
  map_result f xs = Ok ys ->
  ys = map g xs.
Proof.
  revert ys. induction xs as [|x xs IH]; intros ys Hg; simpl.
  - intros [= <-]. reflexivity.
  - intros H. apply bind_Ok in H as (y & Hy & H).
    apply bind_Ok in H as (ys' & Hys & H). injection H as <-.
    rewrite (Hg x y); [|left; reflexivity | exact Hy].
    rewrite (IH ys'); [reflexivity | | exact Hys].
    intros x' y' Hin. apply Hg. right. exact Hin.
Qed.

Lemma for_each_appends {A B : Type} (body : A -> list B -> result (list B))
    (g : A -> list B) (xs : list A) :
  (forall x acc acc', In x xs -> body x acc = Ok acc' -> acc' = acc ++ g x) ->
  forall acc res,
    for_each body xs acc = Ok res -> res = acc ++ flat_map g xs.
Proof.
  induction xs as [|x xs IH]; intros Hbody acc res; simpl.
  - intros [= <-]. rewrite app_nil_r. reflexivity.
  - intros H. apply bind_Ok in H as (acc' & Hacc & H).
    rewrite (IH (fun x' a a' Hin => Hbody x' a a' (or_intror Hin)) acc' res H).
    rewrite (Hbody x acc acc' (or_introl eq_refl) Hacc).
    rewrite <- app_assoc. reflexivity.
Qed.

Lemma list_getitem_Ok {A : Type} (l : list A) (i : nat) (x : A) :
  list_getitem l i = Ok x -> l !! i = Some x.
Proof. unfold list_getitem. destruct (l !! i); congruence. Qed.

Lemma getitem_block (t : tensor) (split_size : Z) (blocks : list tensor)
    (j : nat) (b : tensor) :
  torch_split elt t split_size = Ok blocks ->
  list_getitem blocks j = Ok b ->
  b = block t (Z.to_nat split_size) j.
Proof.
  intros Hsplit Hget. apply list_getitem_Ok in Hget.
  pose proof (lookup_lt_Some _ _ _ Hget) as Hj.
  rewrite (torch_split_lookup _ _ _ _ Hsplit Hj) in Hget. congruence.
Qed.

Section Rearrange.

Variable permute_qkv : tensor -> Z -> Z -> Z -> result tensor.
Variable source : string.
Variables hidden n_heads n_kv_heads n_hidden_per_head : Z.

(** The list that the loop of [rearrange_qkv] builds is the list of
    groups, block by block. *)
Lemma qkv_blocks_groups (wq wk wv : tensor) (qs ks vs w_qkv : list tensor) :
  torch_split elt wq n_hidden_per_head = Ok qs ->
  torch_split elt wk n_hidden_per_head = Ok ks ->
  torch_split elt wv n_hidden_per_head = Ok vs ->
  qkv_blocks elt n_heads n_kv_heads qs ks vs = Ok w_qkv ->
  w_qkv = qkv_groups (Z.to_nat n_hidden_per_head)
            (Z.to_nat (n_heads / n_kv_heads)) (Z.to_nat n_kv_heads) wq wk wv.
Proof.
  intros Hqs Hks Hvs Hblocks. unfold qkv_blocks, range in Hblocks.
  apply (for_each_appends _
           (fun i =>
              map (fun j => block wq (Z.to_nat n_hidden_per_head)
                              (i * Z.to_nat (n_heads / n_kv_heads) + j))
                  (seq 0 (Z.to_nat (n_heads / n_kv_heads)))
              ++ [block wk (Z.to_nat n_hidden_per_head) i;
                  block wv (Z.to_nat n_hidden_per_head) i])) in Hblocks.
  - exact Hblocks.
  - intros i acc acc' _ Hbody.
    apply bind_Ok in Hbody as (qs' & Hqs' & Hbody).
    apply bind_Ok in Hbody as (k & Hk & Hbody).
    apply bind_Ok in Hbody as (v & Hv & Hbody).
    injection Hbody as <-.
    apply (map_result_Ok _
             (fun j => block wq (Z.to_nat n_hidden_per_head)
                         (i * Z.to_nat (n_heads / n_kv_heads) + j))) in Hqs'.
    + subst qs'. rewrite (getitem_block _ _ _ _ _ Hks Hk).
      rewrite (getitem_block _ _ _ _ _ Hvs Hv).
      rewrite <- app_assoc. reflexivity.
    + intros j b _ Hb. exact (getitem_block _ _ _ _ _ Hqs Hb).
Qed.

(** [rearrange_qkv] refines [qkv_layout]: when it returns, the three
    splits had [n_heads], [n_kv_heads] and [n_kv_heads] blocks, and the
    result is [permute] of the layout. *)
Lemma rearrange_qkv_layout (wq wk wv t : tensor) :
  rearrange_qkv elt permute_qkv source hidden n_heads n_kv_heads
    n_hidden_per_head wq wk wv = Ok t ->
  (exists qs ks vs,
      torch_split elt wq n_hidden_per_head = Ok qs /\ len qs = n_heads /\
      torch_split elt wk n_hidden_per_head = Ok ks /\ len ks = n_kv_heads /\
      torch_split elt wv n_hidden_per_head = Ok vs /\ len vs = n_kv_heads) /\
  permute elt permute_qkv source hidden n_heads n_kv_heads
    (qkv_layout (Z.to_nat n_hidden_per_head)
       (Z.to_nat (n_heads / n_kv_heads)) (Z.to_nat n_kv_heads) wq wk wv)
  = Ok t.
Proof.
  unfold rearrange_qkv. intros H.
  apply bind_Ok in H as (qs & Hqs & H).
  apply bind_Ok in H as (ks & Hks & H).
  apply bind_Ok in H as (vs & Hvs & H).
  apply bind_Ok in H as ([] & Hlq & H). apply assert_Ok, Z.eqb_eq in Hlq.
  apply bind_Ok in H as ([] & Hlk & H). apply assert_Ok, Z.eqb_eq in Hlk.
  apply bind_Ok in H as ([] & Hlv & H). apply assert_Ok, Z.eqb_eq in Hlv.
  apply bind_Ok in H as (w_qkv & Hblocks & H).
  apply bind_Ok in H as (c & Hc & H).
  split; [exists qs, ks, vs; auto 10|].
  apply torch_concat_Ok in Hc. subst c.
  rewrite (qkv_blocks_groups _ _ _ _ _ _ _ Hqs Hks Hvs Hblocks) in H.
  exact H.
Qed.

Lemma delitem_Ok (d d' : gmap string tensor) (k : string) :
  delitem d k = Ok d' -> d' = delete k d.
Proof. unfold delitem. destruct (d !! k); congruence. Qed.

(** [tr[layer_key l dst]] is the tensor [w[layer_key l src]]. *)
Definition renamed (l : nat) (src dst : string) (w tr : gmap string tensor) : Prop :=
  exists t, w !! layer_key l src = Some t /\ tr !! layer_key l dst = Some t.

(** What iteration [l] of the loop of [llama_to_megatron] puts in
    [transformer], in terms of the input dictionary [w]. *)
Definition llama_layer_post (l : nat) (w tr : gmap string tensor) : Prop :=
  renamed l ".attention.wo.weight" ".attention.dense.weight" w tr /\
  renamed l ".ffn_norm.weight" ".post_attention_layernorm.weight" w tr /\
  renamed l ".attention_norm.weight" ".input_layernorm.weight" w tr /\
  renamed l ".feed_forward.w2.weight" ".mlp.dense_4h_to_h.weight" w tr /\
  (exists w3 w1 t,
      w !! layer_key l ".feed_forward.w3.weight" = Some w3 /\
      w !! layer_key l ".feed_forward.w1.weight" = Some w1 /\
      torch_concat elt [w3; w1] = Ok t /\
      tr !! layer_key l ".mlp.dense_h_to_4h.weight" = Some t) /\
  (exists wq wk wv t,
      w !! layer_key l ".attention.wq.weight" = Some wq /\
      w !! layer_key l ".attention.wk.weight" = Some wk /\
      w !! layer_key l ".attention.wv.weight" = Some wv /\
      rearrange_qkv elt permute_qkv source hidden n_heads n_kv_heads
        n_hidden_per_head wq wk wv = Ok t /\
      tr !! layer_key l ".attention.query_key_value.weight" = Some t).

(** The post-condition only looks at the keys of its layer. *)
Lemma llama_layer_post_ext (l : nat) (w w' tr tr' : gmap string tensor) :
  (forall r, w' !! layer_key l (String "." r) = w !! layer_key l (String "." r)) ->
  (forall r, tr' !! layer_key l (String "." r) = tr !! layer_key l (String "." r)) ->
  llama_layer_post l w tr -> llama_layer_post l w' tr'.
Proof.
  intros Hw Htr. unfold llama_layer_post, renamed.
  intros ((t1 & H1) & (t2 & H2) & (t3 & H3) & (t4 & H4)
          & (w3 & w1 & t5 & H5) & (wq & wk & wv & t6 & H6)).
  repeat split.
  - exists t1. rewrite Hw, Htr. exact H1.
  - exists t2. rewrite Hw, Htr. exact H2.
  - exists t3. rewrite Hw, Htr. exact H3.
  - exists t4. rewrite Hw, Htr. exact H4.
  - exists w3, w1, t5. rewrite !Hw, Htr. exact H5.
  - exists wq, wk, wv, t6. rewrite !Hw, Htr. exact H6.
Qed.

Lemma llama_layer_spec (l : nat) (tr w tr' w' : gmap string tensor) :
  llama_layer elt permute_qkv source hidden n_heads n_kv_heads
    n_hidden_per_head l (tr, w) = Ok (tr', w') ->
  llama_layer_post l w tr' /\
  (forall k, (forall r, k <> layer_key l (String "." r)) -> tr' !! k = tr !! k) /\
  (forall k, (forall r, k <> layer_key l (String "." r)) -> w' !! k = w !! k).
Proof.
  unfold llama_layer. intros H.
  apply bind_Ok in H as (wo & Hwo & H). apply getitem_Ok in Hwo.
  apply bind_Ok in H as (ffn & Hffn & H). apply getitem_Ok in Hffn.
  apply bind_Ok in H as (an & Han & H). apply getitem_Ok in Han.
  apply bind_Ok in H as (w2 & Hw2 & H). apply getitem_Ok in Hw2.
  apply bind_Ok in H as (w3 & Hw3 & H). apply getitem_Ok in Hw3.
  apply bind_Ok in H as (w1 & Hw1 & H). apply getitem_Ok in Hw1.
  apply bind_Ok in H as (h4 & Hh4 & H).
  apply bind_Ok in H as (wq & Hwq & H). apply getitem_Ok in Hwq.
  apply bind_Ok in H as (wk & Hwk & H). apply getitem_Ok in Hwk.
  apply bind_Ok in H as (wv & Hwv & H). apply getitem_Ok in Hwv.
  apply bind_Ok in H as (qkv & Hqkv & H).
  apply bind_Ok in H as (d1 & Hd1 & H). apply delitem_Ok in Hd1.
  apply bind_Ok in H as (d2 & Hd2 & H). apply delitem_Ok in Hd2.
  apply bind_Ok in H as (d3 & Hd3 & H). apply delitem_Ok in Hd3.
  apply bind_Ok in H as (d4 & Hd4 & H). apply delitem_Ok in Hd4.
  apply bind_Ok in H as (d5 & Hd5 & H). apply delitem_Ok in Hd5.
  injection H as <- <-. subst d5 d4 d3 d2 d1.
  split; [|split].
  - unfold llama_layer_post, renamed. repeat split.
    + exists wo. split; [exact Hwo | lookup_inserted].
    + exists ffn. split; [exact Hffn | lookup_inserted].
    + exists an. split; [exact Han | lookup_inserted].
    + exists w2. split; [exact Hw2 | lookup_inserted].
    + exists w3, w1, h4. repeat split; try assumption. lookup_inserted.
    + exists wq, wk, wv, qkv. repeat split; try assumption. lookup_inserted.
  - intros k Hk.
    rewrite !lookup_insert_ne by (intros E; exact (Hk _ (eq_sym E))).
    reflexivity.
  - intros k Hk.
    rewrite !lookup_delete_ne by (intros E; exact (Hk _ (eq_sym E))).
    reflexivity.
Qed.

(** The loop over the layers: every layer visited has its
    post-condition on the initial [w], and keys of no visited layer are
    left alone in both dictionaries. *)
Lemma llama_loop_spec (layers : list nat) (tr w tr' w' : gmap string tensor) :
  NoDup layers ->
  for_each
    (llama_layer elt permute_qkv source hidden n_heads n_kv_heads n_hidden_per_head)
    layers (tr, w) = Ok (tr', w') ->
  (forall l, l ∈ layers -> llama_layer_post l w tr') /\
  (forall k,
      (forall l r, l ∈ layers -> k <> layer_key l (String "." r)) ->
      tr' !! k = tr !! k /\ w' !! k = w !! k).
Proof.
  revert tr w. induction layers as [|l0 rest IH]; intros tr w Hnd H.
  - injection H as <- <-. split; [intros l Hl; inversion Hl | auto].
  - apply NoDup_cons in Hnd as [Hl0 Hnd].
    simpl in H. apply bind_Ok in H as ([tr1 w1] & Hbody & H).
    apply llama_layer_spec in Hbody as (Hpost & Htr1 & Hw1).
    destruct (IH tr1 w1 Hnd H) as [IHpost IHframe].
    split.
    + intros l Hl. apply elem_of_cons in Hl as [->|Hl].
      * apply (llama_layer_post_ext l0 w w tr1 tr'); [reflexivity | | exact Hpost].
        intros r. apply IHframe. intros l1 r' Hl1.
        apply layer_key_neq_layer. intros ->. contradiction.
      * apply (llama_layer_post_ext l w1 w tr' tr'); [ | reflexivity | auto].
        intros r. symmetry. apply Hw1. intros r'.
        apply layer_key_neq_layer. intros ->. contradiction.
    + intros k Hk.
      destruct (IHframe k) as [-> ->].
      { intros l r Hl. apply Hk. apply elem_of_cons. right. exact Hl. }
      split; [apply Htr1 | apply Hw1]; intros r; apply Hk; apply elem_of_cons;
        left; reflexivity.
Qed.

End Rearrange.

Lemma table_getitem_Ok (table : gmap Z Z) (size v : Z) :
  table_getitem table size = Ok v -> table !! size = Some v.
Proof. unfold table_getitem. destruct (table !! size); congruence. Qed.

Section LlamaSpec.

Variable permute_qkv : tensor -> Z -> Z -> Z -> result tensor.

(** [llama_to_megatron], when it returns: the configuration comes from the
    tables, the three tensors outside the layers are the inputs, and every
    layer below [n_layer] has its post-condition on the input dictionary. *)
Lemma llama_to_megatron_spec (weights weights' : gmap string tensor)
    (size : Z) (source : string) (version : Z) (out : megatron_weights tensor) :
  llama_to_megatron elt permute_qkv weights size source version
    = Ok (out, weights') ->
  exists n_layer hidden n_heads,
    llama_s2layer !! size = Some n_layer /\
    llama_s2hidden !! size = Some hidden /\
    llama_s2heads !! size = Some n_heads /\
    (exists t, weights !! "tok_embeddings.weight" = Some t /\
               embedding out !! "word_embeddings.weight" = Some t) /\
    (exists t, weights !! "norm.weight" = Some t /\
               transformer out !! "final_layernorm.weight" = Some t) /\
    (exists t, weights !! "output.weight" = Some t /\ lm_head out = Some t) /\
    forall l, (l < Z.to_nat n_layer)%nat ->
      llama_layer_post permute_qkv source hidden n_heads
        (llama_n_kv_heads size version n_heads) (hidden / n_heads)
        l weights (transformer out).
Proof.
  unfold llama_to_megatron. intros H.
  apply bind_Ok in H as (n_layer & Hnl & H). apply table_getitem_Ok in Hnl.
  apply bind_Ok in H as (hidden & Hhid & H). apply table_getitem_Ok in Hhid.
  apply bind_Ok in H as (n_heads & Hnh & H). apply table_getitem_Ok in Hnh.
  apply bind_Ok in H as (tok & Htok & H). apply getitem_Ok in Htok.
  apply bind_Ok in H as (norm & Hnorm & H). apply getitem_Ok in Hnorm.
  apply bind_Ok in H as (head & Hhead & H). apply getitem_Ok in Hhead.
  apply bind_Ok in H as ([tr' w'] & Hloop & H). injection H as <- <-.
  apply llama_loop_spec in Hloop as [Hpost Hframe]; [|apply NoDup_seq].
  exists n_layer, hidden, n_heads.
  split; [exact Hnl|]. split; [exact Hhid|]. split; [exact Hnh|].
  split; [|split; [|split]].
  - exists tok. split; [exact Htok | apply lookup_singleton_eq].
  - exists norm. split; [exact Hnorm|]. simpl.
    destruct (Hframe "final_layernorm.weight") as [-> _].
    + intros l r _. key_neq.
    + apply lookup_singleton_eq.
  - exists head. auto.
  - intros l Hl. apply Hpost. unfold range. apply elem_of_seq. lia.
Qed.

End LlamaSpec.

Section FalconSpec.

Variable permute_qkv : tensor -> Z -> Z -> Z -> result tensor.
Variable allclose : tensor -> tensor -> bool.

(** [tr[layer_key l dst]] is the tensor [w[falcon_key l src]]. *)
Definition falcon_renamed (l : nat) (src dst : string)
    (w tr : gmap string tensor) : Prop :=
  exists t, w !! falcon_key l src = Some t /\ tr !! layer_key l dst = Some t.

(** What iteration [l] of the loop of [falcon_to_megatron] puts in
    [transformer]. *)
Definition falcon_layer_post (size dim n_heads n_heads_kv : Z) (l : nat)
    (w tr : gmap string tensor) : Prop :=
  falcon_renamed l ".mlp.dense_h_to_4h.weight" ".mlp.dense_h_to_4h.weight" w tr /\
  falcon_renamed l ".mlp.dense_4h_to_h.weight" ".mlp.dense_4h_to_h.weight" w tr /\
  falcon_renamed l ".self_attention.dense.weight" ".attention.dense.weight" w tr /\
  (exists qkv_w t,
      w !! falcon_key l ".self_attention.query_key_value.weight" = Some qkv_w /\
      permute_qkv qkv_w dim n_heads n_heads_kv = Ok t /\
      tr !! layer_key l ".attention.query_key_value.weight" = Some t) /\
  if size =? 7 then
    falcon_renamed l ".input_layernorm.weight" ".input_layernorm.weight" w tr /\
    falcon_renamed l ".input_layernorm.bias" ".input_layernorm.bias" w tr
  else
    falcon_renamed l ".ln_attn.weight" ".input_layernorm.weight" w tr /\
    falcon_renamed l ".ln_mlp.weight" ".mlp_layernorm.weight" w tr /\
    falcon_renamed l ".ln_attn.bias" ".input_layernorm.bias" w tr /\
    falcon_renamed l ".ln_mlp.bias" ".mlp_layernorm.bias" w tr.

Lemma falcon_layer_post_ext (size dim n_heads n_heads_kv : Z) (l : nat)
    (w tr tr' : gmap string tensor) :
  (forall r, tr' !! layer_key l (String "." r) = tr !! layer_key l (String "." r)) ->
  falcon_layer_post size dim n_heads n_heads_kv l w tr ->
  falcon_layer_post size dim n_heads n_heads_kv l w tr'.
Proof.
  intros Htr. unfold falcon_layer_post, falcon_renamed.
  intros ((t1 & H1) & (t2 & H2) & (t3 & H3) & (q & t4 & H4) & H5).
  split; [exists t1; rewrite Htr; exact H1|].
  split; [exists t2; rewrite Htr; exact H2|].
  split; [exists t3; rewrite Htr; exact H3|].
  split; [exists q, t4; rewrite Htr; exact H4|].
  destruct (size =? 7).
  - destruct H5 as ((t5 & H5) & (t6 & H6)).
    split; [exists t5 | exists t6]; rewrite Htr; assumption.
  - destruct H5 as ((t5 & H5) & (t6 & H6) & (t7 & H7) & (t8 & H8)).
    split; [exists t5; rewrite Htr; exact H5|].
    split; [exists t6; rewrite Htr; exact H6|].
    split; [exists t7 | exists t8]; rewrite Htr; assumption.
Qed.

Lemma falcon_layer_spec (size dim n_heads n_heads_kv : Z) (l : nat)
    (w tr tr' : gmap string tensor) :
  falcon_layer elt permute_qkv size dim n_heads n_heads_kv w l tr = Ok tr' ->
  falcon_layer_post size dim n_heads n_heads_kv l w tr' /\
  (forall k, (forall r, k <> layer_key l (String "." r)) -> tr' !! k = tr !! k).
Proof.
  unfold falcon_layer, falcon_layer_post, falcon_renamed. intros H.
  apply bind_Ok in H as (h4 & Hh4 & H). apply getitem_Ok in Hh4.
  apply bind_Ok in H as (toh & Htoh & H). apply getitem_Ok in Htoh.
  apply bind_Ok in H as (qkv_w & Hqkv_w & H). apply getitem_Ok in Hqkv_w.
  apply bind_Ok in H as (qkv & Hqkv & H).
  apply bind_Ok in H as (dense & Hdense & H). apply getitem_Ok in Hdense.
  destruct (size =? 7).
  - apply bind_Ok in H as (lw & Hlw & H). apply getitem_Ok in Hlw.
    apply bind_Ok in H as (lb & Hlb & H). apply getitem_Ok in Hlb.
    injection H as <-. split.
    + split; [exists h4; split; [exact Hh4 | lookup_inserted]|].
      split; [exists toh; split; [exact Htoh | lookup_inserted]|].
      split; [exists dense; split; [exact Hdense | lookup_inserted]|].
      split; [exists qkv_w, qkv; split; [exact Hqkv_w | split;
                [exact Hqkv | lookup_inserted]]|].
      split; [exists lw; split; [exact Hlw | lookup_inserted]|].
      exists lb; split; [exact Hlb | lookup_inserted].
    + intros k Hk.
      rewrite !lookup_insert_ne by (intros E; exact (Hk _ (eq_sym E))).
      reflexivity.
  - apply bind_Ok in H as (aw & Haw & H). apply getitem_Ok in Haw.
    apply bind_Ok in H as (mw & Hmw & H). apply getitem_Ok in Hmw.
    apply bind_Ok in H as (ab & Hab & H). apply getitem_Ok in Hab.
    apply bind_Ok in H as (mb & Hmb & H). apply getitem_Ok in Hmb.
    injection H as <-. split.
    + split; [exists h4; split; [exact Hh4 | lookup_inserted]|].
      split; [exists toh; split; [exact Htoh | lookup_inserted]|].
      split; [exists dense; split; [exact Hdense | lookup_inserted]|].
      split; [exists qkv_w, qkv; split; [exact Hqkv_w | split;
                [exact Hqkv | lookup_inserted]]|].
      split; [exists aw; split; [exact Haw | lookup_inserted]|].
      split; [exists mw; split; [exact Hmw | lookup_inserted]|].
      split; [exists ab; split; [exact Hab | lookup_inserted]|].
      exists mb; split; [exact Hmb | lookup_inserted].
    + intros k Hk.
      rewrite !lookup_insert_ne by (intros E; exact (Hk _ (eq_sym E))).
      reflexivity.
Qed.

Lemma falcon_loop_spec (size dim n_heads n_heads_kv : Z) (layers : list nat)
    (w tr tr' : gmap string tensor) :
  NoDup layers ->
  for_each (falcon_layer elt permute_qkv size dim n_heads n_heads_kv w)
    layers tr = Ok tr' ->
  (forall l, l ∈ layers -> falcon_layer_post size dim n_heads n_heads_kv l w tr') /\
  (forall k,
      (forall l r, l ∈ layers -> k <> layer_key l (String "." r)) ->
      tr' !! k = tr !! k).
Proof.
  revert tr. induction layers as [|l0 rest IH]; intros tr Hnd H.
  - injection H as <-. split; [intros l Hl; inversion Hl | auto].
  - apply NoDup_cons in Hnd as [Hl0 Hnd].
    simpl in H. apply bind_Ok in H as (tr1 & Hbody & H).
    apply falcon_layer_spec in Hbody as (Hpost & Htr1).
    destruct (IH tr1 Hnd H) as [IHpost IHframe].
    split.
    + intros l Hl. apply elem_of_cons in Hl as [->|Hl]; [|auto].
      apply (falcon_layer_post_ext _ _ _ _ l0 w tr1 tr'); [|exact Hpost].
      intros r. apply IHframe. intros l1 r' Hl1.
      apply layer_key_neq_layer. intros ->. contradiction.
    + intros k Hk. rewrite IHframe.
      * apply Htr1. intros r. apply Hk. apply elem_of_cons. left. reflexivity.
      * intros l r Hl. apply Hk. apply elem_of_cons. right. exact Hl.
Qed.

(** The configuration of [falcon_to_megatron]. *)
Definition falcon_config (size : Z) : Z * Z * Z * Z :=
  if size =? 7 then (32, 4544, 71, 1) else (60, 8192, 128, 8).

Lemma falcon_to_megatron_spec (weights : gmap string tensor) (size : Z)
    (out : megatron_weights tensor) :
  falcon_to_megatron elt permute_qkv allclose weights size = Ok out ->
  let '(n_layer, dim, n_heads, n_heads_kv) := falcon_config size in
  (exists t, weights !! "transformer.word_embeddings.weight" = Some t /\
             embedding out !! "word_embeddings.weight" = Some t) /\
  (exists t, weights !! "transformer.ln_f.weight" = Some t /\
             transformer out !! "final_layernorm.weight" = Some t) /\
  (exists t, weights !! "transformer.ln_f.bias" = Some t /\
             transformer out !! "final_layernorm.bias" = Some t) /\
  forall l, (l < Z.to_nat n_layer)%nat ->
    falcon_layer_post size dim n_heads n_heads_kv l weights (transformer out).
Proof.
  unfold falcon_to_megatron, falcon_config.
  destruct (size =? 7) eqn:Hsize; intros H.
  all: apply bind_Ok in H as (head & Hhead & H).
  all: apply bind_Ok in H as (we & Hwe & H).
  all: apply bind_Ok in H as ([] & Hclose & H).
  all: apply bind_Ok in H as (we' & Hwe' & H); apply getitem_Ok in Hwe'.
  all: apply bind_Ok in H as (lw & Hlw & H); apply getitem_Ok in Hlw.
  all: apply bind_Ok in H as (lb & Hlb & H); apply getitem_Ok in Hlb.
  all: apply bind_Ok in H as (tr' & Hloop & H); injection H as <-.
  all: apply falcon_loop_spec in Hloop as [Hpost Hframe]; [|apply NoDup_seq].
  all: split; [exists we'; split; [exact Hwe' | apply lookup_singleton_eq]|].
  all: split; [exists lw; split; [exact Hlw|]; simpl; rewrite Hframe;
               [lookup_inserted; apply lookup_singleton_eq
               | intros l r _; key_neq]|].
  all: split; [exists lb; split; [exact Hlb|]; simpl; rewrite Hframe;
               [lookup_inserted | intros l r _; key_neq]|].
  all: intros l Hl; rewrite <- Hsize; apply Hpost; unfold range;
    apply elem_of_seq; lia.
Qed.

End FalconSpec.

(** *** [rearrange_qkv] returns on well-shaped inputs *)

Lemma split_rows_length (fuel : nat) (t : tensor) (n h : nat) :
  (0 < n)%nat ->
  length t = (h * n)%nat ->
  (length t <= fuel)%nat ->
  length (split_rows elt fuel t n) = h.
Proof.
  intros Hn. revert t h. induction fuel as [|fuel IH]; intros t h Hlen Hfuel.
  - destruct t; [|simpl in Hfuel; lia]. simpl in *. destruct h; [reflexivity | nia].
  - destruct t as [|r t]; [simpl in *; destruct h; [reflexivity | nia]|].
    change (split_rows elt (S fuel) (r :: t) n)
      with (take n (r :: t) :: split_rows elt fuel (drop n (r :: t)) n).
    destruct h as [|h]; [simpl in Hlen; lia|].
    simpl length. f_equal. apply IH.
    + rewrite length_drop, Hlen. lia.
    + rewrite length_drop. simpl in *. lia.
Qed.

Lemma torch_split_exact (t : tensor) (n h : Z) :
  0 < n -> 0 < h ->
  len t = h * n ->
  exists blocks, torch_split elt t n = Ok blocks /\ len blocks = h.
Proof.
  intros Hn Hh Hlen. unfold torch_split.
  destruct t as [|r t]; [unfold len in Hlen; simpl in Hlen; nia|].
  destruct (Z.leb_spec n 0); [lia|].
  eexists. split; [reflexivity|]. unfold len.
  rewrite (split_rows_length _ _ _ (Z.to_nat h)); unfold len in *; lia.
Qed.

Lemma map_result_returns {A B : Type} (f : A -> result B) (xs : list A) :
  (forall x, In x xs -> exists y, f x = Ok y) ->
  exists ys, map_result f xs = Ok ys.
Proof.
  induction xs as [|x xs IH]; intros Hf; simpl; [eauto|].
  destruct (Hf x (or_introl eq_refl)) as [y ->].
  destruct IH as [ys ->]; [intros x' Hx'; apply Hf; right; exact Hx'|].
  simpl. eauto.
Qed.

Lemma for_each_returns {A S : Type} (body : A -> S -> result S) (xs : list A) :
  (forall x acc, In x xs -> exists acc', body x acc = Ok acc') ->
  forall acc, exists res, for_each body xs acc = Ok res.
Proof.
  induction xs as [|x xs IH]; intros Hbody acc; simpl; [eauto|].
  destruct (Hbody x acc (or_introl eq_refl)) as [acc' ->]. simpl.
  apply IH. intros x' a Hx'. apply Hbody. right. exact Hx'.
Qed.

Lemma list_getitem_returns {A : Type} (l : list A) (i : nat) :
  (i < length l)%nat -> exists x, list_getitem l i = Ok x.
Proof.
  intros Hi. unfold list_getitem.
  destruct (lookup_lt_is_Some_2 l i Hi) as [x ->]. eauto.
Qed.

Lemma same_width_uniform (w : nat) (ts : list tensor) :
  Forall (fun r => length r = w) (concat ts) -> same_width elt ts = true.
Proof.
  unfold same_width. destruct (concat ts) as [|r rs]; [reflexivity|].
  intros H. apply Forall_cons in H as [Hr Hrs].
  apply forallb_forall. intros r' Hr'. apply Nat.eqb_eq.
  rewrite Forall_forall in Hrs. rewrite Hr. apply Hrs.
  apply list_elem_of_In. exact Hr'.
Qed.

Lemma qkv_layout_rows (P : list elt -> Prop) (n nq nkv : nat) (wq wk wv : tensor) :
  Forall P wq -> Forall P wk -> Forall P wv ->
  Forall P (qkv_layout n nq nkv wq wk wv).
Proof.
  intros Hq Hk Hv. unfold qkv_layout, qkv_groups.
  induction (seq 0 nkv) as [|i is_ IH]; simpl; [constructor|].
  rewrite concat_app. apply Forall_app. split; [|exact IH].
  rewrite concat_app. apply Forall_app. split.
  - clear IH. induction (seq 0 nq) as [|j js IHj]; simpl; [constructor|].
    apply Forall_app. split; [|exact IHj].
    unfold block. apply Forall_take, Forall_drop. exact Hq.
  - simpl. rewrite app_nil_r. apply Forall_app.
    split; unfold block; apply Forall_take, Forall_drop; assumption.
Qed.

Lemma qkv_groups_nonempty (n nq nkv : nat) (wq wk wv : tensor) :
  (0 < nkv)%nat -> qkv_groups n nq nkv wq wk wv <> [].
Proof.
  intros Hk. unfold qkv_groups. destruct nkv as [|k]; [lia|]. simpl.
  destruct (map _ (seq 0 nq)); discriminate.
Qed.

Section RearrangeReturns.

Variable permute_qkv : tensor -> Z -> Z -> Z -> result tensor.
Variable source : string.
Variables hidden n_heads n_kv_heads n_hidden_per_head : Z.

(** When [wq] has [n_heads] blocks of rows and [wk], [wv] have
    [n_kv_heads], all rows of one width, the assertions pass, every index
    is in range and [rearrange_qkv] returns what [permute] returns on the
    layout. *)
Lemma rearrange_qkv_returns (width : nat) (wq wk wv t : tensor) :
  0 < n_hidden_per_head ->
  0 < n_kv_heads <= n_heads ->
  len wq = n_heads * n_hidden_per_head ->
  len wk = n_kv_heads * n_hidden_per_head ->
  len wv = n_kv_heads * n_hidden_per_head ->
  Forall (fun r => length r = width) (wq ++ wk ++ wv) ->
  permute elt permute_qkv source hidden n_heads n_kv_heads
    (qkv_layout (Z.to_nat n_hidden_per_head)
       (Z.to_nat (n_heads / n_kv_heads)) (Z.to_nat n_kv_heads) wq wk wv)
  = Ok t ->
  rearrange_qkv elt permute_qkv source hidden n_heads n_kv_heads
    n_hidden_per_head wq wk wv = Ok t.
Proof.
  intros Hn [Hkv Hle] Hlq Hlk Hlv Hwidth Hperm.
  destruct (torch_split_exact wq _ n_heads Hn ltac:(lia) Hlq) as (qs & Hqs & Hnq).
  destruct (torch_split_exact wk _ n_kv_heads Hn Hkv Hlk) as (ks & Hks & Hnk).
  destruct (torch_split_exact wv _ n_kv_heads Hn Hkv Hlv) as (vs & Hvs & Hnv).
  assert (Hblocks : exists w_qkv, qkv_blocks elt n_heads n_kv_heads qs ks vs = Ok w_qkv).
  { unfold qkv_blocks, range. apply for_each_returns. intros i acc Hi.
    apply in_seq in Hi.
    destruct (map_result_returns
                (fun j => list_getitem qs (i * Z.to_nat (n_heads / n_kv_heads) + j))
                (seq 0 (Z.to_nat (n_heads / n_kv_heads)))) as [ys Hys].
    { intros j Hj. apply in_seq in Hj. apply list_getitem_returns.
      unfold len in Hnq.
      assert (n_kv_heads * (n_heads / n_kv_heads) <= n_heads)
        by (apply Z.mul_div_le; lia).
      assert (0 <= n_heads / n_kv_heads) by (apply Z.div_pos; lia).
      nia. }
    destruct (list_getitem_returns ks i) as [k Hk]; [unfold len in Hnk; lia|].
    destruct (list_getitem_returns vs i) as [v Hv]; [unfold len in Hnv; lia|].
    exists ((acc ++ ys) ++ [k; v]).
    change (map_result
              (fun j => list_getitem qs (i * Z.to_nat (n_heads / n_kv_heads) + j))
              (seq 0 (Z.to_nat (n_heads / n_kv_heads)))
            ≫= (fun qs0 =>
                  list_getitem ks i ≫= (fun k0 =>
                  list_getitem vs i ≫= (fun v0 =>
                  mret ((acc ++ qs0) ++ [k0; v0]))))
            = Ok ((acc ++ ys) ++ [k; v])).
    rewrite Hys. simpl. rewrite Hk. simpl. rewrite Hv. reflexivity. }
  destruct Hblocks as [w_qkv Hblocks].
  pose proof (qkv_blocks_groups _ _ _ wq wk wv qs ks vs w_qkv Hqs Hks Hvs Hblocks)
    as Hgroups.
  assert (Hcat : torch_concat elt w_qkv
                 = Ok (qkv_layout (Z.to_nat n_hidden_per_head)
                         (Z.to_nat (n_heads / n_kv_heads))
                         (Z.to_nat n_kv_heads) wq wk wv)).
  { apply Forall_app in Hwidth as [Hwq Hwidth].
    apply Forall_app in Hwidth as [Hwk Hwv].
    pose proof (qkv_layout_rows _ (Z.to_nat n_hidden_per_head)
                  (Z.to_nat (n_heads / n_kv_heads)) (Z.to_nat n_kv_heads)
                  wq wk wv Hwq Hwk Hwv) as Hrows.
    pose proof (qkv_groups_nonempty (Z.to_nat n_hidden_per_head)
                  (Z.to_nat (n_heads / n_kv_heads)) (Z.to_nat n_kv_heads)
                  wq wk wv ltac:(lia)) as Hne.
    unfold qkv_layout in *. rewrite <- Hgroups in *.
    unfold torch_concat. destruct w_qkv as [|b bs]; [contradiction|].
    rewrite (same_width_uniform width _ Hrows). reflexivity. }
  unfold rearrange_qkv. rewrite Hqs, Hks, Hvs. simpl.
  rewrite Hnq, Hnk, Hnv, !Z.eqb_refl. simpl. rewrite Hblocks. simpl.
  rewrite Hcat. simpl. exact Hperm.
Qed.

End RearrangeReturns.

End TensorProperties.

Arguments block {elt} t n j.
Arguments qkv_groups {elt} n nq nkv wq wk wv.
Arguments qkv_layout {elt} n nq nkv wq wk wv.
Arguments renamed {elt} l src dst w tr.
Arguments falcon_renamed {elt} l src dst w tr.

(** *** What [llama_to_megatron] and [falcon_to_megatron] return *)

(** C1: in every llama conversion that returns, for every layer below
    [llama_s2layer[size]]: [wq] splits into [n_heads] row-blocks of
    [hidden // n_heads] rows and [wk], [wv] into [n_kv_heads] such blocks
    ([n_kv_heads] is [n_heads] when [version] is 1 or [size <= 13], else 8),
    and [attention.query_key_value.weight] is the concatenation, for each kv
    head [i] in order, of the query blocks [i*(n_heads//n_kv_heads)] to
    [(i+1)*(n_heads//n_kv_heads) - 1], key block [i] and value block [i];
    [permute_qkv] is applied to it exactly when [source] is ["hf"]. *)
Theorem llama_query_key_value_layout (elt : Type)
    (permute_qkv : list (list elt) -> Z -> Z -> Z -> result (list (list elt)))
    (weights weights' : gmap string (list (list elt)))
    (size : Z) (source : string) (version : Z)
    (out : megatron_weights (list (list elt))) :
  llama_to_megatron elt permute_qkv weights size source version
    = Ok (out, weights') ->
  exists n_layer hidden n_heads,
    llama_s2layer !! size = Some n_layer /\
    llama_s2hidden !! size = Some hidden /\
    llama_s2heads !! size = Some n_heads /\
    let n_kv_heads := if (version =? 1) || (size <=? 13) then n_heads else 8 in
    let n_hidden_per_head := hidden / n_heads in
    forall l, (l < Z.to_nat n_layer)%nat ->
      exists wq wk wv qs ks vs t,
        weights !! layer_key l ".attention.wq.weight" = Some wq /\
        weights !! layer_key l ".attention.wk.weight" = Some wk /\
        weights !! layer_key l ".attention.wv.weight" = Some wv /\
        torch_split elt wq n_hidden_per_head = Ok qs /\ len qs = n_heads /\
        torch_split elt wk n_hidden_per_head = Ok ks /\ len ks = n_kv_heads /\
        torch_split elt wv n_hidden_per_head = Ok vs /\ len vs = n_kv_heads /\
        transformer out !! layer_key l ".attention.query_key_value.weight" = Some t /\
        let layout :=
          qkv_layout (Z.to_nat n_hidden_per_head)
            (Z.to_nat (n_heads / n_kv_heads)) (Z.to_nat n_kv_heads) wq wk wv in
        if String.eqb source "hf"
        then permute_qkv layout hidden n_heads n_kv_heads = Ok t
        else t = layout.
Proof.
  intros H. apply llama_to_megatron_spec in H
    as (n_layer & hidden & n_heads & Hnl & Hhid & Hnh & _ & _ & _ & Hlayers).
  exists n_layer, hidden, n_heads.
  split; [exact Hnl|]. split; [exact Hhid|]. split; [exact Hnh|].
  intros n_kv_heads n_hidden_per_head l Hl.
  destruct (Hlayers l Hl)
    as (_ & _ & _ & _ & _ & (wq & wk & wv & t & Hwq & Hwk & Hwv & Hre & Ht)).
  apply rearrange_qkv_layout in Hre
    as ((qs & ks & vs & Hqs & Hlq & Hks & Hlk & Hvs & Hlv) & Hperm).
  exists wq, wk, wv, qs, ks, vs, t.
  repeat (split; [assumption|]).
  unfold permute in Hperm. fold n_kv_heads in Hperm.
  unfold llama_n_kv_heads in Hperm. fold n_kv_heads n_hidden_per_head in Hperm.
  destruct (String.eqb source "hf"); [exact Hperm|].
  injection Hperm as Hperm. symmetry. exact Hperm.
Qed.

(** C2: in every llama conversion that returns, for every layer [l] below
    [llama_s2layer[size]], [transformer["layers.l.mlp.dense_h_to_4h.weight"]]
    is the rows of [weights["layers.l.feed_forward.w3.weight"]] followed by
    the rows of [weights["layers.l.feed_forward.w1.weight"]]. *)
Theorem llama_dense_h_to_4h_is_w3_then_w1 (elt : Type)
    (permute_qkv : list (list elt) -> Z -> Z -> Z -> result (list (list elt)))
    (weights weights' : gmap string (list (list elt)))
    (size : Z) (source : string) (version : Z)
    (out : megatron_weights (list (list elt))) :
  llama_to_megatron elt permute_qkv weights size source version
    = Ok (out, weights') ->
  exists n_layer,
    llama_s2layer !! size = Some n_layer /\
    forall l, (l < Z.to_nat n_layer)%nat ->
      exists w3 w1,
        weights !! layer_key l ".feed_forward.w3.weight" = Some w3 /\
        weights !! layer_key l ".feed_forward.w1.weight" = Some w1 /\
        transformer out !! layer_key l ".mlp.dense_h_to_4h.weight"
        = Some (w3 ++ w1).
Proof.
  intros H. apply llama_to_megatron_spec in H
    as (n_layer & hidden & n_heads & Hnl & _ & _ & _ & _ & _ & Hlayers).
  exists n_layer. split; [exact Hnl|]. intros l Hl.
  destruct (Hlayers l Hl)
    as (_ & _ & _ & _ & (w3 & w1 & t & Hw3 & Hw1 & Hcat & Ht) & _).
  exists w3, w1. split; [exact Hw3|]. split; [exact Hw1|].
  apply torch_concat_Ok in Hcat. subst t. simpl in Ht.
  rewrite app_nil_r in Ht. exact Ht.
Qed.

(** C5: renaming copies tensors.  In every llama conversion that returns,
    the four renamed tensors of every layer and the three tensors outside
    the layers are the input tensors; in every falcon conversion that
    returns, the mlp, dense and layernorm tensors of every layer are the
    input tensors under the renamed keys. *)
Theorem renamed_tensors_are_copied (elt : Type)
    (permute_qkv : list (list elt) -> Z -> Z -> Z -> result (list (list elt)))
    (allclose : list (list elt) -> list (list elt) -> bool) :
  (forall (weights weights' : gmap string (list (list elt)))
          (size : Z) (source : string) (version : Z)
          (out : megatron_weights (list (list elt))),
      llama_to_megatron elt permute_qkv weights size source version
        = Ok (out, weights') ->
      exists n_layer,
        llama_s2layer !! size = Some n_layer /\
        (exists t, weights !! "tok_embeddings.weight" = Some t /\
                   embedding out !! "word_embeddings.weight" = Some t) /\
        (exists t, weights !! "norm.weight" = Some t /\
                   transformer out !! "final_layernorm.weight" = Some t) /\
        (exists t, weights !! "output.weight" = Some t /\ lm_head out = Some t) /\
        forall l, (l < Z.to_nat n_layer)%nat ->
          let tr := transformer out in
          renamed l ".attention.wo.weight" ".attention.dense.weight" weights tr /\
          renamed l ".attention_norm.weight" ".input_layernorm.weight" weights tr /\
          renamed l ".ffn_norm.weight" ".post_attention_layernorm.weight" weights tr /\
          renamed l ".feed_forward.w2.weight" ".mlp.dense_4h_to_h.weight" weights tr) /\
  (forall (weights : gmap string (list (list elt))) (size : Z)
          (out : megatron_weights (list (list elt))),
      falcon_to_megatron elt permute_qkv allclose weights size = Ok out ->
      let n_layer := if size =? 7 then 32 else 60 in
      forall l, (l < Z.to_nat n_layer)%nat ->
        let tr := transformer out in
        falcon_renamed l ".mlp.dense_h_to_4h.weight" ".mlp.dense_h_to_4h.weight"
          weights tr /\
        falcon_renamed l ".mlp.dense_4h_to_h.weight" ".mlp.dense_4h_to_h.weight"
          weights tr /\
        falcon_renamed l ".self_attention.dense.weight" ".attention.dense.weight"
          weights tr /\
        if size =? 7 then
          falcon_renamed l ".input_layernorm.weight" ".input_layernorm.weight"
            weights tr /\
          falcon_renamed l ".input_layernorm.bias" ".input_layernorm.bias"
            weights tr
        else
          falcon_renamed l ".ln_attn.weight" ".input_layernorm.weight" weights tr /\
          falcon_renamed l ".ln_mlp.weight" ".mlp_layernorm.weight" weights tr /\
          falcon_renamed l ".ln_attn.bias" ".input_layernorm.bias" weights tr /\
          falcon_renamed l ".ln_mlp.bias" ".mlp_layernorm.bias" weights tr).
Proof.
  split.
  - intros weights weights' size source version out H.
    apply llama_to_megatron_spec in H
      as (n_layer & hidden & n_heads & Hnl & _ & _ & Htok & Hnorm & Hhead & Hlayers).
    exists n_layer. repeat (split; [assumption|]).
    intros l Hl tr.
    destruct (Hlayers l Hl) as (Hwo & Hffn & Han & Hw2 & _).
    auto.
  - intros weights size out H n_layer l Hl tr. subst n_layer.
    apply falcon_to_megatron_spec in H. unfold falcon_config in H.
    destruct (size =? 7) eqn:Hsize.
    + destruct H as (_ & _ & _ & Hlayers).
      destruct (Hlayers l Hl) as (H1 & H2 & H3 & _ & H5).
      rewrite Hsize in H5. auto.
    + destruct H as (_ & _ & _ & Hlayers).
      destruct (Hlayers l Hl) as (H1 & H2 & H3 & _ & H5).
      rewrite Hsize in H5. auto.
Qed.

(** *** Concrete checkpoints *)

(** Whether a computation returned. *)
Definition returns {A : Type} (r : result A) : bool :=
  match r with
  | Ok _ => true
  | Raise _ => false
  end.

(** [n] rows of one entry each, numbered from [base]. *)
Fixpoint numbered_rows (base : Z) (n : nat) : list (list Z) :=
  match n with
  | O => []
  | S n' => [base] :: numbered_rows (base + 1) n'
  end.

(** A llama checkpoint with the layer tensors of [n_layer] layers, for a
    model with [rows_q] rows in [wq] and [rows_kv] rows in [wk] and [wv]. *)
Definition sample_llama_layer (rows_q rows_kv : nat) (l : nat)
    (w : gmap string (list (list Z))) : gmap string (list (list Z)) :=
  <[layer_key l ".attention.wo.weight" := [[Z.of_nat l; 1]]]>
  (<[layer_key l ".ffn_norm.weight" := [[Z.of_nat l; 2]]]>
  (<[layer_key l ".attention_norm.weight" := [[Z.of_nat l; 3]]]>
  (<[layer_key l ".feed_forward.w2.weight" := [[Z.of_nat l; 4]]]>
  (<[layer_key l ".feed_forward.w3.weight" := [[Z.of_nat l; 5]; [Z.of_nat l; 6]]]>
  (<[layer_key l ".feed_forward.w1.weight" := [[Z.of_nat l; 7]; [Z.of_nat l; 8]]]>
  (<[layer_key l ".attention.wq.weight" := numbered_rows 0 rows_q]>
  (<[layer_key l ".attention.wk.weight" := numbered_rows 10000 rows_kv]>
  (<[layer_key l ".attention.wv.weight" := numbered_rows 20000 rows_kv]> w)))))))).

Definition sample_llama_weights : gmap string (list (list Z)) :=
  foldr (sample_llama_layer 4096 4096)
    (<["tok_embeddings.weight" := [[100]]]>
     (<["norm.weight" := [[101]]]>
      (<["output.weight" := [[102]]]> ∅)))
    (seq 0 32).

(** A stand-in for [permute_qkv] that is visible in the result. *)
Definition sample_permute (t : list (list Z)) (dim n_heads n_heads_kv : Z)
    : result (list (list Z)) :=
  Ok (reverse t).

Definition sample_allclose (a b : list (list Z)) : bool := bool_decide (a = b).

Definition sample_falcon_layer (l : nat)
    (w : gmap string (list (list Z))) : gmap string (list (list Z)) :=
  <[falcon_key l ".mlp.dense_h_to_4h.weight" := [[Z.of_nat l; 1]]]>
  (<[falcon_key l ".mlp.dense_4h_to_h.weight" := [[Z.of_nat l; 2]]]>
  (<[falcon_key l ".self_attention.query_key_value.weight"
       := [[Z.of_nat l; 3]; [Z.of_nat l; 4]]]>
  (<[falcon_key l ".self_attention.dense.weight" := [[Z.of_nat l; 5]]]>
  (<[falcon_key l ".input_layernorm.weight" := [[Z.of_nat l; 6]]]>
  (<[falcon_key l ".input_layernorm.bias" := [[Z.of_nat l; 7]]]> w))))).

Definition sample_falcon_weights : gmap string (list (list Z)) :=
  foldr sample_falcon_layer
    (<["lm_head.weight" := [[100]]]>
     (<["transformer.word_embeddings.weight" := [[100]]]>
      (<["transformer.ln_f.weight" := [[101]]]>
       (<["transformer.ln_f.bias" := [[102]]]> ∅))))
    (seq 0 32).

(** Four query heads over two key-value heads, one row per head: the
    layout is [q0 q1 k0 v0 q2 q3 k1 v1]. *)
Example rearrange_qkv_grouped :
  rearrange_qkv Z sample_permute "meta" 4 4 2 1
    [[0]; [1]; [2]; [3]] [[10]; [11]] [[20]; [21]]
  = Ok [[0]; [1]; [10]; [20]; [2]; [3]; [11]; [21]].
Proof. reflexivity. Qed.

Example rearrange_qkv_grouped_hf :
  rearrange_qkv Z sample_permute "hf" 4 4 2 1
    [[0]; [1]; [2]; [3]] [[10]; [11]] [[20]; [21]]
  = Ok [[21]; [11]; [3]; [2]; [20]; [10]; [1]; [0]].
Proof. reflexivity. Qed.

(** A short [wk] fails the assertion on the number of blocks. *)
Example rearrange_qkv_short_wk :
  rearrange_qkv Z sample_permute "meta" 4 4 2 1
    [[0]; [1]; [2]; [3]] [[10]] [[20]; [21]]
  = Raise AssertionError.
Proof. reflexivity. Qed.

Lemma sample_llama_returns :
  returns (llama_to_megatron Z sample_permute sample_llama_weights 7 "hf" 2) = true.
Proof. vm_compute. reflexivity. Qed.

Lemma sample_falcon_returns :
  returns (falcon_to_megatron Z sample_permute sample_allclose
             sample_falcon_weights 7) = true.
Proof. vm_compute. reflexivity. Qed.

Lemma llama_query_key_value_layout_witness :
  exists out w' wq wk wv t,
    llama_to_megatron Z sample_permute sample_llama_weights 7 "hf" 2
      = Ok (out, w') /\
    sample_llama_weights !! "layers.31.attention.wq.weight" = Some wq /\
    sample_llama_weights !! "layers.31.attention.wk.weight" = Some wk /\
    sample_llama_weights !! "layers.31.attention.wv.weight" = Some wv /\
    transformer out !! "layers.31.attention.query_key_value.weight" = Some t /\
    sample_permute (qkv_layout 128 1 32 wq wk wv) 4096 32 32 = Ok t.
Proof.
  destruct (llama_to_megatron Z sample_permute sample_llama_weights 7 "hf" 2)
    as [[out w']|e] eqn:E.
  - destruct (llama_query_key_value_layout Z sample_permute sample_llama_weights
                w' 7 "hf" 2 out E)
      as (n_layer & hidden & n_heads & Hnl & Hhid & Hnh & Hlayers).
    vm_compute in Hnl, Hhid, Hnh.
    injection Hnl as <-. injection Hhid as <-. injection Hnh as <-.
    destruct (Hlayers 31%nat ltac:(vm_compute; lia))
      as (wq & wk & wv & qs & ks & vs & t
          & Hwq & Hwk & Hwv & _ & _ & _ & _ & _ & _ & Ht & Hperm).
    exists out, w', wq, wk, wv, t.
    split; [reflexivity|]. split; [exact Hwq|]. split; [exact Hwk|].
    split; [exact Hwv|]. split; [exact Ht|]. exact Hperm.
  - pose proof sample_llama_returns as R. rewrite E in R. discriminate R.
Defined.

Lemma llama_dense_h_to_4h_is_w3_then_w1_witness :
  exists out w',
    llama_to_megatron Z sample_permute sample_llama_weights 7 "hf" 2
      = Ok (out, w') /\
    transformer out !! "layers.9.mlp.dense_h_to_4h.weight"
    = Some [[9; 5]; [9; 6]; [9; 7]; [9; 8]].
Proof.
  destruct (llama_to_megatron Z sample_permute sample_llama_weights 7 "hf" 2)
    as [[out w']|e] eqn:E.
  - destruct (llama_dense_h_to_4h_is_w3_then_w1 Z sample_permute
                sample_llama_weights w' 7 "hf" 2 out E)
      as (n_layer & Hnl & Hlayers).
    vm_compute in Hnl. injection Hnl as <-.
    destruct (Hlayers 9%nat ltac:(vm_compute; lia)) as (w3 & w1 & Hw3 & Hw1 & Ht).
    vm_compute in Hw3, Hw1. injection Hw3 as <-. injection Hw1 as <-.
    exists out, w'. split; [reflexivity | exact Ht].
  - pose proof sample_llama_returns as R. rewrite E in R. discriminate R.
Defined.

Lemma renamed_tensors_are_copied_witness :
  exists out w' fout,
    llama_to_megatron Z sample_permute sample_llama_weights 7 "hf" 2
      = Ok (out, w') /\
    falcon_to_megatron Z sample_permute sample_allclose sample_falcon_weights 7
      = Ok fout /\
    renamed 5 ".attention.wo.weight" ".attention.dense.weight"
      sample_llama_weights (transformer out) /\
    falcon_renamed 5 ".input_layernorm.bias" ".input_layernorm.bias"
      sample_falcon_weights (transformer fout).
Proof.
  destruct (renamed_tensors_are_copied Z sample_permute sample_allclose)
    as [Hllama Hfalcon].
  destruct (llama_to_megatron Z sample_permute sample_llama_weights 7 "hf" 2)
    as [[out w']|e] eqn:E;
    [|pose proof sample_llama_returns as R; rewrite E in R; discriminate R].
  destruct (falcon_to_megatron Z sample_permute sample_allclose
              sample_falcon_weights 7) as [fout|e] eqn:F;
    [|pose proof sample_falcon_returns as R; rewrite F in R; discriminate R].
  exists out, w', fout. split; [reflexivity|]. split; [reflexivity|].
  destruct (Hllama _ _ _ _ _ _ E) as (n_layer & Hnl & _ & _ & _ & Hlayers).
  vm_compute in Hnl. injection Hnl as <-.
  destruct (Hlayers 5%nat ltac:(vm_compute; lia)) as (Hwo & _).
  split; [exact Hwo|].
  destruct (Hfalcon _ _ _ F 5%nat ltac:(vm_compute; lia)) as (_ & _ & _ & _ & Hb).
  exact Hb.
Defined.

(** *** More on [rearrange_qkv] *)

Lemma rearrange_qkv_returns_witness :
  rearrange_qkv Z sample_permute "hf" 4 4 2 1
    [[0]; [1]; [2]; [3]] [[10]; [11]] [[20]; [21]]
  = Ok [[21]; [11]; [3]; [2]; [20]; [10]; [1]; [0]].
Proof.
  apply (rearrange_qkv_returns Z sample_permute "hf" 4 4 2 1 1%nat).
  - lia.
  - lia.
  - reflexivity.
  - reflexivity.
  - reflexivity.
  - repeat constructor.
  - reflexivity.
Defined.

Section MoreTensorProperties.

Variable elt : Type.

Abbreviation tensor := (list (list elt)).

Lemma blocks_cover (t : tensor) (n : nat) :
  (0 < n)%nat ->
  forall h, (length t <= h * n)%nat ->
            concat (map (block t n) (seq 0 h)) = t.
Proof.
  intros Hn h. revert t. induction h as [|h IH]; intros t Hlen.
  - destruct t; [reflexivity | simpl in Hlen; lia].
  - simpl. rewrite <- seq_shift, map_map.
    transitivity (take n t ++ concat (map (block (drop n t) n) (seq 0 h))).
    + f_equal. f_equal. apply map_ext. intros j. unfold block.
      rewrite drop_drop. replace (S j * n)%nat with (n + j * n)%nat by lia.
      reflexivity.
    + rewrite IH; [apply take_drop|]. rewrite length_drop. lia.
Qed.

Lemma grouped_indices {A : Type} (f : nat -> A) (nq nkv : nat) :
  flat_map (fun i => map (fun j => f (i * nq + j)%nat) (seq 0 nq)) (seq 0 nkv)
  = map f (seq 0 (nkv * nq)).
Proof.
  induction nkv as [|k IH].
  - reflexivity.
  - rewrite seq_S, flat_map_app, IH. simpl. rewrite app_nil_r.
    replace (nq + k * nq)%nat with (k * nq + nq)%nat by lia.
    rewrite seq_app, map_app. f_equal. simpl.
    replace (seq (k * nq) nq) with (map (Nat.add (k * nq)) (seq 0 nq)).
    + rewrite map_map. reflexivity.
    + pose proof (fmap_add_seq (k * nq) 0 nq) as H.
      rewrite Nat.add_0_r in H. exact H.
Qed.

Lemma torch_split_blocks (t : tensor) (split_size : Z) (blocks : list tensor) :
  torch_split elt t split_size = Ok blocks ->
  blocks = map (block t (Z.to_nat split_size)) (seq 0 (length blocks)).
Proof.
  intros Hsplit. apply list_eq. intros j.
  change (@map nat tensor) with (@fmap list _ nat tensor).
  rewrite list_lookup_fmap.
  destruct (decide (j < length blocks)%nat) as [Hj|Hj].
  - rewrite lookup_seq_lt by exact Hj. simpl.
    exact (torch_split_lookup elt t split_size blocks j Hsplit Hj).
  - rewrite lookup_seq_ge by lia. simpl. apply lookup_ge_None. lia.
Qed.

Lemma grouped_rows_permutation (Q : nat -> list tensor) (K V : nat -> tensor)
    (indices : list nat) :
  concat (flat_map (fun i => Q i ++ [K i; V i]) indices)
  ≡ₚ concat (flat_map Q indices) ++ concat (map K indices)
     ++ concat (map V indices).
Proof.
  induction indices as [|i indices IH]; simpl; [reflexivity|].
  rewrite !concat_app. simpl. rewrite app_nil_r, IH. solve_Permutation.
Qed.

Section NoRowLost.

Variable permute_qkv : tensor -> Z -> Z -> Z -> result tensor.
Variable source : string.
Variables hidden n_heads n_kv_heads n_hidden_per_head : Z.

(** When [n_kv_heads] divides [n_heads] and [permute_qkv] is not applied,
    the tensor that [rearrange_qkv] returns holds every row of [wq], [wk]
    and [wv] once: it is a permutation of their rows. *)
Theorem rearrange_qkv_keeps_every_row (wq wk wv t : tensor) :
  String.eqb source "hf" = false ->
  0 < n_kv_heads ->
  n_heads = n_heads / n_kv_heads * n_kv_heads ->
  rearrange_qkv elt permute_qkv source hidden n_heads n_kv_heads
    n_hidden_per_head wq wk wv = Ok t ->
  t ≡ₚ wq ++ wk ++ wv.
Proof.
  intros Hsrc Hkv Hdiv H.
  apply rearrange_qkv_layout in H
    as ((qs & ks & vs & Hqs & Hlq & Hks & Hlk & Hvs & Hlv) & Hperm).
  unfold permute in Hperm. rewrite Hsrc in Hperm. injection Hperm as <-.
  unfold qkv_layout, qkv_groups.
  rewrite (grouped_rows_permutation
             (fun i => map (fun j => block wq (Z.to_nat n_hidden_per_head)
                                       (i * Z.to_nat (n_heads / n_kv_heads) + j))
                           (seq 0 (Z.to_nat (n_heads / n_kv_heads))))
             (block wk (Z.to_nat n_hidden_per_head))
             (block wv (Z.to_nat n_hidden_per_head))).
  rewrite (grouped_indices (block wq (Z.to_nat n_hidden_per_head))).
  assert (Hq : (Z.to_nat n_kv_heads * Z.to_nat (n_heads / n_kv_heads))%nat
               = length qs).
  { unfold len in Hlq.
    assert (0 <= n_heads / n_kv_heads) by (apply Z.div_pos; lia).
    rewrite <- Z2Nat.inj_mul by lia. rewrite Z.mul_comm, <- Hdiv. lia. }
  assert (Hk : Z.to_nat n_kv_heads = length ks) by (unfold len in Hlk; lia).
  assert (Hv : Z.to_nat n_kv_heads = length vs) by (unfold len in Hlv; lia).
  rewrite Hq. rewrite Hk at 1. rewrite Hv.
  rewrite <- (torch_split_blocks _ _ _ Hqs), <- (torch_split_blocks _ _ _ Hks),
    <- (torch_split_blocks _ _ _ Hvs).
  rewrite (torch_split_concat elt _ _ _ Hqs), (torch_split_concat elt _ _ _ Hks),
    (torch_split_concat elt _ _ _ Hvs).
  reflexivity.
Qed.

(** A [wq] whose rows make up a number of blocks other than [n_heads] is
    rejected by the assertion, before anything is concatenated. *)
Theorem rearrange_qkv_rejects_other_head_count (wq wk wv : tensor) (h : Z) :
  0 < n_hidden_per_head ->
  0 < h ->
  len wq = h * n_hidden_per_head ->
  h <> n_heads ->
  rearrange_qkv elt permute_qkv source hidden n_heads n_kv_heads
    n_hidden_per_head wq wk wv = Raise AssertionError.
Proof.
  intros Hn Hh Hlen Hne.
  destruct (torch_split_exact elt wq _ h Hn Hh Hlen) as (qs & Hqs & Hnq).
  assert (Hs : forall t, exists b, torch_split elt t n_hidden_per_head = Ok b).
  { intros t0. unfold torch_split. destruct t0; [eauto|].
    destruct (Z.leb_spec n_hidden_per_head 0); [lia | eauto]. }
  destruct (Hs wk) as [ks Hks]. destruct (Hs wv) as [vs Hvs].
  unfold rearrange_qkv. rewrite Hqs, Hks, Hvs. simpl. rewrite Hnq.
  destruct (Z.eqb_spec h n_heads); [contradiction | reflexivity].
Qed.

End NoRowLost.

End MoreTensorProperties.

Lemma rearrange_qkv_keeps_every_row_witness :
  [[0]; [1]; [10]; [20]; [2]; [3]; [11]; [21]]
  ≡ₚ [[0]; [1]; [2]; [3]] ++ [[10]; [11]] ++ [[20]; [21]].
Proof.
  apply (rearrange_qkv_keeps_every_row Z sample_permute "meta" 4 4 2 1
           [[0]; [1]; [2]; [3]] [[10]; [11]] [[20]; [21]]).
  - reflexivity.
  - lia.
  - reflexivity.
  - reflexivity.
Defined.

(** Without divisibility the last query blocks are left out: three heads
    over two key-value heads lose the third query block. *)
Example rearrange_qkv_leaves_out_blocks :
  rearrange_qkv Z sample_permute "meta" 3 3 2 1
    [[0]; [1]; [2]] [[10]; [11]] [[20]; [21]]
  = Ok [[0]; [10]; [20]; [1]; [11]; [21]].
Proof. reflexivity. Qed.

Lemma rearrange_qkv_rejects_other_head_count_witness :
  rearrange_qkv Z sample_permute "meta" 4 4 2 1
    [[0]; [1]; [2]; [3]; [4]] [[10]; [11]] [[20]; [21]]
  = Raise AssertionError.
Proof.
  apply (rearrange_qkv_rejects_other_head_count Z sample_permute "meta" 4 4 2 1
           [[0]; [1]; [2]; [3]; [4]] [[10]; [11]] [[20]; [21]] 5).
  - lia.
  - lia.
  - reflexivity.
  - lia.
Defined.

(** *** Keys *)

(** The keys built for the layers never collide: two keys
    [f"layers.{l}.{r}"] (or two keys [f"transformer.h.{l}.{r}"]) are equal
    only for the same layer and the same rest, and no layer key is one of
    the keys outside the layers. *)
Theorem layer_keys_are_distinct (l l' : nat) (r r' : string) :
  (layer_key l (String "." r) = layer_key l' (String "." r') <-> l = l' /\ r = r') /\
  (falcon_key l (String "." r) = falcon_key l' (String "." r')
   <-> l = l' /\ r = r') /\
  layer_key l (String "." r) <> "final_layernorm.weight" /\
  layer_key l (String "." r) <> "final_layernorm.bias" /\
  layer_key l (String "." r) <> "word_embeddings.weight".
Proof.
  split; [|split].
  - split; [apply layer_key_inj | intros [-> ->]; reflexivity].
  - split; [apply falcon_key_inj | intros [-> ->]; reflexivity].
  - repeat split; unfold layer_key; simpl; discriminate.
Qed.

(** *** What the llama conversion writes and deletes *)

(** The keys that iteration [l] writes in [transformer] and the keys that
    it deletes from [weights]. *)
Definition llama_written (l : nat) : list string :=
  [layer_key l ".attention.dense.weight";
   layer_key l ".post_attention_layernorm.weight";
   layer_key l ".input_layernorm.weight";
   layer_key l ".mlp.dense_4h_to_h.weight";
   layer_key l ".mlp.dense_h_to_4h.weight";
   layer_key l ".attention.query_key_value.weight"].

Definition llama_deleted (l : nat) : list string :=
  [layer_key l ".feed_forward.w3.weight";
   layer_key l ".feed_forward.w1.weight";
   layer_key l ".attention.wq.weight";
   layer_key l ".attention.wk.weight";
   layer_key l ".attention.wv.weight"].

Section LlamaExact.

Variable elt : Type.
Variable permute_qkv : list (list elt) -> Z -> Z -> Z -> result (list (list elt)).
Variable source : string.
Variables hidden n_heads n_kv_heads n_hidden_per_head : Z.

Lemma llama_layer_exact (l : nat) (tr w tr' w' : gmap string (list (list elt))) :
  llama_layer elt permute_qkv source hidden n_heads n_kv_heads
    n_hidden_per_head l (tr, w) = Ok (tr', w') ->
  (forall k, k ∉ llama_written l -> tr' !! k = tr !! k) /\
  (forall k, k ∈ llama_deleted l -> w' !! k = None) /\
  (forall k, k ∉ llama_deleted l -> w' !! k = w !! k).
Proof.
  unfold llama_layer. intros H.
  apply bind_Ok in H as (wo & _ & H).
  apply bind_Ok in H as (ffn & _ & H).
  apply bind_Ok in H as (an & _ & H).
  apply bind_Ok in H as (w2 & _ & H).
  apply bind_Ok in H as (w3 & _ & H).
  apply bind_Ok in H as (w1 & _ & H).
  apply bind_Ok in H as (h4 & _ & H).
  apply bind_Ok in H as (wq & _ & H).
  apply bind_Ok in H as (wk & _ & H).
  apply bind_Ok in H as (wv & _ & H).
  apply bind_Ok in H as (qkv & _ & H).
  apply bind_Ok in H as (d1 & Hd1 & H). apply delitem_Ok in Hd1.
  apply bind_Ok in H as (d2 & Hd2 & H). apply delitem_Ok in Hd2.
  apply bind_Ok in H as (d3 & Hd3 & H). apply delitem_Ok in Hd3.
  apply bind_Ok in H as (d4 & Hd4 & H). apply delitem_Ok in Hd4.
  apply bind_Ok in H as (d5 & Hd5 & H). apply delitem_Ok in Hd5.
  injection H as <- <-. subst d5 d4 d3 d2 d1.
  split; [|split].
  - intros k Hk. unfold llama_written in Hk.
    repeat (apply not_elem_of_cons in Hk as [? Hk]).
    rewrite !lookup_insert_ne by congruence. reflexivity.
  - intros k Hk. unfold llama_deleted in Hk.
    repeat (apply elem_of_cons in Hk as [->|Hk]); [..|inversion Hk].
    all: repeat first [ rewrite lookup_delete_eq; reflexivity
                      | rewrite lookup_delete_ne by key_neq ].
  - intros k Hk. unfold llama_deleted in Hk.
    repeat (apply not_elem_of_cons in Hk as [? Hk]).
    rewrite !lookup_delete_ne by congruence. reflexivity.
Qed.

Lemma llama_loop_exact (layers : list nat) :
  forall (tr w tr' w' : gmap string (list (list elt))),
    for_each
      (llama_layer elt permute_qkv source hidden n_heads n_kv_heads
         n_hidden_per_head)
      layers (tr, w) = Ok (tr', w') ->
    (forall k, k ∉ flat_map llama_written layers -> tr' !! k = tr !! k) /\
    (forall k, k ∈ flat_map llama_deleted layers -> w' !! k = None) /\
    (forall k, k ∉ flat_map llama_deleted layers -> w' !! k = w !! k).
Proof.
  induction layers as [|l0 rest IH]; intros tr w tr' w' H.
  - injection H as <- <-. repeat split; auto. intros k Hk. inversion Hk.
  - simpl in H. apply bind_Ok in H as ([tr1 w1] & Hbody & H).
    apply llama_layer_exact in Hbody as (Htr1 & Hdel1 & Hw1).
    destruct (IH _ _ _ _ H) as (IHtr & IHdel & IHw).
    split; [|split]; intros k Hk; cbn [flat_map] in Hk.
    + apply not_elem_of_app in Hk as [Hk0 Hk].
      rewrite IHtr by exact Hk. apply Htr1. exact Hk0.
    + destruct (decide (k ∈ flat_map llama_deleted rest)) as [Hin|Hnin].
      * apply IHdel. exact Hin.
      * apply elem_of_app in Hk as [Hk|Hk]; [|contradiction].
        rewrite IHw by exact Hnin. apply Hdel1. exact Hk.
    + apply not_elem_of_app in Hk as [Hk0 Hk].
      rewrite IHw by exact Hk. apply Hw1. exact Hk0.
Qed.

End LlamaExact.

Lemma llama_leftover_weights (elt : Type)
    (permute_qkv : list (list elt) -> Z -> Z -> Z -> result (list (list elt)))
    (weights weights' : gmap string (list (list elt)))
    (size : Z) (source : string) (version : Z)
    (out : megatron_weights (list (list elt))) :
  llama_to_megatron elt permute_qkv weights size source version
    = Ok (out, weights') ->
  exists n_layer,
    llama_s2layer !! size = Some n_layer /\
    forall k,
      weights' !! k
      = if decide (k ∈ flat_map llama_deleted (range n_layer))
        then None else weights !! k.
Proof.
  unfold llama_to_megatron. intros H.
  apply bind_Ok in H as (n_layer & Hnl & H). apply table_getitem_Ok in Hnl.
  apply bind_Ok in H as (hidden & _ & H).
  apply bind_Ok in H as (n_heads & _ & H).
  apply bind_Ok in H as (tok & _ & H).
  apply bind_Ok in H as (norm & _ & H).
  apply bind_Ok in H as (head & _ & H).
  apply bind_Ok in H as ([tr' w'] & Hloop & H). injection H as _ <-.
  apply llama_loop_exact in Hloop as (_ & Hdel & Hkeep).
  exists n_layer. split; [exact Hnl|]. intros k.
  destruct (decide _) as [Hin|Hnin]; [apply Hdel | apply Hkeep]; assumption.
Qed.

(** When [llama_to_megatron] returns, [transformer] holds
    ["final_layernorm.weight"] and the six keys of every converted layer,
    and no other key; [embedding] holds ["word_embeddings.weight"] alone. *)
Theorem llama_to_megatron_output_keys (elt : Type)
    (permute_qkv : list (list elt) -> Z -> Z -> Z -> result (list (list elt)))
    (weights weights' : gmap string (list (list elt)))
    (size : Z) (source : string) (version : Z)
    (out : megatron_weights (list (list elt))) :
  llama_to_megatron elt permute_qkv weights size source version
    = Ok (out, weights') ->
  exists n_layer,
    llama_s2layer !! size = Some n_layer /\
    (forall k,
        is_Some (transformer out !! k)
        <-> k = "final_layernorm.weight"
            \/ k ∈ flat_map llama_written (range n_layer)) /\
    (forall k,
        is_Some (embedding out !! k) <-> k = "word_embeddings.weight").
Proof.
  intros H. pose proof H as Hspec.
  apply llama_to_megatron_spec in Hspec
    as (n_layer & hidden & n_heads & Hnl & _ & _ & _ & Hnorm & _ & Hlayers).
  unfold llama_to_megatron in H.
  apply bind_Ok in H as (n_layer' & Hnl' & H). apply table_getitem_Ok in Hnl'.
  assert (n_layer' = n_layer) by congruence. subst n_layer'.
  apply bind_Ok in H as (hidden' & _ & H).
  apply bind_Ok in H as (n_heads' & _ & H).
  apply bind_Ok in H as (tok & _ & H).
  apply bind_Ok in H as (norm & _ & H).
  apply bind_Ok in H as (head & _ & H).
  apply bind_Ok in H as ([tr' w'] & Hloop & H). injection H as <- _.
  apply llama_loop_exact in Hloop as (Hframe & _ & _).
  exists n_layer. split; [exact Hnl|]. simpl. split.
  - intros k. split.
    + intros Hsome.
      destruct (decide (k ∈ flat_map llama_written (range n_layer)))
        as [Hin|Hnin]; [right; exact Hin|].
      left. rewrite (Hframe k Hnin) in Hsome.
      destruct (decide (k = "final_layernorm.weight")) as [->|Hne];
        [reflexivity|].
      rewrite lookup_singleton_ne in Hsome by congruence.
      destruct Hsome as [x Hx]. discriminate Hx.
    + intros [->|Hin].
      * destruct Hnorm as (t & _ & Ht). simpl in Ht. eauto.
      * apply list_elem_of_In, in_flat_map in Hin as (l & Hl & Hk).
        apply in_seq in Hl. specialize (Hlayers l ltac:(lia)). simpl in Hlayers.
        destruct Hlayers
          as ((t1 & _ & H1) & (t2 & _ & H2) & (t3 & _ & H3) & (t4 & _ & H4)
              & (? & ? & t5 & _ & _ & _ & H5)
              & (? & ? & ? & t6 & _ & _ & _ & _ & H6)).
        unfold llama_written in Hk. simpl in Hk.
        destruct Hk as [<-|[<-|[<-|[<-|[<-|[<-|[]]]]]]]; eauto.
  - intros k. split.
    + intros [x Hx]. destruct (decide (k = "word_embeddings.weight")) as [->|Hne];
        [reflexivity|].
      rewrite lookup_singleton_ne in Hx by congruence. discriminate Hx.
    + intros ->. rewrite lookup_singleton_eq. eauto.
Qed.

(** When [llama_to_megatron] returns, the dictionary it was given has lost
    the [w3], [w1], [wq], [wk] and [wv] tensors of every converted layer and
    kept every other entry as it was. *)
Theorem llama_to_megatron_empties_input (elt : Type)
    (permute_qkv : list (list elt) -> Z -> Z -> Z -> result (list (list elt)))
    (weights weights' : gmap string (list (list elt)))
    (size : Z) (source : string) (version : Z)
    (out : megatron_weights (list (list elt))) :
  llama_to_megatron elt permute_qkv weights size source version
    = Ok (out, weights') ->
  exists n_layer,
    llama_s2layer !! size = Some n_layer /\
    forall k,
      weights' !! k
      = if decide (k ∈ flat_map llama_deleted (range n_layer))
        then None else weights !! k.
Proof. apply llama_leftover_weights. Qed.

Lemma llama_to_megatron_empties_input_witness :
  exists out w',
    llama_to_megatron Z sample_permute sample_llama_weights 7 "hf" 2
      = Ok (out, w') /\
    sample_llama_weights !! "layers.3.attention.wq.weight"
      = Some (numbered_rows 0 4096) /\
    w' !! "layers.3.attention.wq.weight" = None /\
    w' !! "layers.3.attention.wo.weight" = Some [[3; 1]] /\
    w' !! "output.weight" = Some [[102]].
Proof.
  destruct (llama_to_megatron Z sample_permute sample_llama_weights 7 "hf" 2)
    as [[out w']|e] eqn:E.
  - destruct (llama_to_megatron_empties_input Z sample_permute
                sample_llama_weights w' 7 "hf" 2 out E) as (n_layer & Hnl & Hw).
    vm_compute in Hnl. injection Hnl as <-.
    exists out, w'. split; [reflexivity|].
    split; [vm_compute; reflexivity|].
    split; [|split].
    + rewrite Hw. rewrite decide_True; [reflexivity|].
      apply (bool_decide_unpack _). vm_compute. exact I.
    + rewrite Hw. rewrite decide_False; [vm_compute; reflexivity|].
      apply (bool_decide_eq_false_1 _). vm_compute. reflexivity.
    + rewrite Hw. rewrite decide_False; [vm_compute; reflexivity|].
      apply (bool_decide_eq_false_1 _). vm_compute. reflexivity.
  - pose proof sample_llama_returns as R. rewrite E in R. discriminate R.
Defined.

Lemma llama_to_megatron_output_keys_witness :
  exists out w',
    llama_to_megatron Z sample_permute sample_llama_weights 7 "hf" 2
      = Ok (out, w') /\
    is_Some (transformer out !! "layers.31.mlp.dense_h_to_4h.weight") /\
    transformer out !! "layers.31.feed_forward.w3.weight" = None /\
    transformer out !! "layers.32.attention.dense.weight" = None /\
    embedding out !! "tok_embeddings.weight" = None.
Proof.
  destruct (llama_to_megatron Z sample_permute sample_llama_weights 7 "hf" 2)
    as [[out w']|e] eqn:E.
  - destruct (llama_to_megatron_output_keys Z sample_permute
                sample_llama_weights w' 7 "hf" 2 out E)
      as (n_layer & Hnl & Htr & Hemb).
    vm_compute in Hnl. injection Hnl as <-.
    exists out, w'. split; [reflexivity|].
    split; [|split; [|split]].
    + apply Htr. right. apply (bool_decide_unpack _). vm_compute. exact I.
    + apply eq_None_not_Some. intros Hs. apply Htr in Hs as [Hs|Hs].
      * discriminate Hs.
      * revert Hs. apply (bool_decide_eq_false_1 _). vm_compute. reflexivity.
    + apply eq_None_not_Some. intros Hs. apply Htr in Hs as [Hs|Hs].
      * discriminate Hs.
      * revert Hs. apply (bool_decide_eq_false_1 _). vm_compute. reflexivity.
    + apply eq_None_not_Some. intros Hs. apply Hemb in Hs. discriminate Hs.
  - pose proof sample_llama_returns as R. rewrite E in R. discriminate R.
Defined.

(** *** Errors of the llama conversion *)

Lemma llama_s2layer_sizes (size n_layer : Z) :
  llama_s2layer !! size = Some n_layer ->
  size ∈ [7; 13; 30; 65; 70] /\ 0 < n_layer.
Proof.
  unfold llama_s2layer. intros H. apply elem_of_list_to_map_2 in H.
  repeat (apply elem_of_cons in H as [H|H];
          [injection H as -> ->; split; [set_solver | lia]|]).
  inversion H.
Qed.

(** A size outside the four tables is a [KeyError] on the size, whatever
    the checkpoint holds. *)
Theorem llama_to_megatron_unknown_size (elt : Type)
    (permute_qkv : list (list elt) -> Z -> Z -> Z -> result (list (list elt)))
    (weights : gmap string (list (list elt)))
    (size : Z) (source : string) (version : Z) :
  size ∉ [7; 13; 30; 65; 70] ->
  llama_to_megatron elt permute_qkv weights size source version
  = Raise (KeyError (pretty size)).
Proof.
  intros Hsize. unfold llama_to_megatron, table_getitem.
  destruct (llama_s2layer !! size) as [n|] eqn:Hnl; [|reflexivity].
  apply llama_s2layer_sizes in Hnl as [Hin _]. contradiction.
Qed.

Lemma llama_to_megatron_unknown_size_witness :
  (34 ∉ [7; 13; 30; 65; 70]) /\
  llama_to_megatron Z sample_permute sample_llama_weights 34 "meta" 1
  = Raise (KeyError "34").
Proof.
  assert (H : 34 ∉ [7; 13; 30; 65; 70]).
  { apply (bool_decide_eq_false_1 _). vm_compute. reflexivity. }
  split; [exact H|].
  exact (llama_to_megatron_unknown_size Z sample_permute sample_llama_weights
           34 "meta" 1 H).
Defined.

Lemma not_deleted (k : string) (layers : list nat) :
  (forall l, k ∉ llama_deleted l) -> k ∉ flat_map llama_deleted layers.
Proof.
  intros Hk. induction layers as [|l rest IH]; cbn [flat_map].
  - apply not_elem_of_nil.
  - apply not_elem_of_app. split; [apply Hk | exact IH].
Qed.

Ltac not_deleted_key :=
  apply not_deleted; intros ?; unfold llama_deleted;
  rewrite !not_elem_of_cons; repeat split; try key_neq; apply not_elem_of_nil.

(** A dictionary that [llama_to_megatron] has converted cannot be converted
    again: the second call stops at the first deleted tensor of layer 0. *)
Theorem llama_to_megatron_not_repeatable (elt : Type)
    (permute_qkv : list (list elt) -> Z -> Z -> Z -> result (list (list elt)))
    (weights weights' : gmap string (list (list elt)))
    (size : Z) (source source2 : string) (version version2 : Z)
    (out : megatron_weights (list (list elt))) :
  llama_to_megatron elt permute_qkv weights size source version
    = Ok (out, weights') ->
  llama_to_megatron elt permute_qkv weights' size source2 version2
  = Raise (KeyError "layers.0.feed_forward.w3.weight").
Proof.
  intros H.
  destruct (llama_to_megatron_spec _ _ _ _ _ _ _ _ H)
    as (n_layer & hidden & n_heads & Hnl & Hhid & Hnh
        & (t1 & Htok & _) & (t2 & Hnorm & _) & (t3 & Hout & _) & Hlayers).
  destruct (llama_leftover_weights _ _ _ _ _ _ _ _ H) as (n & Hn & Hw).
  assert (n = n_layer) by congruence. subst n. clear Hn.
  destruct (llama_s2layer_sizes _ _ Hnl) as [_ Hpos].
  destruct (Hlayers 0%nat ltac:(lia))
    as ((wo & Hwo & _) & (fn & Hfn & _) & (an & Han & _) & (w2 & Hw2 & _) & _).
  assert (Hkeep : forall k, k ∉ flat_map llama_deleted (range n_layer) ->
                            weights' !! k = weights !! k).
  { intros k Hk. rewrite Hw. rewrite decide_False by exact Hk. reflexivity. }
  assert (Hgone : weights' !! layer_key 0 ".feed_forward.w3.weight" = None).
  { rewrite Hw. rewrite decide_True; [reflexivity|].
    unfold range. destruct (Z.to_nat n_layer) as [|m] eqn:Hm; [lia|].
    cbn [seq flat_map]. apply elem_of_app. left.
    unfold llama_deleted. apply elem_of_cons. left. reflexivity. }
  assert (Hget : forall k t, k ∉ flat_map llama_deleted (range n_layer) ->
                        weights !! k = Some t -> getitem weights' k = Ok t).
  { intros k t Hk Ht. apply getitem_Ok. rewrite Hkeep by exact Hk. exact Ht. }
  assert (Hlayer : forall n_kv tr,
             llama_layer elt permute_qkv source2 hidden n_heads n_kv
               (hidden / n_heads) 0 (tr, weights')
             = Raise (KeyError "layers.0.feed_forward.w3.weight")).
  { intros n_kv tr. unfold llama_layer.
    rewrite (Hget (layer_key 0 ".attention.wo.weight") wo)
      by first [exact Hwo | not_deleted_key].
    rewrite (Hget (layer_key 0 ".ffn_norm.weight") fn)
      by first [exact Hfn | not_deleted_key].
    rewrite (Hget (layer_key 0 ".attention_norm.weight") an)
      by first [exact Han | not_deleted_key].
    rewrite (Hget (layer_key 0 ".feed_forward.w2.weight") w2)
      by first [exact Hw2 | not_deleted_key].
    cbn [mbind result_bind].
    replace (getitem weights' (layer_key 0 ".feed_forward.w3.weight"))
      with (@Raise (list (list elt))
              (KeyError (layer_key 0 ".feed_forward.w3.weight")))
      by (unfold getitem; rewrite Hgone; reflexivity).
    reflexivity. }
  unfold llama_to_megatron, table_getitem. rewrite Hnl, Hhid, Hnh.
  cbn [mbind result_bind].
  rewrite (Hget "tok_embeddings.weight" t1) by first [exact Htok | not_deleted_key].
  rewrite (Hget "norm.weight" t2) by first [exact Hnorm | not_deleted_key].
  rewrite (Hget "output.weight" t3) by first [exact Hout | not_deleted_key].
  cbn [mbind result_bind].
  unfold range. destruct (Z.to_nat n_layer) as [|m] eqn:Hm; [lia|].
  cbn [seq for_each]. rewrite Hlayer. reflexivity.
Qed.

Lemma llama_to_megatron_not_repeatable_witness :
  exists out w',
    llama_to_megatron Z sample_permute sample_llama_weights 7 "hf" 2
      = Ok (out, w') /\
    llama_to_megatron Z sample_permute w' 7 "hf" 2
      = Raise (KeyError "layers.0.feed_forward.w3.weight").
Proof.
  destruct (llama_to_megatron Z sample_permute sample_llama_weights 7 "hf" 2)
    as [[out w']|e] eqn:E.
  - exists out, w'. split; [reflexivity|].
    exact (llama_to_megatron_not_repeatable Z sample_permute
             sample_llama_weights w' 7 "hf" "hf" 2 2 out E).
  - pose proof sample_llama_returns as R. rewrite E in R. discriminate R.
Defined.

(** *** The falcon conversion *)

(** When [falcon_to_megatron] returns, [lm_head.weight] and the word
    embeddings passed [torch.allclose], the result has no [lm_head] entry,
    and the query-key-value tensor of every layer is [permute_qkv] of the
    input tensor at the configuration of the size: 4544, 71, 1 for size 7
    and 8192, 128, 8 for every other size. *)
Theorem falcon_query_key_value_permuted (elt : Type)
    (permute_qkv : list (list elt) -> Z -> Z -> Z -> result (list (list elt)))
    (allclose : list (list elt) -> list (list elt) -> bool)
    (weights : gmap string (list (list elt))) (size : Z)
    (out : megatron_weights (list (list elt))) :
  falcon_to_megatron elt permute_qkv allclose weights size = Ok out ->
  (exists head we,
      weights !! "lm_head.weight" = Some head /\
      weights !! "transformer.word_embeddings.weight" = Some we /\
      allclose head we = true) /\
  lm_head out = None /\
  let n_layer := if size =? 7 then 32 else 60 in
  let dim := if size =? 7 then 4544 else 8192 in
  let n_heads := if size =? 7 then 71 else 128 in
  let n_heads_kv := if size =? 7 then 1 else 8 in
  forall l, (l < Z.to_nat n_layer)%nat ->
    exists qkv_w t,
      weights !! falcon_key l ".self_attention.query_key_value.weight"
        = Some qkv_w /\
      permute_qkv qkv_w dim n_heads n_heads_kv = Ok t /\
      transformer out !! layer_key l ".attention.query_key_value.weight"
        = Some t.
Proof.
  intros H. pose proof H as Hspec.
  apply falcon_to_megatron_spec in Hspec. unfold falcon_config in Hspec.
  unfold falcon_to_megatron in H.
  split; [|split].
  - destruct (size =? 7).
    all: apply bind_Ok in H as (head & Hhead & H); apply getitem_Ok in Hhead.
    all: apply bind_Ok in H as (we & Hwe & H); apply getitem_Ok in Hwe.
    all: apply bind_Ok in H as ([] & Hclose & _); apply assert_Ok in Hclose.
    all: exists head, we; auto.
  - destruct (size =? 7).
    all: apply bind_Ok in H as (head & _ & H).
    all: apply bind_Ok in H as (we & _ & H).
    all: apply bind_Ok in H as ([] & _ & H).
    all: apply bind_Ok in H as (we' & _ & H).
    all: apply bind_Ok in H as (lw & _ & H).
    all: apply bind_Ok in H as (lb & _ & H).
    all: apply bind_Ok in H as (tr' & _ & H); injection H as <-.
    all: reflexivity.
  - intros n_layer dim n_heads n_heads_kv l Hl.
    subst n_layer dim n_heads n_heads_kv.
    destruct (size =? 7).
    all: destruct Hspec as (_ & _ & _ & Hlayers).
    all: destruct (Hlayers l Hl) as (_ & _ & _ & Hqkv & _); exact Hqkv.
Qed.

Lemma falcon_query_key_value_permuted_witness :
  exists out,
    falcon_to_megatron Z sample_permute sample_allclose sample_falcon_weights 7
      = Ok out /\
    lm_head out = None /\
    transformer out !! "layers.4.attention.query_key_value.weight"
      = Some [[4; 4]; [4; 3]].
Proof.
  destruct (falcon_to_megatron Z sample_permute sample_allclose
              sample_falcon_weights 7) as [out|e] eqn:F.
  - destruct (falcon_query_key_value_permuted Z sample_permute sample_allclose
                sample_falcon_weights 7 out F) as (_ & Hhead & Hlayers).
    exists out. split; [reflexivity|]. split; [exact Hhead|].
    destruct (Hlayers 4%nat ltac:(vm_compute; lia)) as (q & t & Hq & Ht & Htr).
    vm_compute in Hq. injection Hq as <-.
    vm_compute in Ht. injection Ht as <-. exact Htr.
  - pose proof sample_falcon_returns as R. rewrite F in R. discriminate R.
Defined.

(** *** The arguments that [main] saves with the weights *)

(** The values of the dictionary [args]. *)
Inductive pyvalue : Type :=
| PInt (z : Z)
| PBool (b : bool)
| PStr (s : string)
| PFloat (f : float).

(** [d.update(new)] *)
Definition update (d new : gmap string pyvalue) : gmap string pyvalue :=
  new ∪ d.

#[local] Set Warnings "-inexact-float".

(** The dictionary [args] that [main] builds from the model name and the
    size, once the weights are converted. *)
Definition main_args (model_name : string) (size : Z)
    : result (gmap string pyvalue) :=
  args ←
    (if String.eqb model_name "falcon" then
       let args : gmap string pyvalue :=
         if size =? 7 then
           list_to_map [("num_layers", PInt 32); ("hidden_size", PInt 4544);
                        ("num_attention_heads", PInt 71);
                        ("num_attention_heads_kv", PInt 1)]
         else
           list_to_map [("num_layers", PInt 60); ("hidden_size", PInt 8192);
                        ("num_attention_heads", PInt 128);
                        ("num_attention_heads_kv", PInt 8);
                        ("parallel_layernorm", PBool true)] in
       Ok (update args
             (list_to_map [("tokenizer_type", PStr "FalconTokenizer");
                           ("use_flash_attn", PBool true);
                           ("hidden_dropout", PFloat 0%float);
                           ("parallel_attn", PBool true);
                           ("max_position_embeddings", PInt 2048);
                           ("seq_length", PInt 2048)]))
     else
       num_layers ← table_getitem llama_s2layer size;
       hidden_size ← table_getitem llama_s2hidden size;
       num_attention_heads ← table_getitem llama_s2heads size;
       ffn_hidden_size ← table_getitem llama_s2dense size;
       let args : gmap string pyvalue :=
         list_to_map [("num_layers", PInt num_layers);
                      ("hidden_size", PInt hidden_size);
                      ("num_attention_heads", PInt num_attention_heads);
                      ("ffn_hidden_size", PInt ffn_hidden_size);
                      ("parallel_attn", PBool false);
                      ("make_vocab_size_divisible_by", PInt 1);
                      ("glu_activation", PStr "swiglu");
                      ("padded_vocab_size", PInt 32000);
                      ("use_rms_norm", PBool true);
                      ("tie_embed_logits", PBool false);
                      ("tokenizer_type", PStr "SentencePieceTokenizer")] in
       if String.eqb model_name "llama" then
         Ok (update args
               (list_to_map [("max_position_embeddings", PInt 2048);
                             ("seq_length", PInt 2048);
                             ("layernorm_epsilon", PFloat 1e-6%float)]))
       else
         let args :=
           update args
             (list_to_map [("max_position_embeddings", PInt 4096);
                           ("seq_length", PInt 4096);
                           ("layernorm_epsilon", PFloat 1e-5%float)]) in
         if 34 <=? size
         then Ok (update args (list_to_map [("num_attention_heads_kv", PInt 8)]))
         else Ok args);
  mret (update args
          (list_to_map [("tensor_model_parallel_size", PInt 1);
                        ("pipeline_model_parallel_size", PInt 1);
                        ("iteration", PStr "release");
                        ("bias_gelu_fusion", PBool false);
                        ("bias_droput_fusion", PBool false);
                        ("position_embedding_type", PStr "rotary")])).

(** [version=1 if model_name == "llama" else 2], as [main] calls
    [llama_to_megatron]. *)
Definition main_version (model_name : string) : Z :=
  if String.eqb model_name "llama" then 1 else 2.

(** The argument verification of the command line. *)
Definition size_verification (model : string) (size : Z) : result unit :=
  if String.eqb model "falcon" then
    assert ((size =? 7) || (size =? 40))
  else if String.eqb model "llama" then
    assert ((size =? 7) || (size =? 13) || (size =? 30) || (size =? 65))
  else
    assert ((size =? 7) || (size =? 13) || (size =? 70)).

(** Reading a dictionary literal and an updated dictionary. *)
Fixpoint assoc {V : Type} (k : string) (l : list (string * V)) : option V :=
  match l with
  | [] => None
  | (k', v) :: l' => if String.eqb k k' then Some v else assoc k l'
  end.

Lemma lookup_list_to_map {V : Type} (l : list (string * V)) (k : string) :
  (list_to_map l : gmap string V) !! k = assoc k l.
Proof.
  induction l as [|[k' v] l IH]; [apply lookup_empty|].
  rewrite list_to_map_cons. cbn [assoc fst snd].
  destruct (String.eqb_spec k k') as [->|Hne].
  - apply lookup_insert_eq.
  - rewrite lookup_insert_ne by congruence. exact IH.
Qed.

Lemma lookup_update (d new : gmap string pyvalue) (k : string) :
  update d new !! k
  = match new !! k with
    | Some v => Some v
    | None => d !! k
    end.
Proof.
  unfold update. rewrite lookup_union.
  destruct (new !! k), (d !! k); reflexivity.
Qed.

Ltac eval_tables :=
  repeat match goal with
    | |- context [table_getitem ?t ?s] =>
        let v := eval vm_compute in (table_getitem t s) in
        replace (table_getitem t s) with v by (vm_compute; reflexivity)
    end.

Ltac tables_exist s :=
  let n := eval vm_compute in (llama_s2layer !! s) in
  let h := eval vm_compute in (llama_s2hidden !! s) in
  let a := eval vm_compute in (llama_s2heads !! s) in
  match constr:((n, h, a)) with
  | (Some ?n', Some ?h', Some ?a') => exists n', h', a'
  end.

Ltac args_lookup :=
  rewrite ?lookup_update, ?lookup_list_to_map; vm_compute; reflexivity.

(** For every model and size that pass the argument verification of the
    command line, the saved [args] agree with the configuration that the
    conversion used: layers, hidden size and heads are the same numbers, and
    [num_attention_heads_kv], when saved, is the number of key-value heads
    of the conversion; when it is not saved, the conversion used as many
    key-value heads as heads. *)
Theorem saved_args_match_conversion (model : string) (size : Z) :
  size_verification model size = Ok tt ->
  exists args,
    main_args model size = Ok args /\
    if String.eqb model "falcon" then
      args !! "num_layers" = Some (PInt (if size =? 7 then 32 else 60)) /\
      args !! "hidden_size" = Some (PInt (if size =? 7 then 4544 else 8192)) /\
      args !! "num_attention_heads"
        = Some (PInt (if size =? 7 then 71 else 128)) /\
      args !! "num_attention_heads_kv"
        = Some (PInt (if size =? 7 then 1 else 8))
    else
      exists n_layer hidden n_heads,
        llama_s2layer !! size = Some n_layer /\
        llama_s2hidden !! size = Some hidden /\
        llama_s2heads !! size = Some n_heads /\
        args !! "num_layers" = Some (PInt n_layer) /\
        args !! "hidden_size" = Some (PInt hidden) /\
        args !! "num_attention_heads" = Some (PInt n_heads) /\
        match args !! "num_attention_heads_kv" with
        | Some v => v = PInt (llama_n_kv_heads size (main_version model) n_heads)
        | None => llama_n_kv_heads size (main_version model) n_heads = n_heads
        end.
Proof.
  unfold size_verification, main_args, main_version.
  destruct (String.eqb model "falcon") eqn:Hf;
    [|destruct (String.eqb model "llama") eqn:Hl].
  all: intros H; apply assert_Ok in H.
  all: repeat (apply orb_prop in H as [H|H]).
  all: apply Z.eqb_eq in H; subst size.
  all: eval_tables.
  all: cbn [mbind result_bind mret result_ret].
  all: simpl (_ =? _); simpl (_ <=? _); cbv beta iota zeta.
  all: eexists; (split; [reflexivity|]).
  1-2: repeat split; args_lookup.
  all: match goal with
       | |- context [llama_s2layer !! ?s] => tables_exist s
       end.
  all: split; [vm_compute; reflexivity|].
  all: split; [vm_compute; reflexivity|].
  all: split; [vm_compute; reflexivity|].
  all: split; [args_lookup|].
  all: split; [args_lookup|].
  all: split; [args_lookup|].
  all: rewrite ?lookup_update, ?lookup_list_to_map; vm_compute; reflexivity.
Qed.

Lemma saved_args_match_conversion_witness :
  exists args,
    size_verification "llama2" 70 = Ok tt /\
    main_args "llama2" 70 = Ok args /\
    args !! "num_attention_heads" = Some (PInt 64) /\
    match args !! "num_attention_heads_kv" with
    | Some v => v = PInt 8
    | None => 8 = 64
    end.
Proof.
  destruct (saved_args_match_conversion "llama2" 70 eq_refl)
    as (args & Hargs & n_layer & hidden & n_heads & _ & _ & Hnh & _ & _ & Hheads & Hkv).
  vm_compute in Hnh. injection Hnh as <-.
  exists args. split; [reflexivity|]. split; [exact Hargs|].
  split; [exact Hheads|]. exact Hkv.
Defined.

(** [main] itself accepts a size that the command line rejects: for llama2
    at size 30 the conversion uses 8 key-value heads for 52 heads, and the
    saved [args] have no [num_attention_heads_kv]. *)
Example llama2_30_args :
  size_verification "llama2" 30 = Raise AssertionError /\
  llama_n_kv_heads 30 (main_version "llama2") 52 = 8 /\
  exists args,
    main_args "llama2" 30 = Ok args /\
    args !! "num_attention_heads" = Some (PInt 52) /\
    args !! "num_attention_heads_kv" = None.
Proof.
  split; [reflexivity|]. split; [reflexivity|].
  unfold main_args. eval_tables.
  cbn [mbind result_bind mret result_ret String.eqb Ascii.eqb Bool.eqb].
  simpl (_ <=? _). cbv beta iota zeta.
  eexists. split; [reflexivity|]. split; args_lookup.
Qed.

End Weights2Megatron.

(** ** [tests/test_llama_weights.py] *)

Module TestLlamaWeights.

(** What a finished subprocess leaves: the lines of its standard output as
    [execute] yields them (already stripped) and its exit status. *)
Record completed_process : Type := mkProcess {
  stdout_lines : list string;
  returncode : Z
}.

Definition is_digit (c : ascii) : bool :=
  let n := nat_of_ascii c in (48 <=? n)%nat && (n <=? 57)%nat.

(** The longest run of digits at the head of [s], and what follows it. *)
Fixpoint span_digits (s : string) : string * string :=
  match s with
  | EmptyString => (EmptyString, EmptyString)
  | String c s' =>
      if is_digit c
      then let '(d, r) := span_digits s' in (String c d, r)
      else (EmptyString, s)
  end.

(** [([0-9]+\.[0-9]+)] at the head of [s]: the text of the group. *)
Definition match_number (s : string) : option string :=
  let '(int_part, r) := span_digits s in
  match int_part, r with
  | String _ _, String "." r' =>
      match span_digits r' with
      | (String c d, _) => Some (int_part +:+ "." +:+ String c d)
      | _ => None
      end
  | _, _ => None
  end.

(** [max=([0-9]+\.[0-9]+)] at the head of [s]. *)
Definition match_max_here (s : string) : option string :=
  match s with
  | String "m" (String "a" (String "x" (String "=" r))) => match_number r
  | _ => None
  end.

(** [re.match(r"^.*max=([0-9]+\.[0-9]+).*$", line)], as [group(1)]: the
    leading [.*] is greedy, so the last place where the rest matches wins. *)
Fixpoint match_max (line : string) : option string :=
  match line with
  | EmptyString => None
  | String c line' =>
      match match_max line' with
      | Some g => Some g
      | None => match_max_here line
      end
  end.

(** The integer [n] as a float, exact below [2^53]. *)
Fixpoint float_of_pos (p : positive) : float :=
  match p with
  | xH => 1%float
  | xO q => (2 * float_of_pos q)%float
  | xI q => (2 * float_of_pos q + 1)%float
  end.

Definition float_of_nat (n : nat) : float :=
  match N.of_nat n with
  | N0 => 0%float
  | Npos p => float_of_pos p
  end.

#[local] Set Warnings "-inexact-float".

(** The tolerance [0.001]. *)
Definition tolerance : float := 0.001%float.

Section Verify.

(** The external collaborators: running the training framework on a
    command line, Python's [float] on the text of a decimal number and
    Python's built-in [sum] on a list of floats. *)
Variable run : list string -> completed_process.
Variable float_of_string : string -> float.
Variable py_sum : list float -> float.

(** [execute]: a generator that yields the lines and, once they are
    exhausted, asserts that the exit status is 0. *)
Definition execute (cmd : list string) : list string * result unit :=
  let proc := run cmd in
  (stdout_lines proc, assert (returncode proc =? 0)).

(** The command line of [verify_correctness]. *)
Definition verify_command (our_path : string) (cache_dir : option string)
    (data vocab : string) : list string :=
  let distributed_args :=
    ["--nproc_per_node=1"; "--nnodes=1"; "--node_rank=0";
     "--master_addr=localhost"; "--master_port=8000"] in
  let main_args :=
    ["--model_name=llama2"; "--load=" +:+ our_path; "--data_path=" +:+ data;
     "--no_new_tokens"; "--tokenizer_type=SentencePieceTokenizer";
     "--model_size=7"; "--vocab_file=" +:+ vocab] in
  let extra_args :=
    ["--hidden_dropout=0.0"; "--attention_dropout=0.0";
     "--no_bias_dropout_fusion"; "--no_bias_gelu_fusion"] in
  ["torchrun"] ++ distributed_args ++ ["verify_correctness.py"]
  ++ main_args ++ extra_args
  ++ match cache_dir with
     | Some dir => ["--huggingface_cache=" +:+ dir]
     | None => []
     end.

(** The list [max_errors] after the loop over the lines. *)
Definition parse_max_errors (lines : list string) : list float :=
  omap (fun line => float_of_string <$> match_max line) lines.

(** [sum(max_errors)/len(max_errors)] *)
Definition average (max_errors : list float) : result float :=
  match max_errors with
  | [] => Raise ZeroDivisionError
  | _ => Ok (py_sum max_errors / float_of_nat (length max_errors))%float
  end.

(** [verify_correctness] *)
Definition verify_correctness (our_path : string) (cache_dir : option string)
    (data vocab : string) : result (list float) :=
  let cmd := verify_command our_path cache_dir data vocab in
  let '(lines, exit_check) := execute cmd in
  let max_errors := parse_max_errors lines in
  exit_check;;
  avg ← average max_errors;
  assert (PrimFloat.leb avg tolerance);;
  mret max_errors.

(** The reading of the behaviour under test that only looks at the
    average: an [AssertionError] exactly when the average exceeds the
    tolerance, the list of parsed errors otherwise. *)
Definition asserts_exactly_on_average (our_path : string)
    (cache_dir : option string) (data vocab : string) : Prop :=
  let proc := run (verify_command our_path cache_dir data vocab) in
  let max_errors := parse_max_errors (stdout_lines proc) in
  let exceeds :=
    match average max_errors with
    | Ok avg => negb (PrimFloat.leb avg tolerance)
    | Raise _ => false
    end in
  (verify_correctness our_path cache_dir data vocab = Raise AssertionError
   <-> exceeds = true) /\
  (exceeds = false ->
   verify_correctness our_path cache_dir data vocab = Ok max_errors).

End Verify.

(** *** Concrete runs *)

Definition digit_value (c : ascii) : N := N.of_nat (nat_of_ascii c - 48).

Fixpoint digits_value (acc : N) (s : string) : N :=
  match s with
  | EmptyString => acc
  | String c s' => digits_value (10 * acc + digit_value c)%N s'
  end.

Definition float_of_N (n : N) : float :=
  match n with
  | N0 => 0%float
  | Npos p => float_of_pos p
  end.

(** [float] on the text [d.f] of a decimal number with few enough digits
    for numerator and denominator to be exact: one correctly rounded
    division. *)
Definition decimal_float (s : string) : float :=
  let '(int_part, r) := span_digits s in
  let frac :=
    match r with
    | String _ r' => fst (span_digits r')
    | EmptyString => EmptyString
    end in
  (float_of_N (digits_value 0 (int_part +:+ frac))
   / float_of_N (10 ^ N.of_nat (String.length frac)))%float.

(** [sum] as a left-to-right addition starting from 0. *)
Definition sum_left (l : list float) : float :=
  fold_left PrimFloat.add l 0%float.

(** The framework reports small errors but exits with status 1. *)
Definition failing_run (cmd : list string) : completed_process :=
  mkProcess ["Iteration 0 max=0.0005 avg=0.0001"; "Max abs error: max=0.0007"] 1.

(** The framework exits with status 0 and prints no error line. *)
Definition silent_run (cmd : list string) : completed_process :=
  mkProcess ["Setting up"; "done"] 0.

(** The framework exits with status 0 and reports errors around the
    tolerance. *)
Definition passing_run (cmd : list string) : completed_process :=
  mkProcess ["Iteration 0 max=0.0005 avg=0.0001"; "noise";
             "Iteration 1 max=0.0015 max=0.0012"] 0.

Example match_max_takes_last :
  match_max "Iteration 1 max=0.0015 max=0.0012 end" = Some "0.0012" /\
  match_max "max=12 max=.5 max=7." = None /\
  match_max "xmax=3.25abc" = Some "3.25".
Proof. repeat split. Qed.

Example verify_command_example :
  verify_command "ckpt" (Some "cache") "data" "tok.model"
  = ["torchrun"; "--nproc_per_node=1"; "--nnodes=1"; "--node_rank=0";
     "--master_addr=localhost"; "--master_port=8000"; "verify_correctness.py";
     "--model_name=llama2"; "--load=ckpt"; "--data_path=data"; "--no_new_tokens";
     "--tokenizer_type=SentencePieceTokenizer"; "--model_size=7";
     "--vocab_file=tok.model"; "--hidden_dropout=0.0"; "--attention_dropout=0.0";
     "--no_bias_dropout_fusion"; "--no_bias_gelu_fusion";
     "--huggingface_cache=cache"].
Proof. reflexivity. Qed.

Lemma bind_Raise {A B : Type} (m : result A) (k : A -> result B) (e : exn) :
  m ≫= k = Raise e ->
  m = Raise e \/ exists a, m = Ok a /\ k a = Raise e.
Proof. destruct m as [a|e']; simpl; intros H; [eauto | left; congruence]. Qed.

(** C7 as stated fails: with small parsed errors (average 0.0006) and exit
    status 1 the function raises the [AssertionError] of [execute]. *)
Lemma exit_status_also_asserts :
  ~ asserts_exactly_on_average failing_run decimal_float sum_left
      "ckpt" None "data" "tok.model".
Proof.
  intros [Hiff _].
  assert (Hraise : verify_correctness failing_run decimal_float sum_left
                     "ckpt" None "data" "tok.model" = Raise AssertionError)
    by reflexivity.
  apply Hiff in Hraise. vm_compute in Hraise. discriminate Hraise.
Qed.

(** Without any parsed error the division raises [ZeroDivisionError]. *)
Example no_error_line_divides_by_zero :
  verify_correctness silent_run decimal_float sum_left "ckpt" None "data" "tok.model"
  = Raise ZeroDivisionError.
Proof. reflexivity. Qed.

(** C7, amended: [verify_correctness] runs the framework on
    [verify_command]; when at least one [max=<number>] is parsed from its
    output, it raises [AssertionError] exactly when the exit status is not 0
    or the average of the parsed errors is not [<= 0.001], and it returns
    the parsed errors when the status is 0 and the average is within the
    tolerance. *)
Theorem verify_correctness_outcome
    (run : list string -> completed_process)
    (float_of_string : string -> float) (py_sum : list float -> float)
    (our_path : string) (cache_dir : option string) (data vocab : string) :
  let proc := run (verify_command our_path cache_dir data vocab) in
  let max_errors := parse_max_errors float_of_string (stdout_lines proc) in
  let avg := (py_sum max_errors / float_of_nat (length max_errors))%float in
  let outcome :=
    verify_correctness run float_of_string py_sum our_path cache_dir data vocab in
  max_errors <> [] ->
  (outcome = Raise AssertionError
   <-> returncode proc <> 0 \/ PrimFloat.leb avg tolerance = false) /\
  (returncode proc = 0 -> PrimFloat.leb avg tolerance = true ->
   outcome = Ok max_errors).
Proof.
  intros proc max_errors avg outcome Hne.
  assert (Hout : outcome
                 = if returncode proc =? 0
                   then if PrimFloat.leb avg tolerance
                        then Ok max_errors else Raise AssertionError
                   else Raise AssertionError).
  { subst outcome. unfold verify_correctness, execute.
    fold proc. fold max_errors.
    destruct (returncode proc =? 0); simpl; [|reflexivity].
    unfold average. destruct max_errors as [|x l] eqn:E; [contradiction|].
    simpl. fold avg. destruct (PrimFloat.leb _ tolerance); reflexivity. }
  rewrite Hout. destruct (Z.eqb_spec (returncode proc) 0) as [Hz|Hnz].
  - destruct (PrimFloat.leb avg tolerance); split.
    + split; [discriminate | intros [H|H]; [contradiction | discriminate]].
    + reflexivity.
    + split; [intros _; right; reflexivity | reflexivity].
    + intros _ H. discriminate H.
  - split; [split; [intros _; left; exact Hnz | reflexivity] | contradiction].
Qed.

Lemma verify_correctness_outcome_witness :
  verify_correctness passing_run decimal_float sum_left
    "ckpt" (Some "cache") "data" "tok.model" = Raise AssertionError
  <-> returncode (passing_run []) <> 0
      \/ PrimFloat.leb (sum_left [0.0005; 0.0012] / 2)%float tolerance = false.
Proof.
  destruct (verify_correctness_outcome passing_run decimal_float sum_left
              "ckpt" (Some "cache") "data" "tok.model") as [Hiff _].
  - vm_compute. discriminate.
  - exact Hiff.
Defined.

(** *** Which lines yield a value *)














(** *** The outcomes of [verify_correctness] *)

(** [verify_correctness] returns only the parsed errors, and only when the
    exit status is 0, at least one error was parsed and their average is
    within the tolerance.  With exit status 0 and no parsed error it raises
    [ZeroDivisionError]; it raises nothing but that and [AssertionError]. *)
Theorem verify_correctness_cases
    (run : list string -> completed_process)
    (float_of_string : string -> float) (py_sum : list float -> float)
    (our_path : string) (cache_dir : option string) (data vocab : string) :
  let proc := run (verify_command our_path cache_dir data vocab) in
  let max_errors := parse_max_errors float_of_string (stdout_lines proc) in
  let avg := (py_sum max_errors / float_of_nat (length max_errors))%float in
  let outcome :=
    verify_correctness run float_of_string py_sum our_path cache_dir data vocab in
  (forall l, outcome = Ok l <->
     returncode proc = 0 /\ l = max_errors /\ max_errors <> [] /\
     PrimFloat.leb avg tolerance = true) /\
  (outcome = Raise ZeroDivisionError <->
     returncode proc = 0 /\ max_errors = []) /\
  (forall e, outcome = Raise e -> e = AssertionError \/ e = ZeroDivisionError).
Proof.
  intros proc max_errors avg outcome.
  assert (Hout : outcome
                 = if returncode proc =? 0
                   then match max_errors with
                        | [] => Raise ZeroDivisionError
                        | _ => if PrimFloat.leb avg tolerance
                               then Ok max_errors else Raise AssertionError
                        end
                   else Raise AssertionError).
  { subst outcome. unfold verify_correctness, execute.
    fold proc. fold max_errors.
    destruct (returncode proc =? 0); simpl; [|reflexivity].
    unfold average. subst avg. destruct max_errors as [|x l]; [reflexivity|].
    simpl. destruct (PrimFloat.leb _ tolerance); reflexivity. }
  rewrite Hout. clear Hout.
  destruct (Z.eqb_spec (returncode proc) 0) as [Hz|Hnz].
  - destruct max_errors as [|x l'] eqn:E.
    + split; [|split].
      * intros l. split; [discriminate | intros (_ & _ & H & _); contradiction].
      * split; auto.
      * intros e [= <-]. auto.
    + destruct (PrimFloat.leb avg tolerance); (split; [|split]).
      * intros l. split.
        -- intros [= <-]. repeat split; auto; discriminate.
        -- intros (_ & -> & _). reflexivity.
      * split; [discriminate | intros [_ H]; discriminate H].
      * discriminate.
      * intros l. split; [discriminate | intros (_ & _ & _ & H); discriminate H].
      * split; [discriminate | intros [_ H]; discriminate H].
      * intros e [= <-]. auto.
  - split; [|split].
    + intros l. split; [discriminate | intros (H & _); contradiction].
    + split; [discriminate | intros [H _]; contradiction].
    + intros e [= <-]. auto.
Qed.

End TestLlamaWeights.
